(** * Effective Oxidation State (EOS) engine of chemtools

    A shallow embedding of [chemtools/toolbox/oxidation.py] (class [EOS]):
    [compute_fragment_overlap], [compute_fragment_occupation] and
    [compute_oxidation_state], together with the parts of Python, numpy
    and itertools these methods rely on.

    Conventions.
    - numpy [float64] scalars are IEEE 754 binary64 values, modelled by
      the Standard Library's [spec_float]; numpy [int64] values are
      integers, every operation on them being reduced modulo 2^64
      ([int64]);
    - Python exceptions are values of [exn]; a method of the object is a
      computation in the monad [M], which threads the mutable attribute
      [self._frags], the standard output and a trace of the calls made to
      the fragment condensation operator, and which may raise;
    - the collaborators that live outside the module (the molecule, the
      Becke/Hirshfeld partitioning, the grid, [numpy.linalg.svd]) are
      fields of records or section variables. *)

From Stdlib Require Import ZArith SpecFloat Permutation.
From stdpp Require Import base list strings sorting.

Open Scope Z_scope.
Open Scope nat_scope.

(** ** numpy values *)

Abbreviation float64 := spec_float.

(** [0.0], the value [np.zeros] fills an array with. *)
Definition f64_zero : float64 := S754_zero false.

(** Product of two [float64] scalars (binary64: precision 53, emax 1024). *)
Definition f64_mul : float64 -> float64 -> float64 := SFmul 53 1024.

Definition is_nan (x : float64) : bool :=
  match x with S754_nan => true | _ => false end.

(** A numpy [int64]: the result of an integer operation is reduced
    modulo 2^64 to the range from -2^63 to 2^63 - 1. *)
Definition int64 (z : Z) : Z := ((z + 2 ^ 63) mod 2 ^ 64 - 2 ^ 63)%Z.

(** A one-dimensional array of [float64]. *)
Abbreviation Field := (list float64).

(** [a * b] on one-dimensional arrays of equal length. *)
Definition field_mul (a b : Field) : Field := zip_with f64_mul a b.

(** A two-dimensional array: its shape and its items. *)
Record ndarray2 : Type := {
  shape : nat * nat;
  item : nat -> nat -> float64
}.

(** [a.T] *)
Definition T (a : ndarray2) : ndarray2 :=
  {| shape := (snd (shape a), fst (shape a));
     item := fun i j => item a j i |}.

(** A stack of matrices, [arr[x][i][j]]. *)
Abbreviation ndarray3 := (list (list (list float64))).

(** [np.zeros((f, n, m))] *)
Definition zeros (f n m : nat) : ndarray3 :=
  replicate f (replicate n (replicate m f64_zero)).

(** [arr[x][i][j] = v], for indices that are in range. *)
Definition setitem3 (arr : ndarray3) (x i j : nat) (v : float64) : ndarray3 :=
  alter (alter (fun row => <[j := v]> row) i) x arr.

(** [arr[x][i][j]] *)
Definition getitem3 (arr : ndarray3) (x i j : nat) : option float64 :=
  arr !! x ≫= fun m => m !! i ≫= fun row => row !! j.

(** ** Exceptions and results *)

Inductive exn : Type :=
  | NotImplementedError (msg : string)
  | IndexError
  | TypeError
  | LinAlgError.

Inductive result (A : Type) : Type :=
  | Ok (a : A)
  | Raise (e : exn).
Arguments Ok {A} a.
Arguments Raise {A} e.

(** ** The collaborators *)

(** A fragment is a list of atom indices. *)
Abbreviation fragment := (list Z).

(** [chemtools.wrappers.molecule.Molecule], as far as [EOS] uses it.
    [numbers] holds the items of the [int64] array of atomic numbers;
    [nelectrons] holds [int(mo.nelectrons[0])] and [int(mo.nelectrons[1])],
    the declared numbers of alpha and beta electrons. *)
Record Molecule : Type := {
  numbers : list Z;
  nelectrons : nat * nat;
  compute_molecular_orbital : ndarray2 -> string -> ndarray2
}.

(** [chemtools.wrappers.grid.MolecularGrid] *)
Record MolecularGrid : Type := {
  points : ndarray2
}.

(** [chemtools.wrappers.part.DensPart]: the fragment condensation operator
    [condense_to_fragments(field, fragments, w_power)] returns one scalar
    per fragment. *)
Record DensPart : Type := {
  condense_to_fragments : Field -> list fragment -> Z -> list float64
}.

(** The [EOS] object. [_frags] is [None] after [__init__]. *)
Record EOS : Type := {
  molecule : Molecule;
  part : DensPart;
  grid : MolecularGrid;
  _frags : option (list fragment)
}.

(** [EOS.__init__] *)
Definition EOS_init (molecule : Molecule) (part : DensPart) (grid : MolecularGrid) : EOS :=
  {| molecule := molecule; part := part; grid := grid; _frags := None |}.

(** [EOS.from_molecule] *)
Definition from_molecule (molecule : Molecule) (part : DensPart) (grid : MolecularGrid) : EOS :=
  EOS_init molecule part grid.

(** ** The monad of method bodies *)

(** One call [part.condense_to_fragments(orbitals[i] * orbitals[j], frags,
    w_power=...)]; [call_pair] records the loop indices [(i, j)] at which
    the call was made. *)
Record CondenseCall : Type := {
  call_pair : nat * nat;
  call_field : Field;
  call_frags : list fragment;
  call_w_power : Z
}.

(** What a method can change: the object, the calls made to the
    condensation operator so far (latest last), and what was printed. *)
Record World : Type := {
  self : EOS;
  calls : list CondenseCall;
  stdout : list (string * list (list float64))
}.

Definition M (A : Type) : Type := World -> result A * World.

#[export] Instance M_ret : MRet M := fun A a w => (Ok a, w).

#[export] Instance M_bind : MBind M := fun A B f m w =>
  match m w with
  | (Ok a, w') => f a w'
  | (Raise e, w') => (Raise e, w')
  end.

Definition raise {A : Type} (e : exn) : M A := fun w => (Raise e, w).

Definition get_self : M EOS := fun w => (Ok (self w), w).

(** The object after the assignment [self._frags = frags]. *)
Definition with_frags (this : EOS) (frags : option (list fragment)) : EOS :=
  {| molecule := molecule this; part := part this; grid := grid this; _frags := frags |}.

(** The world in which [self._frags] holds [frags]. *)
Definition update_frags (frags : option (list fragment)) (w : World) : World :=
  {| self := with_frags (self w) frags; calls := calls w; stdout := stdout w |}.

(** [self._frags = frags] *)
Definition set_frags (frags : list fragment) : M unit := fun w =>
  (Ok tt, update_frags (Some frags) w).

(** [self._frags], a list once a partition has been stored. *)
Definition get_frags : M (list fragment) := fun w =>
  match _frags (self w) with
  | Some frags => (Ok frags, w)
  | None => (Raise TypeError, w)
  end.

(** [self.part.condense_to_fragments(field, frags, w_power=p)], made at
    loop indices [ij]. *)
Definition call_condense (ij : nat * nat) (field : Field) (frags : list fragment) (p : Z)
  : M (list float64) := fun w =>
  (Ok (condense_to_fragments (part (self w)) field frags p),
   {| self := self w;
      calls := calls w ++ [ {| call_pair := ij; call_field := field;
                               call_frags := frags; call_w_power := p |} ];
      stdout := stdout w |}).

(** [print label, s] *)
Definition print (label : string) (s : list (list float64)) : M unit := fun w =>
  (Ok tt, {| self := self w; calls := calls w; stdout := stdout w ++ [(label, s)] |}).

(** Sequence indexing [l[i]] with [i >= 0]. *)
Definition getitem {A : Type} (l : list A) (i : nat) : M A :=
  match l !! i with
  | Some a => mret a
  | None => raise IndexError
  end.

(** Row [i] of a two-dimensional array, as a one-dimensional array. *)
Definition row (a : ndarray2) (i : nat) : Field :=
  map (item a i) (seq 0 (snd (shape a))).

(** [orbitals[i]] with [i >= 0]: row [i] if there is one. *)
Definition getrow (a : ndarray2) (i : nat) : M Field :=
  if i <? fst (shape a) then mret (row a i) else raise IndexError.

(** A [for] loop that updates a local variable. *)
Fixpoint foldM {A B : Type} (f : B -> A -> M B) (b : B) (l : list A) : M B :=
  match l with
  | [] => mret b
  | a :: l' => b' ← f b a; foldM f b' l'
  end.

(** [itertools.combinations_with_replacement(range(n), 2)], in the order
    itertools yields the pairs: (0,0), (0,1), ..., (0,n-1), (1,1), ... *)
Definition combinations_with_replacement_2 (n : nat) : list (nat * nat) :=
  flat_map (fun i => map (fun j => (i, j)) (seq i (n - i))) (seq 0 n).

(** ** [EOS.compute_fragment_overlap] *)

(** The value a keyword argument [spin] takes: [None] is an omitted
    argument, which Python replaces by the default ['ab']. *)
Definition spin_arg (spin : option string) : string := default "ab"%string spin.

(** [[[index] for index in range(len(self.molecule.numbers))]] *)
Definition atom_fragments (mol : Molecule) : list fragment :=
  map (fun index => [Z.of_nat index]) (seq 0 (length (numbers mol))).

(** The body of the inner loop [for x in range(len(self._frags))]. *)
Definition write_pair (qij : list float64) (i j : nat) (arr : ndarray3) (x : nat) : M ndarray3 :=
  q ← getitem qij x;
  mret (setitem3 (setitem3 arr x i j q) x j i q).

(** The body of the loop over orbital pairs. *)
Definition overlap_step (orbitals : ndarray2) (frags : list fragment)
    (arr : ndarray3) (ij : nat * nat) : M ndarray3 :=
  let '(i, j) := ij in
  oi ← getrow orbitals i;
  oj ← getrow orbitals j;
  qij ← call_condense (i, j) (field_mul oi oj) frags 2%Z;
  foldM (write_pair qij i j) arr (seq 0 (length frags)).

Definition compute_fragment_overlap (fragments : option (list fragment))
    (spin : option string) : M ndarray3 :=
  let spin := spin_arg spin in
  this ← get_self;
  ne ← (if String.eqb spin "a" then mret (fst (nelectrons (molecule this)))
        else if String.eqb spin "b" then mret (snd (nelectrons (molecule this)))
        else raise (NotImplementedError "Not clear what to do here!"));
  _ ← match fragments with
      | None => set_frags (atom_fragments (molecule this))
      | Some fragments => set_frags fragments
      end;
  frags ← get_frags;
  let orbitals :=
    T (compute_molecular_orbital (molecule this) (points (grid this)) spin) in
  let arr := zeros (length frags) ne ne in
  foldM (overlap_step orbitals frags) arr (combinations_with_replacement_2 ne).

(** ** [EOS.compute_fragment_occupation] *)

Section Numpy.

(** [numpy.linalg.svd(arr)] on a stack of matrices, reduced to what the
    module keeps of it: the singular values of each matrix ([u] and [vh]
    are discarded). LAPACK may fail to converge, in which case numpy
    raises. *)
Variable linalg_svd : ndarray3 -> result (list (list float64)).

Definition call_svd (arr : ndarray3) : M (list (list float64)) := fun w =>
  (linalg_svd arr, w).

(** [np.set_printoptions] only changes how later output is formatted and
    is left out. *)
Definition compute_fragment_occupation (fragments : option (list fragment))
    (spin : option string) : M (list (list float64)) :=
  arr ← compute_fragment_overlap fragments spin;
  s ← call_svd arr;
  _ ← print "alpha occupations" s;
  mret s.

(** ** Python's [sorted] on [(value, fragment)] tuples *)

(** [(s1, i1) < (s2, i2)]: tuples compare by the first position at which
    they differ ([==] on the items), with [<] there. *)
Definition tuple_lt (p q : float64 * nat) : bool :=
  if SFeqb (fst p) (fst q) then snd p <? snd q else SFltb (fst p) (fst q).

(** Insertion of [x] before the first element that is not less than it. *)
Fixpoint insert_sorted {A : Type} (lt : A -> A -> bool) (x : A) (l : list A) : list A :=
  match l with
  | [] => [x]
  | y :: l' => if lt y x then y :: insert_sorted lt x l' else x :: l
  end.

(** [sorted(l)]: the stable ascending sort that uses only [<]. On items
    whose [<] is a strict weak order (tuples of NaN-free floats and
    integers) the stable sorted arrangement is unique, so insertion from
    the right computes what Python's merge sort does. With a NaN among
    the items [<] is no such order, and the arrangement Python returns
    depends on the runs its merge sort detects, which this sort does not
    follow: it is a rearrangement of the items all the same, and every
    statement about its order assumes NaN-free items. *)
Definition py_sorted {A : Type} (lt : A -> A -> bool) (l : list A) : list A :=
  foldr (insert_sorted lt) [] l.

(** [sorted(l, reverse=True)]: Python reverses the list, sorts it
    ascending and stably, and reverses the result. *)
Definition py_sorted_reverse {A : Type} (lt : A -> A -> bool) (l : list A) : list A :=
  rev (py_sorted lt (rev l)).

(** The ranking of the disabled lines 150 and 151,
    [sorted(occupations_alpha, key=itemgetter(0), reverse=True)]: the
    pairs are compared by their occupation alone. *)
Definition sorted_by_itemgetter (l : list (float64 * nat)) : list (float64 * nat) :=
  py_sorted_reverse (fun p q => SFltb (fst p) (fst q)) l.

(** ** [EOS.compute_oxidation_state] *)

(** [[(s, i) for i, row in enumerate(s_a) for s in row]] *)
Definition flatten_occupations (s_a : list (list float64)) : list (float64 * nat) :=
  mjoin (imap (fun i row => map (fun s => (s, i)) row) s_a).

(** [sorted_alpha] *)
Definition sorted_occupations (s_a : list (list float64)) : list (float64 * nat) :=
  py_sorted_reverse tuple_lt (flatten_occupations s_a).

(** [occs_a = [item[1] for item in sorted_alpha]] *)
Definition occs (s_a : list (list float64)) : list nat :=
  map snd (sorted_occupations s_a).

(** [occs_frag_a = [occs_a[:nalpha].count(index)
                    for index in range(len(self._frags))]] *)
Definition occs_frag (s_a : list (list float64)) (nalpha : nat) (nfrags : nat) : list nat :=
  map (fun index => count_occ Nat.eq_dec (take nalpha (occs s_a)) index) (seq 0 nfrags).

(** [numbers[index]] for a Python integer [index]: negative indices count
    from the end, anything out of range raises. *)
Definition getitem_int (l : list Z) (index : Z) : M Z :=
  let n := Z.of_nat (length l) in
  let k := if (index <? 0)%Z then (index + n)%Z else index in
  if (k <? 0)%Z then raise IndexError
  else getitem l (Z.to_nat k).

(** [sum(l)] on items of an [int64] array: the additions are those of
    numpy scalars, which wrap around. *)
Definition sum_int (l : list Z) : Z := foldl (fun acc x => int64 (acc + x)) 0%Z l.

(** [[sum([self.molecule.numbers[index] for index in frag])
     for frag in self._frags]] *)
Definition z_frag (numbers : list Z) (frags : list fragment) : M (list Z) :=
  mapM (fun frag => zs ← mapM (getitem_int numbers) frag; mret (sum_int zs)) frags.

(** [np.array(z) - np.array(a) - np.array(b)] on integer lists of one
    length: subtraction of [int64] arrays, item by item, which wraps
    around. *)
Definition array_sub3 (z : list Z) (a b : list nat) : list Z :=
  zip_with (fun x y => int64 (x - y))
    (zip_with (fun x y => int64 (x - y)) z (map Z.of_nat a)) (map Z.of_nat b).

Definition compute_oxidation_state (fragments : option (list fragment)) : M (list Z) :=
  this ← get_self;
  let nalpha := fst (nelectrons (molecule this)) in
  let nbeta := snd (nelectrons (molecule this)) in
  s_a ← compute_fragment_occupation fragments (Some "a"%string);
  s_b ← compute_fragment_occupation fragments (Some "b"%string);
  frags ← get_frags;
  let occs_frag_a := occs_frag s_a nalpha (length frags) in
  let occs_frag_b := occs_frag s_b nbeta (length frags) in
  z ← z_frag (numbers (molecule this)) frags;
  mret (array_sub3 z occs_frag_a occs_frag_b).

End Numpy.

(** * Vocabulary of the statements *)

(** The declared electron count of a spin channel; [None] for a tag that
    is not accepted. *)
Definition declared_count (mol : Molecule) (spin : string) : option nat :=
  if String.eqb spin "a" then Some (fst (nelectrons mol))
  else if String.eqb spin "b" then Some (snd (nelectrons mol))
  else None.

(** The partition a call works with. *)
Definition partition_used (mol : Molecule) (fragments : option (list fragment)) : list fragment :=
  default (atom_fragments mol) fragments.

(** The occupied orbitals the provider returns for [spin], one per row. *)
Definition orbitals_of (this : EOS) (spin : string) : ndarray2 :=
  T (compute_molecular_orbital (molecule this) (points (grid this)) spin).

(** The call the loop makes for the orbital pair [ij]. *)
Definition overlap_call (orbitals : ndarray2) (frags : list fragment) (ij : nat * nat)
  : CondenseCall :=
  {| call_pair := ij;
     call_field := field_mul (row orbitals (fst ij)) (row orbitals (snd ij));
     call_frags := frags;
     call_w_power := 2%Z |}.

(** The scalar that call returns for fragment [x]. *)
Definition condensed (prt : DensPart) (orbitals : ndarray2) (frags : list fragment)
    (i j x : nat) : float64 :=
  default f64_zero
    (condense_to_fragments prt (field_mul (row orbitals i) (row orbitals j)) frags 2%Z !! x).

(** A matrix stack is symmetric when [arr[x][i][j]] and [arr[x][j][i]]
    hold the same value, for all indices. *)
Definition symmetric3 (arr : ndarray3) : Prop :=
  forall x i j, getitem3 arr x i j = getitem3 arr x j i.

(** Lines 153 to 160 of the method: from the occupations of both spins
    to the oxidation states. *)
Definition oxidation_of (mol : Molecule) (s_a s_b : list (list float64)) : M (list Z) :=
  frags ← get_frags;
  z ← z_frag (numbers mol) frags;
  mret (array_sub3 z (occs_frag s_a (fst (nelectrons mol)) (length frags))
                     (occs_frag s_b (snd (nelectrons mol)) (length frags))).


(** The provider's answer cut down to its first [n] orbitals
    ([a[:, :n]]). *)
Definition first_orbitals (n : nat) (a : ndarray2) : ndarray2 :=
  {| shape := (fst (shape a), n); item := item a |}.

(** The world in which the orbital provider returns only the first [n]
    orbitals of what it returns in [w]. *)
Definition with_first_orbitals (n : nat) (w : World) : World :=
  {| self :=
       {| molecule :=
            {| numbers := numbers (molecule (self w));
               nelectrons := nelectrons (molecule (self w));
               compute_molecular_orbital := fun pts spin =>
                 first_orbitals n (compute_molecular_orbital (molecule (self w)) pts spin) |};
          part := part (self w);
          grid := grid (self w);
          _frags := _frags (self w) |};
     calls := calls w;
     stdout := stdout w |}.

(** Occupation arrays without NaN. *)
Definition nan_free (s : list (list float64)) : Prop :=
  Forall (Forall (fun x => is_nan x = false)) s.

(** Assignment count of fragment [i]: the number of entries that belong
    to it among the first [n] of the ranked list. *)
Definition assignment_count (s : list (list float64)) (n i : nat) : nat :=
  length (filter (fun p => snd p = i) (take n (sorted_occupations s))).

(** ** The assignment of electrons by rank

    The assignment count in the words of the data model, without the
    sort: every occupation number has a rank among all occupation numbers
    of the spin, and the electrons go to the first [n] ranks. *)

(** The occupation number in slot [p.2] of fragment [p.1]. *)
Definition occupation (s : list (list float64)) (p : nat * nat) : float64 :=
  default f64_zero (s !! p.1 ≫= fun row => row !! p.2).

(** The slots (fragment, position) of the fragments from index [i] on. *)
Fixpoint slots_from (i : nat) (s : list (list float64)) : list (nat * nat) :=
  match s with
  | [] => []
  | row :: s' => map (fun k => (i, k)) (seq 0 (length row)) ++ slots_from (S i) s'
  end.

Definition slots (s : list (list float64)) : list (nat * nat) := slots_from 0 s.

(** Slot [p] is ranked before slot [q]: its occupation is larger; or the
    occupations are equal and its fragment index is higher; or they are
    equal in one fragment and its position is lower. *)
Definition outranks (s : list (list float64)) (p q : nat * nat) : bool :=
  SFltb (occupation s q) (occupation s p) ||
  (SFeqb (occupation s p) (occupation s q) &&
   ((q.1 <? p.1) || ((p.1 =? q.1) && (p.2 <? q.2)))).

(** The rank of a slot: the number of slots ranked before it. *)
Definition rank_of (s : list (list float64)) (p : nat * nat) : nat :=
  length (filter (fun q => outranks s q p = true) (slots s)).

(** The assignment count of fragment [i] for [n] electrons: the number
    of its slots among the first [n] ranks. *)
Definition assignment_count_by_rank (s : list (list float64)) (n i : nat) : nat :=
  length (filter (fun k => rank_of s (i, k) < n) (seq 0 (length (default [] (s !! i))))).

(** An integer that an [int64] holds. *)
Definition in_int64 (z : Z) : Prop := (- 2 ^ 63 <= z < 2 ^ 63)%Z.

(** The atom the Python index [k] denotes in a sequence of length [n]:
    negative indices count from the end. *)
Definition atom_of_index (n : nat) (k : Z) : nat :=
  Z.to_nat (if (k <? 0)%Z then k + Z.of_nat n else k)%Z.

(** Sum of the nuclear charges of the atoms of a fragment. *)
Definition fragment_charge (numbers : list Z) (frag : fragment) : Z :=
  foldr Z.add 0%Z (map (fun k => nth (atom_of_index (length numbers) k) numbers 0%Z) frag).

(** The nuclear charge of a fragment fits in an [int64], and so does
    what is left of it when [na] alpha and [nb] beta electrons are taken
    away. *)
Definition charge_fits (numbers : list Z) (na nb : nat) (frag : fragment) : Prop :=
  (- 2 ^ 63 + Z.of_nat na + Z.of_nat nb <= fragment_charge numbers frag < 2 ^ 63)%Z.

(** A fragment whose atom indices exist in the molecule. *)
Definition valid_fragment (numbers : list Z) (frag : fragment) : Prop :=
  Forall (fun k => (- Z.of_nat (length numbers) <= k < Z.of_nat (length numbers))%Z) frag.

(** A float that is not NaN, placed on a line of integer triples: the
    triples of two floats compare lexicographically as the floats do. *)
Definition rank (x : float64) : Z * Z * Z :=
  match x with
  | S754_nan => (0, 0, 0)%Z
  | S754_zero _ => (0, 0, 0)%Z
  | S754_infinity true => (-2, 0, 0)%Z
  | S754_infinity false => (2, 0, 0)%Z
  | S754_finite true m e => (-1, - e, Z.neg m)%Z
  | S754_finite false m e => (1, e, Z.pos m)%Z
  end.

(** Lexicographic order on the triples. *)
Definition rank_lt (a b : Z * Z * Z) : Prop :=
  let '(a1, a2, a3) := a in
  let '(b1, b2, b3) := b in
  (a1 < b1 \/ (a1 = b1 /\ (a2 < b2 \/ (a2 = b2 /\ a3 < b3))))%Z.

(** The entry [p] comes before the entry [q] in the list [l]. *)
Definition before {A : Type} (l : list A) (p q : A) : Prop :=
  exists i j, i < j /\ l !! i = Some p /\ l !! j = Some q.

(** Two entries are tied when they have equal occupations and belong to
    the same fragment. *)
Definition tied (p q : float64 * nat) : bool :=
  SFeqb (fst p) (fst q) && Nat.eqb (snd p) (snd q).

(** A stack of [f] matrices with [n] rows of [m] items each. *)
Definition has_shape3 (arr : ndarray3) (f n m : nat) : Prop :=
  length arr = f /\
  Forall (fun mat => length mat = n /\ Forall (fun r => length r = m) mat) arr.

(** A Python index that a sequence of length [n] does not have. *)
Definition out_of_range (n : nat) (k : Z) : Prop :=
  (k < - Z.of_nat n \/ Z.of_nat n <= k)%Z.

(** What a call of [compute_fragment_occupation] adds to the output. *)
Definition printed (r : result (list (list float64))) : list (string * list (list float64)) :=
  match r with
  | Ok s => [("alpha occupations"%string, s)]
  | Raise _ => []
  end.



(** A float that is neither NaN nor infinite. *)
Definition is_finite (x : float64) : bool :=
  match x with
  | S754_zero _ | S754_finite _ _ _ => true
  | _ => false
  end.

(** * The descriptor tools

    [chemtools/denstools/densbased.py] (the classes [DensTool] to
    [DensGradLapKedTool]) and [chemtools/toolbox/nci.py] (class [NCI]).
    Both work on numpy arrays of any number of dimensions and raise
    [ValueError] with a formatted message. *)

Module numpy.

(** An [np.ndarray] of [float64]: its shape and its items by index. *)
Record ndarray : Type := {
  shape : list nat;
  item : list nat -> float64
}.

(** [a.ndim] *)
Definition ndim (a : ndarray) : nat := length (shape a).

(** [a.size] *)
Definition size (a : ndarray) : nat := foldr Nat.mul 1 (shape a).

(** [np.zeros(shape)] *)
Definition zeros (shp : list nat) : ndarray :=
  {| shape := shp; item := fun _ => f64_zero |}.

(** [a[index] = v] for one item. *)
Definition setitem (a : ndarray) (index : list nat) (v : float64) : ndarray :=
  {| shape := shape a;
     item := fun j => if decide (j = index) then v else item a j |}.

(** [a[i, :]], the sub-array at position [i] of the first axis. *)
Definition getsub (a : ndarray) (i : nat) : ndarray :=
  {| shape := drop 1 (shape a); item := fun j => item a (i :: j) |}.

(** [a[i, :] = v] for [v] of the shape of [a[i, :]]. *)
Definition setsub (a : ndarray) (i : nat) (v : ndarray) : ndarray :=
  {| shape := shape a;
     item := fun j =>
       match j with
       | i' :: j' => if decide (i' = i) then item v j' else item a j
       | [] => item a j
       end |}.

(** [np.triu_indices(n)]: the row indices and the column indices of the
    upper triangle of an n x n matrix, row by row. *)
Definition triu_indices (n : nat) : list nat * list nat :=
  let pairs := r ← seq 0 n; (fun c => (r, c)) <$> seq r (n - r) in
  (pairs.*1, pairs.*2).

(** [a[(rows, cols)] = values] for a two-dimensional [a] and a
    one-dimensional [values] with one item per index pair: the items are
    assigned in the order of the indices. *)
Definition setitem_indices (a : ndarray) (indices : list nat * list nat)
    (values : ndarray) : ndarray :=
  foldl (fun a krc => setitem a [krc.2.1; krc.2.2] (item values [krc.1]))
        a (imap (fun k rc => (k, rc)) (zip indices.1 indices.2)).

(** [a[:, k]] of a two-dimensional array. *)
Definition column (a : ndarray) (k : nat) : ndarray :=
  {| shape := take 1 (shape a);
     item := fun j => match j with [i] => item a [i; k] | _ => f64_zero end |}.

(** [f(a)] for a function that numpy applies item by item. *)
Definition elementwise (f : float64 -> float64) (a : ndarray) : ndarray :=
  {| shape := shape a; item := fun j => f (item a j) |}.

(** [a * b] for arrays of one shape. *)
Definition multiply (a b : ndarray) : ndarray :=
  {| shape := shape a; item := fun j => f64_mul (item a j) (item b j) |}.

(** [a + b] for arrays of one shape. *)
Definition add (a b : ndarray) : ndarray :=
  {| shape := shape a; item := fun j => SFadd 53 1024 (item a j) (item b j) |}.

(** [a * x] and [a / x] for a Python float [x]. *)
Definition multiply_float (a : ndarray) (x : float64) : ndarray :=
  elementwise (fun y => f64_mul y x) a.

Definition divide_float (a : ndarray) (x : float64) : ndarray :=
  elementwise (fun y => SFdiv 53 1024 y x) a.

(** The values handed to [str.format]: integers and tuples. *)
#[warnings="-register-all"]
Inductive object : Type :=
  | Int (n : nat)
  | Tuple (items : list object).

(** [a.shape] as a Python tuple. *)
Definition shape_object (a : ndarray) : object := Tuple (Int <$> shape a).

(** The message of an exception: a literal, or [template.format(args)]. *)
Inductive message : Type :=
  | Literal (text : string)
  | Format (template : string) (args : list object).

Inductive exception : Type :=
  | ValueError (msg : message)
  | LinAlgError (msg : message).

Inductive outcome (A : Type) : Type :=
  | Returns (a : A)
  | Raises (e : exception).
Arguments Returns {A} a.
Arguments Raises {A} e.

End numpy.

(** ** [chemtools/denstools/densbased.py] *)

Module densbased.

(** An object of a subclass holds the attributes its base class set. *)
Record DensTool : Type := {
  _dens : numpy.ndarray
}.

Record DensGradTool : Type := {
  DensGradTool_super : DensTool;
  _grad : numpy.ndarray
}.

Record DensGradLapTool : Type := {
  DensGradLapTool_super : DensGradTool;
  _lap : numpy.ndarray
}.

Record DensGradLapKedTool : Type := {
  DensGradLapKedTool_super : DensGradLapTool;
  _ked : numpy.ndarray
}.

(** [DensTool.__init__] *)
Definition DensTool_init (dens : numpy.ndarray) : numpy.outcome DensTool :=
  if decide (numpy.ndim dens <> 1)
  then numpy.Raises (numpy.ValueError
         (numpy.Literal "Argument dens should be a 1-dimensional array."))
  else numpy.Returns {| _dens := dens |}.

(** [DensGradTool.__init__] *)
Definition DensGradTool_init (dens grad : numpy.ndarray) : numpy.outcome DensGradTool :=
  match DensTool_init dens with
  | numpy.Raises e => numpy.Raises e
  | numpy.Returns self =>
      if decide (numpy.shape grad <> [numpy.size dens; 3])
      then numpy.Raises (numpy.ValueError
             (numpy.Format "Argument grad should be of {0} shape."
                [numpy.Tuple [numpy.shape_object dens; numpy.Int 3]]))
      else numpy.Returns {| DensGradTool_super := self; _grad := grad |}
  end.

(** [DensGradLapTool.__init__] *)
Definition DensGradLapTool_init (dens grad lap : numpy.ndarray)
  : numpy.outcome DensGradLapTool :=
  match DensGradTool_init dens grad with
  | numpy.Raises e => numpy.Raises e
  | numpy.Returns self =>
      if decide (numpy.shape lap <> numpy.shape dens)
      then numpy.Raises (numpy.ValueError
             (numpy.Format "Argument lap should be of {0} shape."
                [numpy.shape_object dens]))
      else numpy.Returns {| DensGradLapTool_super := self; _lap := lap |}
  end.

(** [DensGradLapKedTool.__init__] *)
Definition DensGradLapKedTool_init (dens grad lap ked : numpy.ndarray)
  : numpy.outcome DensGradLapKedTool :=
  match DensGradLapTool_init dens grad lap with
  | numpy.Raises e => numpy.Raises e
  | numpy.Returns self =>
      if decide (numpy.shape lap <> numpy.shape ked)
      then numpy.Raises (numpy.ValueError
             (numpy.Format "Argument ked should be of {0} shape."
                [numpy.shape_object dens]))
      else numpy.Returns {| DensGradLapKedTool_super := self; _ked := ked |}
  end.

(** The properties [density], [gradient], [laplacian] and
    [ked_positive_definite] of an object of the last class. *)
Definition density (self : DensGradLapKedTool) : numpy.ndarray :=
  _dens (DensGradTool_super (DensGradLapTool_super (DensGradLapKedTool_super self))).

Definition gradient (self : DensGradLapKedTool) : numpy.ndarray :=
  _grad (DensGradLapTool_super (DensGradLapKedTool_super self)).

Definition laplacian (self : DensGradLapKedTool) : numpy.ndarray :=
  _lap (DensGradLapKedTool_super self).

Definition ked_positive_definite (self : DensGradLapKedTool) : numpy.ndarray :=
  _ked self.

(** The literals [0.], [1] as a float, and [4.]. *)
Definition f64_0 : float64 := S754_zero false.
Definition f64_1 : float64 := Eval vm_compute in binary_normalize 53 1024 1 0 false.
Definition f64_4 : float64 := Eval vm_compute in binary_normalize 53 1024 4 0 false.

(** [DensGradLapKedTool.ked_general], for a float [a]: on an object that
    the constructor built the two arrays added have one shape. *)
Definition ked_general (self : DensGradLapKedTool) (a : float64) : numpy.ndarray :=
  numpy.add (ked_positive_definite self)
    (numpy.divide_float
       (numpy.multiply_float (laplacian self) (SFsub 53 1024 a f64_1)) f64_4).

(** [DensGradLapKedTool.ked_hamiltonian] *)
Definition ked_hamiltonian (self : DensGradLapKedTool) : numpy.ndarray :=
  ked_general self f64_0.

End densbased.

(** ** [chemtools/toolbox/nci.py] *)

Module nci.

(** The cubic grid, a collaborator: the module reads its points. *)
Record CubeGen : Type := {
  points : ndarray2
}.

(** [len(cube.points)] *)
Definition npoints (cube : CubeGen) : nat := fst (shape (points cube)).

Record NCI : Type := {
  _signed_density : option numpy.ndarray;
  _eigvalues : option numpy.ndarray;
  _density : numpy.ndarray;
  _rdgrad : numpy.ndarray;
  _cube : CubeGen
}.

(** One round of the loop of [NCI.__init__] over the grid points, on the
    buffer [tmp] and the array [hestri]:
    [tmp[np.triu_indices(3)] = hessian[i, :]; hestri[i, :] = tmp]. *)
Definition hestri_step (hessian : numpy.ndarray)
    (state : numpy.ndarray * numpy.ndarray) (i : nat) : numpy.ndarray * numpy.ndarray :=
  let tmp := numpy.setitem_indices state.1 (numpy.triu_indices 3) (numpy.getsub hessian i) in
  (tmp, numpy.setsub state.2 i tmp).

(** The loop that converts the (n, 6) array to the (n, 3, 3) array
    [hestri]. *)
Definition hestri (hessian : numpy.ndarray) (n : nat) : numpy.ndarray :=
  snd (foldl (hestri_step hessian) (numpy.zeros [3; 3], numpy.zeros [n; 3; 3]) (seq 0 n)).

(** [a[i].tolist()] for an array of shape (n, 3, 3). *)
Definition matrix_at (a : numpy.ndarray) (i : nat) : list (list float64) :=
  (fun r => (fun c => numpy.item a [i; r; c]) <$> seq 0 3) <$> seq 0 3.

(** The upper triangular matrix whose upper triangle holds, row by row,
    the six items of row [i] of an array of shape (n, 6). *)
Definition triu_matrix (hessian : numpy.ndarray) (i : nat) : list (list float64) :=
  let h k := numpy.item hessian [i; k] in
  [[h 0; h 1; h 2]; [f64_zero; h 3; h 4]; [f64_zero; f64_zero; h 5]].

(** The molecule, a collaborator. *)
Record Molecule : Type := {
  numbers : list Z;
  pseudo_numbers : list float64;
  coordinates : ndarray2;
  compute_density : ndarray2 -> numpy.ndarray;
  compute_gradient : ndarray2 -> numpy.ndarray;
  compute_hessian : ndarray2 -> numpy.ndarray
}.

(** The argument [cube]: an instance of [CubeGen], or another object. *)
Inductive cube_arg : Type :=
  | Cube (cube : CubeGen)
  | Other.

(** The argument [filename] of [from_file]: a string, or a list. *)
Inductive filename_arg : Type :=
  | Str (s : string)
  | List (l : list string).

(** A call of a function that writes a file. *)
Inductive call : Type :=
  | dump_cube (cube : CubeGen) (fname : string) (data : numpy.ndarray)
  | print_vmd_script_nci (vmdfile densfile rdgfile : string) (isosurf denscut : float64).

(** The literals [100.0], [0.1], [2.0], [0.5] and [0.05]. *)
Definition f64_100 : float64 := Eval vm_compute in binary_normalize 53 1024 100 0 false.
Definition f64_0_1 : float64 :=
  Eval vm_compute in SFdiv 53 1024 (binary_normalize 53 1024 1 0 false)
                           (binary_normalize 53 1024 10 0 false).
Definition f64_2 : float64 := Eval vm_compute in binary_normalize 53 1024 2 0 false.
Definition f64_0_5 : float64 := Eval vm_compute in binary_normalize 53 1024 1 (-1) false.
Definition f64_0_05 : float64 :=
  Eval vm_compute in SFdiv 53 1024 (binary_normalize 53 1024 5 0 false)
                           (binary_normalize 53 1024 100 0 false).

Section Collaborators.

(** [np.linalg.eigvalsh(a, UPLO='U')] on a stack [a] of n matrices, each
    3 x 3: the items of the (n, 3) array of eigenvalues, or an exception. *)
Variable eigvalsh : numpy.ndarray -> numpy.outcome (list nat -> float64).

(** [np.sign] on one item. *)
Variable sign : float64 -> float64.

(** [make_molecule(filename)] *)
Variable make_molecule : string -> numpy.outcome Molecule.

(** [CubeGen.from_molecule(numbers, pseudo_numbers, coordinates,
    spacing=..., threshold=...)] *)
Variable CubeGen_from_molecule :
  list Z -> list float64 -> ndarray2 -> float64 -> float64 -> CubeGen.

(** [DensityLocalTool(dens, grad).reduced_density_gradient] *)
Variable reduced_density_gradient :
  numpy.ndarray -> numpy.ndarray -> numpy.outcome numpy.ndarray.

(** [NCI.__init__] *)
Definition NCI_init (density rdgradient : numpy.ndarray) (cube : CubeGen)
    (hessian : option numpy.ndarray) : numpy.outcome NCI :=
  let n := npoints cube in
  if decide (numpy.shape density <> [n])
  then numpy.Raises (numpy.ValueError
         (numpy.Format "Shape of density argument {0} does not match expected ({1},) shape."
            [numpy.shape_object density; numpy.Int n]))
  else if decide (numpy.shape rdgradient <> [n])
  then numpy.Raises (numpy.ValueError
         (numpy.Format "Shape of rdgradient argument {0} does not match expected ({1},) shape."
            [numpy.shape_object density; numpy.Int n]))
  else
    match hessian with
    | Some hessian =>
        if decide (numpy.shape hessian <> [n; 6])
        then numpy.Raises (numpy.ValueError
               (numpy.Format
                  "Shape of hessian argument {0} does not match expected ({1}, 6) shape."
                  [numpy.shape_object hessian; numpy.Int n]))
        else
          match eigvalsh (hestri hessian n) with
          | numpy.Raises e => numpy.Raises e
          | numpy.Returns items =>
              let eigvalues := {| numpy.shape := [n; 3]; numpy.item := items |} in
              let sdens :=
                numpy.multiply (numpy.elementwise sign (numpy.column eigvalues 1)) density in
              numpy.Returns {| _signed_density := Some sdens;
                               _eigvalues := Some eigvalues;
                               _density := density;
                               _rdgrad := rdgradient;
                               _cube := cube |}
          end
    | None =>
        numpy.Returns {| _signed_density := None;
                         _eigvalues := None;
                         _density := density;
                         _rdgrad := rdgradient;
                         _cube := cube |}
    end.

(** [NCI.from_molecule]; the argument [package_name] is not used. *)
Definition from_molecule (molecule : Molecule) (cube : option cube_arg)
    (package_name : option string) : numpy.outcome NCI :=
  match
    match cube with
    | None => numpy.Returns
                (CubeGen_from_molecule (numbers molecule) (pseudo_numbers molecule)
                   (coordinates molecule) f64_0_1 f64_2)
    | Some (Cube cube) => numpy.Returns cube
    | Some Other => numpy.Raises (numpy.ValueError
                      (numpy.Literal "Argument cube should be an instance of CubeGen!"))
    end
  with
  | numpy.Raises e => numpy.Raises e
  | numpy.Returns cube =>
      let dens := compute_density molecule (points cube) in
      let grad := compute_gradient molecule (points cube) in
      let hess := compute_hessian molecule (points cube) in
      match reduced_density_gradient dens grad with
      | numpy.Raises e => numpy.Raises e
      | numpy.Returns rdgrad => NCI_init dens rdgrad cube (Some hess)
      end
  end.

(** [NCI.from_file]: a method that ends without [return] returns [None]. *)
Definition from_file (filename : filename_arg) (cube : option cube_arg)
    (package_name : option string) : numpy.outcome (option NCI) :=
  match filename with
  | Str filename =>
      match make_molecule filename with
      | numpy.Raises e => numpy.Raises e
      | numpy.Returns molecule =>
          match from_molecule molecule cube package_name with
          | numpy.Raises e => numpy.Raises e
          | numpy.Returns self => numpy.Returns (Some self)
          end
      end
  | List (_ :: _) =>
      numpy.Raises (numpy.ValueError (numpy.Literal "Multiple files are not supported"))
  | List [] => numpy.Returns None
  end.

End Collaborators.

(** [abs(density) > denscut] on one item. *)
Definition above (denscut : float64) (x : float64) : bool := SFltb denscut (SFabs x).

(** [NCI.dump_files]: the calls it makes to the functions that write the
    two cube files and the script, each made when the ones before it
    returned. The mask [abs(self._density) > denscut] has the shape of
    [self._rdgrad] on every object that [__init__] built. *)
Definition dump_files (self : NCI) (filename : string) (isosurf denscut : option float64)
  : list call :=
  let isosurf := default f64_0_5 isosurf in
  let denscut := default f64_0_05 denscut in
  let cutrdg :=
    {| numpy.shape := numpy.shape (_rdgrad self);
       numpy.item := fun j => if above denscut (numpy.item (_density self) j)
                              then f64_100 else numpy.item (_rdgrad self) j |} in
  let dens :=
    match _signed_density self with
    | Some sdens => numpy.elementwise (f64_mul f64_100) sdens
    | None => numpy.elementwise (f64_mul f64_100) (_density self)
    end in
  let densfile := (filename ++ "-dens.cube")%string in
  let rdgfile := (filename ++ "-grad.cube")%string in
  let vmdfile := (filename ++ ".vmd")%string in
  [dump_cube (_cube self) densfile dens;
   dump_cube (_cube self) rdgfile cutrdg;
   print_vmd_script_nci vmdfile densfile rdgfile isosurf (f64_mul denscut f64_100)].

End nci.
(** * Example systems *)

Module Examples.

(** The [float64] nearest to an integer, and to a quotient of integers. *)
Definition f64_of_Z (n : Z) : float64 := binary_normalize 53 1024 n 0 false.
Definition f64_quot (n d : Z) : float64 := SFdiv 53 1024 (f64_of_Z n) (f64_of_Z d).
Definition f64_add : float64 -> float64 -> float64 := SFadd 53 1024.

Definition one : float64 := Eval vm_compute in f64_of_Z 1.
Definition half : float64 := Eval vm_compute in f64_quot 1 2.

(** A grid with one point per atom. *)
Definition toy_grid (natoms : nat) : MolecularGrid :=
  {| points := {| shape := (natoms, 3); item := fun _ _ => f64_zero |} |}.

(** A partitioning in which grid point [k] belongs to atom [k] alone and
    carries the integration weight 1/2: the atomic weights are 0 or 1, so
    their power does not change them, and the condensed value of a
    fragment is half the sum of the field over the points of its atoms. *)
Definition toy_part : DensPart :=
  {| condense_to_fragments := fun field frags _ =>
       map (fun frag : fragment =>
              foldl (fun acc k => f64_add acc (f64_mul half (nth (Z.to_nat k) field f64_zero)))
                    f64_zero frag)
           frags |}.

(** A molecule of atoms [zs] with [na] alpha and [nb] beta electrons whose
    provider returns [norb] orbitals, all of amplitude 1 at every point. *)
Definition toy_molecule (zs : list Z) (na nb norb : nat) : Molecule :=
  {| numbers := zs;
     nelectrons := (na, nb);
     compute_molecular_orbital := fun pts _ =>
       {| shape := (fst (shape pts), norb); item := fun _ _ => one |} |}.

(** The world of a freshly built object. *)
Definition fresh (mol : Molecule) (prt : DensPart) (grd : MolecularGrid) : World :=
  {| self := from_molecule mol prt grd; calls := []; stdout := [] |}.

(** The singular values of diagonal matrices: the absolute values of the
    diagonal entries, largest first. *)
Definition svd_diagonal (arr : ndarray3) : result (list (list float64)) :=
  Ok (map (fun m => py_sorted_reverse SFltb (imap (fun i r => SFabs (nth i r f64_zero)) m)) arr).

(** Dihydrogen: two atoms, one electron of each spin, one orbital. *)
Definition h2 : World := fresh (toy_molecule [1; 1]%Z 1 1 1) toy_part (toy_grid 2).

(** One electron of each spin declared, two orbitals returned. *)
Definition h2_two_orbitals : World := fresh (toy_molecule [1; 1]%Z 1 1 2) toy_part (toy_grid 2).

(** Two electrons of each spin declared, one orbital returned. *)
Definition h2_one_orbital : World := fresh (toy_molecule [1; 1]%Z 2 2 1) toy_part (toy_grid 2).

(** Two electrons of each spin declared, two orbitals returned. *)
Definition he2 : World := fresh (toy_molecule [2; 2]%Z 2 2 2) toy_part (toy_grid 2).

(** Water, as in the tests of the module: oxygen and two hydrogens, five
    electrons of each spin. *)
Definition water : World := fresh (toy_molecule [8; 1; 1]%Z 5 5 5) toy_part (toy_grid 3).

(** The occupations the tests record for water in its three atomic
    fragments (APOST-3D values, four decimals). *)
Definition occupation_o : list float64 :=
  Eval vm_compute in map (fun n => f64_quot n 10000) [9950; 8933; 7876; 5591; 5384]%Z.
Definition occupation_h : list float64 :=
  Eval vm_compute in map (fun n => f64_quot n 10000) [1860; 219; 135; 0; 0]%Z.

(** A decomposition that answers with the recorded occupations. *)
Definition svd_water (arr : ndarray3) : result (list (list float64)) :=
  Ok [occupation_o; occupation_h; occupation_h].

(** A bare proton: one atom and no electron of either spin. *)
Definition proton : World := fresh (toy_molecule [1]%Z 0 0 0) toy_part (toy_grid 1).

(** A partitioning whose condensation returns no scalar at all. *)
Definition empty_part : DensPart :=
  {| condense_to_fragments := fun _ _ _ => [] |}.

(** Dihydrogen with that partitioning. *)
Definition h2_empty_part : World := fresh (toy_molecule [1; 1]%Z 1 1 1) empty_part (toy_grid 2).

(** A one-dimensional array with the items [l]. *)
Definition vector (l : list float64) : numpy.ndarray :=
  {| numpy.shape := [length l];
     numpy.item := fun j => match j with [i] => nth i l f64_zero | _ => f64_zero end |}.

(** A Hessian on two grid points: the item at position k of point i is
    10 i + k. *)
Definition hessian_2 : numpy.ndarray :=
  {| numpy.shape := [2; 6];
     numpy.item := fun j =>
       match j with
       | [i; k] => f64_of_Z (Z.of_nat (10 * i + k))
       | _ => f64_zero
       end |}.

(** A cube of [n] points. *)
Definition toy_cube (n : nat) : nci.CubeGen :=
  {| nci.points := {| shape := (n, 3); item := fun _ _ => f64_zero |} |}.

(** An object of [NCI] on two grid points, built without a Hessian. *)
Definition toy_nci : nci.NCI :=
  {| nci._signed_density := None;
     nci._eigvalues := None;
     nci._density := vector [one; half];
     nci._rdgrad := vector [half; half];
     nci._cube := toy_cube 2 |}.

(** A (2, 3) array of zeros, the gradient on two grid points. *)
Definition gradient_2 : numpy.ndarray := numpy.zeros [2; 3].

End Examples.
(** * Properties *)

(** ** Running computations *)

Lemma bind_Ok {A B : Type} (m : M A) (f : A -> M B) (w w' : World) (a : A) :
  m w = (Ok a, w') -> (m ≫= f) w = f a w'.
Proof. intros H. unfold mbind, M_bind. by rewrite H. Qed.

Lemma bind_Raise {A B : Type} (m : M A) (f : A -> M B) (w w' : World) (e : exn) :
  m w = (Raise e, w') -> (m ≫= f) w = (Raise e, w').
Proof. intros H. unfold mbind, M_bind. by rewrite H. Qed.

Lemma run_eta {A : Type} (rw : result A * World) (a : A) :
  fst rw = Ok a -> rw = (Ok a, snd rw).
Proof. destruct rw as [r w]. simpl. by intros ->. Qed.


Lemma foldM_app {A B : Type} (f : B -> A -> M B) (b : B) (l1 l2 : list A) (w : World) :
  foldM f b (l1 ++ l2) w = (b' ← foldM f b l1; foldM f b' l2) w.
Proof.
  revert b w. induction l1 as [|a l1 IH]; intros b w; simpl.
  - reflexivity.
  - unfold mbind, M_bind. destruct (f b a w) as [[b'|e] w']; [apply IH | reflexivity].
Qed.

(** A loop whose body succeeds and keeps an invariant indexed by the
    items already visited succeeds and establishes the invariant for the
    whole list. *)
Lemma foldM_invariant {A B : Type} (f : B -> A -> M B) (I : list A -> B -> World -> Prop)
    (l : list A) (b : B) (w : World) :
  I [] b w ->
  (forall pre a post b w, l = pre ++ a :: post -> I pre b w ->
     exists b' w', f b a w = (Ok b', w') /\ I (pre ++ [a]) b' w') ->
  exists b' w', foldM f b l w = (Ok b', w') /\ I l b' w'.
Proof.
  intros H0 Hstep.
  assert (G : forall post pre b w, l = pre ++ post -> I pre b w ->
            exists b' w', foldM f b post w = (Ok b', w') /\ I l b' w').
  { induction post as [|a post IH]; intros pre b0 w0 El Hpre.
    - rewrite app_nil_r in El. subst pre. by exists b0, w0.
    - destruct (Hstep pre a post b0 w0 El Hpre) as (b1 & w1 & E1 & H1).
      destruct (IH (pre ++ [a]) b1 w1) as (b2 & w2 & E2 & H2).
      + by rewrite <- app_assoc.
      + done.
      + exists b2, w2. split; [|done]. simpl. by rewrite (bind_Ok _ _ _ _ _ E1). }
  by apply (G l []).
Qed.

(** ** Arrays *)

Lemma getitem3_zeros (f n m x i j : nat) :
  getitem3 (zeros f n m) x i j =
  if decide (x < f /\ i < n /\ j < m) then Some f64_zero else None.
Proof.
  unfold getitem3, zeros.
  destruct (decide (x < f)) as [Hx|Hx].
  - rewrite (lookup_replicate_2 _ _ _ Hx). simpl.
    destruct (decide (i < n)) as [Hi|Hi].
    + rewrite (lookup_replicate_2 _ _ _ Hi). simpl.
      destruct (decide (j < m)) as [Hj|Hj].
      * rewrite (lookup_replicate_2 _ _ _ Hj). by rewrite decide_True.
      * rewrite decide_False by lia. apply lookup_replicate_None. lia.
    + rewrite decide_False by lia.
      assert (E : replicate n (replicate m f64_zero) !! i = None)
        by (apply lookup_replicate_None; lia).
      by rewrite E.
  - rewrite decide_False by lia.
    assert (E : replicate f (replicate n (replicate m f64_zero)) !! x = None)
      by (apply lookup_replicate_None; lia).
    by rewrite E.
Qed.

Lemma getitem3_setitem3_eq (arr : ndarray3) (x i j : nat) (v : float64) :
  is_Some (getitem3 arr x i j) -> getitem3 (setitem3 arr x i j v) x i j = Some v.
Proof.
  unfold getitem3, setitem3. intros [u Hu].
  rewrite list_lookup_alter_eq.
  destruct (arr !! x) as [m|]; [simpl in * | done].
  rewrite list_lookup_alter_eq.
  destruct (m !! i) as [row|]; [simpl in * | done].
  apply list_lookup_insert_eq. by eapply lookup_lt_Some.
Qed.

Lemma getitem3_setitem3_ne (arr : ndarray3) (x i j x' i' j' : nat) (v : float64) :
  (x, i, j) <> (x', i', j') ->
  getitem3 (setitem3 arr x i j v) x' i' j' = getitem3 arr x' i' j'.
Proof.
  unfold getitem3, setitem3. intros Hne.
  destruct (decide (x = x')) as [->|Hx]; [|by rewrite list_lookup_alter_ne].
  rewrite list_lookup_alter_eq.
  destruct (arr !! x') as [m|]; [simpl | done].
  destruct (decide (i = i')) as [->|Hi]; [|by rewrite list_lookup_alter_ne].
  rewrite list_lookup_alter_eq.
  destruct (m !! i') as [row|]; [simpl | done].
  apply list_lookup_insert_ne. congruence.
Qed.

Lemma getitem3_setitem3_is_Some (arr : ndarray3) (x i j x' i' j' : nat) (v : float64) :
  is_Some (getitem3 (setitem3 arr x i j v) x' i' j') <-> is_Some (getitem3 arr x' i' j').
Proof.
  destruct (decide ((x, i, j) = (x', i', j'))) as [E|Hne].
  - inversion E; subst. split; intros H.
    + unfold getitem3, setitem3 in *. rewrite list_lookup_alter_eq in H.
      destruct (arr !! x') as [m|]; [simpl in * | by destruct H].
      rewrite list_lookup_alter_eq in H.
      destruct (m !! i') as [row|]; [simpl in * | by destruct H].
      apply lookup_lt_is_Some. apply lookup_lt_is_Some in H.
      by rewrite length_insert in H.
    + rewrite getitem3_setitem3_eq; [by eexists | done].
  - by rewrite getitem3_setitem3_ne.
Qed.

(** ** Orbital pairs *)

Lemma elem_of_combinations (n i j : nat) :
  (i, j) ∈ combinations_with_replacement_2 n <-> i <= j /\ j < n.
Proof.
  unfold combinations_with_replacement_2.
  rewrite list_elem_of_In, in_flat_map. split.
  - intros (k & Hk & Hin). apply in_map_iff in Hin as (j' & E & Hj').
    inversion E; subst. apply in_seq in Hk. apply in_seq in Hj'. lia.
  - intros [Hij Hj]. exists i. split; [apply in_seq; lia |].
    apply in_map_iff. exists j. split; [done | apply in_seq; lia].
Qed.

Lemma combinations_from (t m k : nat) :
  t = k + m ->
  let l := flat_map (fun i => map (fun j => (i, j)) (seq i (t - i))) (seq k m) in
  NoDup l /\ 2 * length l = m * (m + 1) /\ (forall i j, (i, j) ∈ l -> k <= i).
Proof.
  revert k. induction m as [|m IH]; intros k Ht; simpl.
  - repeat split; [constructor | intros i j H; inversion H].
  - destruct (IH (S k) ltac:(lia)) as (Hnd & Hlen & Hge).
    split; [|split].
    + apply NoDup_app. split; [|split; [|done]].
      * apply NoDup_fmap_2; [intros ?? E; by inversion E | apply NoDup_seq].
      * intros [i j] Hin Hin'. apply list_elem_of_fmap in Hin as (j' & E & _).
        inversion E; subst. apply Hge in Hin'. lia.
    + rewrite length_app, length_map, length_seq.
      replace (t - k) with (S m) by lia. lia.
    + intros i j Hin. apply elem_of_app in Hin as [Hin|Hin].
      * apply list_elem_of_fmap in Hin as (j' & E & _). inversion E; lia.
      * apply Hge in Hin. lia.
Qed.

Lemma NoDup_combinations (n : nat) : NoDup (combinations_with_replacement_2 n).
Proof. apply (combinations_from n n 0). lia. Qed.

Lemma length_combinations (n : nat) :
  length (combinations_with_replacement_2 n) = n * (n + 1) / 2.
Proof.
  destruct (combinations_from n n 0 ltac:(lia)) as (_ & H & _).
  unfold combinations_with_replacement_2.
  apply Nat.div_unique_exact; lia.
Qed.

(** ** The condensation loop *)

(** The inner loop writes [qij[x]] at [(i, j)] and [(j, i)] of every
    matrix and touches nothing else. *)
Lemma write_pairs_run (qij : list float64) (i j : nat) (arr : ndarray3) (w : World) (f : nat) :
  f <= length qij ->
  (forall x, x < f -> is_Some (getitem3 arr x i j) /\ is_Some (getitem3 arr x j i)) ->
  exists arr',
    foldM (write_pair qij i j) arr (seq 0 f) w = (Ok arr', w) /\
    forall x' i' j',
      getitem3 arr' x' i' j' =
      if decide (x' < f /\ ((i', j') = (i, j) \/ (i', j') = (j, i)))
      then qij !! x' else getitem3 arr x' i' j'.
Proof.
  induction f as [|f IH]; intros Hlen Hin.
  - exists arr. split; [done|]. intros x' i' j'. rewrite decide_False; [done | lia].
  - destruct IH as (arr1 & Hrun & Hget); [lia | intros x Hx; apply Hin; lia |].
    destruct (lookup_lt_is_Some_2 qij f ltac:(lia)) as [q Hq].
    exists (setitem3 (setitem3 arr1 f i j q) f j i q). split.
    + rewrite seq_S, foldM_app. rewrite (bind_Ok _ _ _ _ _ Hrun). simpl.
      unfold write_pair at 1, getitem. rewrite Hq. reflexivity.
    + intros x' i' j'.
      assert (Hij : is_Some (getitem3 arr1 f i j)).
      { rewrite Hget, decide_False by lia. apply Hin. lia. }
      assert (Hji : is_Some (getitem3 arr1 f j i)).
      { rewrite Hget, decide_False by lia. apply Hin. lia. }
      destruct (decide ((f, j, i) = (x', i', j'))) as [E|N1].
      { inversion E; subst. rewrite getitem3_setitem3_eq.
        - rewrite decide_True; [done | split; [lia | by right]].
        - by apply getitem3_setitem3_is_Some. }
      rewrite getitem3_setitem3_ne by done.
      destruct (decide ((f, i, j) = (x', i', j'))) as [E|N2].
      { inversion E; subst. rewrite getitem3_setitem3_eq by done.
        rewrite decide_True; [done | split; [lia | by left]]. }
      rewrite getitem3_setitem3_ne by done. rewrite Hget.
      destruct (decide (x' < f /\ ((i', j') = (i, j) \/ (i', j') = (j, i)))) as [[H1 H2]|H].
      * rewrite decide_True; [done | split; [lia | done]].
      * rewrite decide_False; [done|]. intros [H1 H2]. apply H. split; [|done].
        destruct (decide (x' = f)) as [->|]; [|lia].
        destruct H2 as [H2|H2]; inversion H2; subst; congruence.
Qed.

(** The loop over a list of orbital pairs [i <= j], when the provider
    supplies the orbitals and the condensation returns a scalar for every
    fragment: one call per pair, in the order of the pairs, and a stack
    whose entries [(i, j)] and [(j, i)] of matrix [x] hold the scalar
    condensed for the visited pair [{i, j}]. *)
Lemma overlap_pairs_run (orbitals : ndarray2) (frags : list fragment) (n : nat)
    (l : list (nat * nat)) (w : World) :
  (forall a b, (a, b) ∈ l -> a <= b /\ b < n /\ b < fst (shape orbitals)) ->
  (forall fld, length frags <= length (condense_to_fragments (part (self w)) fld frags 2%Z)) ->
  exists arr w',
    foldM (overlap_step orbitals frags) (zeros (length frags) n n) l w = (Ok arr, w') /\
    self w' = self w /\ stdout w' = stdout w /\
    calls w' = calls w ++ map (overlap_call orbitals frags) l /\
    forall x i j,
      getitem3 arr x i j =
      if decide (x < length frags /\ i < n /\ j < n)
      then Some (if decide ((i `min` j, i `max` j) ∈ l)
                 then condensed (part (self w)) orbitals frags (i `min` j) (i `max` j) x
                 else f64_zero)
      else None.
Proof.
  intros Hl Hcond.
  set (I := fun (pre : list (nat * nat)) (arr : ndarray3) (w' : World) =>
    self w' = self w /\ stdout w' = stdout w /\
    calls w' = calls w ++ map (overlap_call orbitals frags) pre /\
    forall x i j,
      getitem3 arr x i j =
      if decide (x < length frags /\ i < n /\ j < n)
      then Some (if decide ((i `min` j, i `max` j) ∈ pre)
                 then condensed (part (self w)) orbitals frags (i `min` j) (i `max` j) x
                 else f64_zero)
      else None).
  apply (foldM_invariant (overlap_step orbitals frags) I l (zeros (length frags) n n) w).
  - repeat split; [by rewrite app_nil_r|].
    intros x i j. rewrite getitem3_zeros. case_decide; [|done].
    rewrite decide_False; [done | apply not_elem_of_nil].
  - intros pre [a b] post b0 w0 El (Hs & Ho & Hc & Hget).
    assert (Hab : a <= b /\ b < n /\ b < fst (shape orbitals)).
    { apply Hl. rewrite El. apply elem_of_app. right. apply list_elem_of_here. }
    unfold overlap_step, getrow.
    rewrite !(proj2 (Nat.ltb_lt _ _)) by lia.
    set (qij := condense_to_fragments (part (self w0))
                  (field_mul (row orbitals a) (row orbitals b)) frags 2%Z).
    set (w1 := {| self := self w0;
                  calls := calls w0 ++ [overlap_call orbitals frags (a, b)];
                  stdout := stdout w0 |}).
    destruct (write_pairs_run qij a b b0 w1 (length frags)) as (arr' & Hrun & Hget').
    + unfold qij. rewrite Hs. apply Hcond.
    + intros x Hx. split; (rewrite Hget, decide_True by lia; by eexists).
    + exists arr', w1. split.
      * unfold mbind at 1 2, M_bind, mret, M_ret. simpl.
        unfold mbind at 1, M_bind, call_condense. exact Hrun.
      * repeat split; [done | done | |].
        { simpl. rewrite Hc, map_app, <- app_assoc. done. }
        intros x i j. rewrite Hget', Hget.
        destruct (decide (x < length frags /\ i < n /\ j < n)) as [(Hx & Hi & Hj)|Hout].
        -- destruct (decide (x < length frags /\ ((i, j) = (a, b) \/ (i, j) = (b, a))))
             as [[_ E]|Hne].
           ++ assert (Em : i `min` j = a /\ i `max` j = b).
              { destruct E as [E|E]; inversion E; subst; lia. }
              destruct Em as [-> ->].
              rewrite decide_True by (apply elem_of_app; right; apply list_elem_of_here).
              unfold condensed. rewrite <- Hs. fold qij.
              destruct (lookup_lt_is_Some_2 qij x) as [q Hq];
                [specialize (Hcond (field_mul (row orbitals a) (row orbitals b)));
                 unfold qij; rewrite Hs; lia|].
              by rewrite Hq.
           ++ f_equal. apply decide_ext. rewrite elem_of_app, list_elem_of_singleton.
              split; [tauto|]. intros [H|H]; [done|]. exfalso. apply Hne. split; [done|].
              inversion H as [[E1 E2]].
              destruct (decide (i <= j)); [left | right]; f_equal; lia.
        -- rewrite decide_False; [done|]. intros [Hx [E|E]]; inversion E; subst; lia.
Qed.

(** The whole loop: every unordered pair is visited, so every entry is
    a condensed scalar. *)
Lemma overlap_loop_run (orbitals : ndarray2) (frags : list fragment) (n : nat) (w : World) :
  n <= fst (shape orbitals) ->
  (forall fld, length frags <= length (condense_to_fragments (part (self w)) fld frags 2%Z)) ->
  exists arr w',
    foldM (overlap_step orbitals frags) (zeros (length frags) n n)
          (combinations_with_replacement_2 n) w = (Ok arr, w') /\
    self w' = self w /\ stdout w' = stdout w /\
    calls w' = calls w ++ map (overlap_call orbitals frags) (combinations_with_replacement_2 n) /\
    forall x i j,
      getitem3 arr x i j =
      if decide (x < length frags /\ i < n /\ j < n)
      then Some (condensed (part (self w)) orbitals frags (i `min` j) (i `max` j) x)
      else None.
Proof.
  intros Horb Hcond.
  destruct (overlap_pairs_run orbitals frags n (combinations_with_replacement_2 n) w)
    as (arr & w' & Hrun & Hs & Ho & Hc & Hget); [|done|].
  - intros a b Hab. apply elem_of_combinations in Hab. lia.
  - exists arr, w'. repeat split; [done..|].
    intros x i j. rewrite Hget. case_decide as Hin; [|done].
    rewrite decide_True; [done|]. apply elem_of_combinations. lia.
Qed.

(** ** [compute_fragment_overlap] *)

Lemma declared_count_Some (mol : Molecule) (spin : string) (n : nat) :
  declared_count mol spin = Some n ->
  (spin = "a"%string /\ n = fst (nelectrons mol)) \/
  (spin = "b"%string /\ n = snd (nelectrons mol)).
Proof.
  unfold declared_count. intros H.
  destruct (String.eqb_spec spin "a") as [->|_]; [left; split; congruence|].
  destruct (String.eqb_spec spin "b") as [->|_]; [right; split; congruence|].
  discriminate.
Qed.

Lemma declared_count_None (mol : Molecule) (spin : string) :
  declared_count mol spin = None <-> spin <> "a"%string /\ spin <> "b"%string.
Proof.
  unfold declared_count.
  destruct (String.eqb_spec spin "a") as [->|Ha]; [split; [discriminate | intros []; done]|].
  destruct (String.eqb_spec spin "b") as [->|Hb]; [split; [discriminate | intros []; done]|].
  done.
Qed.

(** For an accepted spin tag the method stores the partition and runs the
    loop over the orbital pairs. *)
Lemma compute_fragment_overlap_accepted (w : World) (fragments : option (list fragment))
    (spin : option string) (n : nat) :
  declared_count (molecule (self w)) (spin_arg spin) = Some n ->
  let frags := partition_used (molecule (self w)) fragments in
  compute_fragment_overlap fragments spin w =
  foldM (overlap_step (orbitals_of (self w) (spin_arg spin)) frags) (zeros (length frags) n n)
        (combinations_with_replacement_2 n) (update_frags (Some frags) w).
Proof.
  intros Hn frags. unfold compute_fragment_overlap.
  unfold mbind at 1, M_bind, get_self.
  assert (E : (if String.eqb (spin_arg spin) "a"
               then mret (fst (nelectrons (molecule (self w))))
               else if String.eqb (spin_arg spin) "b"
               then mret (snd (nelectrons (molecule (self w))))
               else raise (NotImplementedError "Not clear what to do here!")) = (mret n : M nat)).
  { destruct (declared_count_Some _ _ _ Hn) as [[-> ->]|[-> ->]]; reflexivity. }
  rewrite E. unfold mbind at 1, M_bind, mret at 1, M_ret.
  unfold frags, partition_used. destruct fragments as [fs|]; reflexivity.
Qed.

(** For any other tag it raises at once and leaves the world as it was. *)
Lemma compute_fragment_overlap_rejected (w : World) (fragments : option (list fragment))
    (spin : option string) :
  declared_count (molecule (self w)) (spin_arg spin) = None ->
  compute_fragment_overlap fragments spin w =
  (Raise (NotImplementedError "Not clear what to do here!"), w).
Proof.
  intros H. apply declared_count_None in H as [Ha Hb].
  unfold compute_fragment_overlap.
  apply String.eqb_neq in Ha, Hb.
  unfold mbind at 1, M_bind, get_self. rewrite Ha, Hb. reflexivity.
Qed.

(** C4. For an accepted spin tag whose orbital provider returns the N
    declared occupied orbitals, and a condensation operator that returns
    one scalar per fragment, [compute_fragment_overlap] returns normally;
    the calls it makes to the condensation operator are, in order, one
    per pair of [combinations_with_replacement(range(N), 2)], that is one
    per unordered pair i <= j < N without repetition, N(N+1)/2 in all,
    each on the product of the two orbitals, with the partition in use
    and with weight power 2; entries (i,j) and (j,i) of every fragment's
    matrix hold the scalar returned for that fragment, and the returned
    stack is symmetric. *)
Theorem compute_fragment_overlap_pairs_symmetric
    (w : World) (fragments : option (list fragment)) (spin : string) (N : nat) :
  let frags := partition_used (molecule (self w)) fragments in
  let orbitals := orbitals_of (self w) spin in
  let pairs := combinations_with_replacement_2 N in
  declared_count (molecule (self w)) spin = Some N ->
  fst (shape orbitals) = N ->
  (forall fld, length (condense_to_fragments (part (self w)) fld frags 2%Z) = length frags) ->
  exists arr w',
    compute_fragment_overlap fragments (Some spin) w = (Ok arr, w') /\
    calls w' = calls w ++ map (overlap_call orbitals frags) pairs /\
    NoDup pairs /\
    (forall i j, (i, j) ∈ pairs <-> i <= j /\ j < N) /\
    length pairs = N * (N + 1) / 2 /\
    Forall (fun c => call_w_power c = 2%Z) (map (overlap_call orbitals frags) pairs) /\
    (forall x i j, x < length frags -> i <= j -> j < N ->
       getitem3 arr x i j = Some (condensed (part (self w)) orbitals frags i j x) /\
       getitem3 arr x j i = Some (condensed (part (self w)) orbitals frags i j x)) /\
    symmetric3 arr.
Proof.
  intros frags orbitals pairs Hn Horb Hcond.
  rewrite (compute_fragment_overlap_accepted w fragments (Some spin) N Hn).
  change (spin_arg (Some spin)) with spin.
  fold frags. fold orbitals.
  destruct (overlap_loop_run orbitals frags N (update_frags (Some frags) w))
    as (arr & w' & Hrun & _ & _ & Hc & Hget).
  - lia.
  - intros fld. simpl. rewrite Hcond. done.
  - exists arr, w'. split; [done|]. split; [done|].
    split; [apply NoDup_combinations|]. split; [apply elem_of_combinations|].
    split; [apply length_combinations|]. split; [|split].
    + apply Forall_forall. intros c Hc'. apply list_elem_of_fmap in Hc' as (ij & -> & _). done.
    + intros x i j Hx Hij Hj. rewrite !Hget, !decide_True by lia. simpl.
      rewrite (Nat.min_l i j), (Nat.max_r i j), (Nat.min_r j i), (Nat.max_l j i) by lia.
      done.
    + intros x i j. rewrite !Hget, (Nat.min_comm j i), (Nat.max_comm j i).
      destruct (decide (x < length frags /\ i < N /\ j < N)) as [H|H].
      * rewrite decide_True by lia. done.
      * rewrite decide_False by lia. done.
Qed.

(** C6. A spin argument outside the accepted tags ['a'] and ['b'] makes
    [compute_fragment_overlap] raise (the error of the [else] branch)
    before anything is computed: no partition is stored, the condensation
    operator is not called and nothing is printed; no spin is
    substituted. *)
Theorem compute_fragment_overlap_invalid_spin
    (w : World) (fragments : option (list fragment)) (spin : option string) :
  spin_arg spin <> "a"%string -> spin_arg spin <> "b"%string ->
  compute_fragment_overlap fragments spin w =
  (Raise (NotImplementedError "Not clear what to do here!"), w).
Proof.
  intros Ha Hb. apply compute_fragment_overlap_rejected.
  by apply declared_count_None.
Qed.

Lemma compute_fragment_occupation_bind
    (svd : ndarray3 -> result (list (list float64)))
    (fragments : option (list fragment)) (spin : option string) (w : World) :
  compute_fragment_occupation svd fragments spin w =
  match compute_fragment_overlap fragments spin w with
  | (Ok arr, w') =>
      match svd arr with
      | Ok s => (Ok s, {| self := self w'; calls := calls w';
                          stdout := stdout w' ++ [("alpha occupations"%string, s)] |})
      | Raise e => (Raise e, w')
      end
  | (Raise e, w') => (Raise e, w')
  end.
Proof.
  unfold compute_fragment_occupation, mbind at 1, M_bind.
  destruct (compute_fragment_overlap fragments spin w) as [[arr|e] w']; [|done].
  unfold mbind, M_bind, call_svd. destruct (svd arr); reflexivity.
Qed.

(** C10. A call of [compute_fragment_overlap] or of
    [compute_fragment_occupation] that omits the spin argument takes the
    default ['ab'], which is not an accepted tag, and raises; nothing is
    computed for the combined spin. *)
Theorem omitted_spin_raises
    (svd : ndarray3 -> result (list (list float64)))
    (w : World) (fragments : option (list fragment)) :
  spin_arg None = "ab"%string /\
  compute_fragment_overlap fragments None w =
    (Raise (NotImplementedError "Not clear what to do here!"), w) /\
  compute_fragment_occupation svd fragments None w =
    (Raise (NotImplementedError "Not clear what to do here!"), w).
Proof.
  assert (H : compute_fragment_overlap fragments None w =
              (Raise (NotImplementedError "Not clear what to do here!"), w)).
  { apply compute_fragment_overlap_rejected. reflexivity. }
  split; [reflexivity|]. split; [exact H|].
  rewrite compute_fragment_occupation_bind, H. reflexivity.
Qed.

(** ** What the methods leave unchanged *)

Lemma foldM_preserves {A B : Type} (P : World -> Prop) (f : B -> A -> M B) (l : list A) :
  (forall b a w r w', f b a w = (r, w') -> P w -> P w') ->
  forall b w r w', foldM f b l w = (r, w') -> P w -> P w'.
Proof.
  intros Hf. induction l as [|a l IH]; intros b w r w' Hrun Hw; simpl in Hrun.
  - inversion Hrun; by subst.
  - unfold mbind, M_bind in Hrun.
    destruct (f b a w) as [[b1|e] w1] eqn:E.
    + eapply IH; [exact Hrun|]. eapply Hf; eauto.
    + inversion Hrun; subst. eapply Hf; eauto.
Qed.

Lemma write_pairs_world (qij : list float64) (i j : nat) (l : list nat)
    (arr : ndarray3) (w : World) (r : result ndarray3) (w' : World) :
  foldM (write_pair qij i j) arr l w = (r, w') -> w' = w.
Proof.
  intros H. apply (foldM_preserves (fun w' => w' = w) _ _) in H; [done| |done].
  intros b a w0 r0 w0' E ->. unfold write_pair, getitem in E.
  destruct (qij !! a); inversion E; done.
Qed.

(** The loop changes neither the object nor the standard output. *)
Lemma overlap_step_preserves (orbitals : ndarray2) (frags : list fragment)
    (arr : ndarray3) (ij : nat * nat) (w : World) (r : result ndarray3) (w' : World) :
  overlap_step orbitals frags arr ij w = (r, w') ->
  self w' = self w /\ stdout w' = stdout w.
Proof.
  destruct ij as [i j]. unfold overlap_step, getrow. intros H.
  destruct (i <? fst (shape orbitals)); [|by inversion H].
  destruct (j <? fst (shape orbitals)); [|by inversion H].
  unfold mbind at 1 2, M_bind, mret, M_ret in H. simpl in H.
  unfold mbind at 1, M_bind, call_condense in H.
  apply write_pairs_world in H. subst w'. done.
Qed.

Lemma compute_fragment_overlap_preserves (fragments : option (list fragment))
    (spin : option string) (w : World) (r : result ndarray3) (w' : World) :
  compute_fragment_overlap fragments spin w = (r, w') ->
  molecule (self w') = molecule (self w) /\ part (self w') = part (self w) /\
  grid (self w') = grid (self w) /\ stdout w' = stdout w.
Proof.
  destruct (declared_count (molecule (self w)) (spin_arg spin)) as [n|] eqn:E.
  - rewrite (compute_fragment_overlap_accepted _ _ _ _ E). intros H.
    set (w1 := update_frags _ w) in H.
    apply (foldM_preserves (fun w' => self w' = self w1 /\ stdout w' = stdout w1) _ _) in H.
    + destruct H as [-> ->]. done.
    + intros b a w0 r0 w0' E0 [<- <-]. by eapply overlap_step_preserves.
    + done.
  - rewrite (compute_fragment_overlap_rejected _ _ _ E). intros H. inversion H; by subst.
Qed.

Lemma compute_fragment_occupation_preserves
    (svd : ndarray3 -> result (list (list float64)))
    (fragments : option (list fragment)) (spin : option string)
    (w : World) (r : result (list (list float64))) (w' : World) :
  compute_fragment_occupation svd fragments spin w = (r, w') ->
  molecule (self w') = molecule (self w) /\ part (self w') = part (self w) /\
  grid (self w') = grid (self w).
Proof.
  rewrite compute_fragment_occupation_bind.
  destruct (compute_fragment_overlap fragments spin w) as [[arr|e] w1] eqn:E;
    apply compute_fragment_overlap_preserves in E as (Hm & Hp & Hg & _).
  - destruct (svd arr); intros H; inversion H; subst; done.
  - intros H; inversion H; subst; done.
Qed.

(** ** The default partition *)




Lemma compute_oxidation_state_bind
    (svd : ndarray3 -> result (list (list float64)))
    (fragments : option (list fragment)) (w : World) :
  compute_oxidation_state svd fragments w =
  (s_a ← compute_fragment_occupation svd fragments (Some "a"%string);
   s_b ← compute_fragment_occupation svd fragments (Some "b"%string);
   oxidation_of (molecule (self w)) s_a s_b) w.
Proof. reflexivity. Qed.


(** ** Orbital count against electron count *)

Lemma combinations_split (n c : nat) :
  c < n ->
  exists rest,
    combinations_with_replacement_2 n =
    map (fun j => (0, j)) (seq 0 c) ++ (0, c) :: rest.
Proof.
  intros Hc. destruct n as [|m]; [lia|].
  exists (map (fun j => (0, j)) (seq (S c) (m - c)) ++
          flat_map (fun i => map (fun j => (i, j)) (seq i (S m - i))) (seq 1 m)).
  change (combinations_with_replacement_2 (S m))
    with (map (fun j => (0, j)) (seq 0 (S m)) ++
          flat_map (fun i => map (fun j => (i, j)) (seq i (S m - i))) (seq 1 m)).
  replace (seq 0 (S m)) with (seq 0 c ++ c :: seq (S c) (m - c)).
  - rewrite map_app. simpl. by rewrite <- app_assoc.
  - rewrite cons_seq. change c with (0 + c) at 2. rewrite <- seq_app. f_equal. lia.
Qed.

(** C7 (as the code has it). The method does not compare the number of
    orbitals the provider returns with the declared electron count N.
    When fewer than N are returned it raises an index error from inside
    the loop, at the first pair that needs a missing orbital, after the
    condensation calls for the pairs (0,0), ..., (0,count-1); when more
    than N are returned it raises nothing, and the calls it makes and the
    entries of the stack it returns are those of the provider's first N
    orbitals. *)
Theorem orbital_count_mismatch
    (w : World) (fragments : option (list fragment)) (spin : string) (N : nat) :
  let frags := partition_used (molecule (self w)) fragments in
  let orbitals := orbitals_of (self w) spin in
  let count := fst (shape orbitals) in
  declared_count (molecule (self w)) spin = Some N ->
  (forall fld, length frags <= length (condense_to_fragments (part (self w)) fld frags 2%Z)) ->
  (count < N ->
   exists w',
     compute_fragment_overlap fragments (Some spin) w = (Raise IndexError, w') /\
     calls w' = calls w ++ map (overlap_call orbitals frags) (map (fun j => (0, j)) (seq 0 count))) /\
  (N < count ->
   exists arr w' arr1 w1,
     compute_fragment_overlap fragments (Some spin) w = (Ok arr, w') /\
     compute_fragment_overlap fragments (Some spin) (with_first_orbitals N w) = (Ok arr1, w1) /\
     calls w' = calls w ++ map (overlap_call orbitals frags) (combinations_with_replacement_2 N) /\
     calls w1 = calls w' /\
     forall x i j, getitem3 arr x i j = getitem3 arr1 x i j).
Proof.
  intros frags orbitals count Hn Hcond. split.
  - intros Hlt.
    rewrite (compute_fragment_overlap_accepted w fragments (Some spin) N Hn).
    change (spin_arg (Some spin)) with spin. fold frags. fold orbitals.
    destruct (combinations_split N count Hlt) as [rest ->].
    rewrite foldM_app.
    destruct (overlap_pairs_run orbitals frags N (map (fun j => (0, j)) (seq 0 count))
                (update_frags (Some frags) w)) as (arr & w' & Hrun & _ & _ & Hc & _).
    + intros a b Hab. apply list_elem_of_fmap in Hab as (j & E & Hj).
      inversion E; subst. apply elem_of_seq in Hj. fold count. lia.
    + intros fld. apply Hcond.
    + exists w'. split; [|exact Hc].
      rewrite (bind_Ok _ _ _ _ _ Hrun). simpl.
      unfold mbind at 1, M_bind. unfold overlap_step, getrow. fold count.
      destruct (decide (count = 0)) as [E0|E0].
      * rewrite E0. reflexivity.
      * rewrite (proj2 (Nat.ltb_lt 0 count)) by lia.
        rewrite (proj2 (Nat.ltb_ge count count)) by lia. reflexivity.
  - intros Hgt.
    destruct (overlap_loop_run orbitals frags N (update_frags (Some frags) w))
      as (arr & w' & Hrun & _ & _ & Hc & Hget); [fold count; lia | apply Hcond |].
    destruct (overlap_loop_run (orbitals_of (self (with_first_orbitals N w)) spin) frags N
                (update_frags (Some frags) (with_first_orbitals N w)))
      as (arr1 & w1 & Hrun1 & _ & _ & Hc1 & Hget1); [simpl; lia | apply Hcond |].
    exists arr, w', arr1, w1.
    rewrite (compute_fragment_overlap_accepted w fragments (Some spin) N Hn).
    rewrite (compute_fragment_overlap_accepted (with_first_orbitals N w) fragments (Some spin) N Hn).
    split; [exact Hrun|]. split; [exact Hrun1|]. split; [exact Hc|].
    split; [rewrite Hc1, Hc; reflexivity|].
    intros x i j. rewrite Hget, Hget1. reflexivity.
Qed.

(** C7, witness. *)
Lemma orbital_count_mismatch_witness :
  (exists w',
     compute_fragment_overlap None (Some "a"%string) Examples.h2_one_orbital
       = (Raise IndexError, w') /\
     length (calls w') = 1) /\
  (exists arr w',
     compute_fragment_overlap None (Some "a"%string) Examples.h2_two_orbitals = (Ok arr, w') /\
     length (calls w') = 1).
Proof.
  split.
  - destruct (orbital_count_mismatch Examples.h2_one_orbital None "a" 2) as [H _].
    + reflexivity.
    + intros fld. cbn. lia.
    + destruct H as (w' & Hrun & Hc); [simpl; apply Nat.lt_succ_diag_r|].
      exists w'. split; [exact Hrun|]. rewrite Hc. reflexivity.
  - destruct (orbital_count_mismatch Examples.h2_two_orbitals None "a" 1) as [_ H].
    + reflexivity.
    + intros fld. cbn. lia.
    + destruct H as (arr & w' & arr1 & w1 & Hrun & _ & Hc & _); [simpl; apply Nat.lt_succ_diag_r|].
      exists arr, w'. split; [exact Hrun|]. rewrite Hc. reflexivity.
Defined.

(** C7, counterexample. One alpha electron is declared and the provider
    returns two orbitals: no error is raised, and the stack is built from
    the first orbital. Two are declared and one is returned: the index
    error comes after a condensation call has been made. *)
Lemma orbital_count_not_checked :
  declared_count (molecule (self Examples.h2_two_orbitals)) "a" = Some 1 /\
  fst (shape (orbitals_of (self Examples.h2_two_orbitals) "a")) = 2 /\
  fst (compute_fragment_overlap None (Some "a"%string) Examples.h2_two_orbitals) =
    Ok [[[Examples.half]]; [[Examples.half]]] /\
  declared_count (molecule (self Examples.h2_one_orbital)) "a" = Some 2 /\
  fst (shape (orbitals_of (self Examples.h2_one_orbital) "a")) = 1 /\
  fst (compute_fragment_overlap None (Some "a"%string) Examples.h2_one_orbital) =
    Raise IndexError /\
  map call_pair (calls (snd (compute_fragment_overlap None (Some "a"%string)
                               Examples.h2_one_orbital))) = [(0, 0)].
Proof. repeat split; vm_compute; reflexivity. Qed.

(** ** Ranking and assignment counts *)

Lemma insert_sorted_Permutation {A : Type} (lt : A -> A -> bool) (x : A) (l : list A) :
  insert_sorted lt x l ≡ₚ x :: l.
Proof.
  induction l as [|y l IH]; simpl; [done|].
  destruct (lt y x); [|done].
  rewrite IH. apply Permutation_swap.
Qed.

Lemma py_sorted_Permutation {A : Type} (lt : A -> A -> bool) (l : list A) :
  py_sorted lt l ≡ₚ l.
Proof.
  unfold py_sorted. induction l as [|x l IH]; simpl; [done|].
  by rewrite insert_sorted_Permutation, IH.
Qed.

Lemma py_sorted_reverse_Permutation {A : Type} (lt : A -> A -> bool) (l : list A) :
  py_sorted_reverse lt l ≡ₚ l.
Proof.
  unfold py_sorted_reverse.
  rewrite <- Permutation_rev, py_sorted_Permutation. symmetry. apply Permutation_rev.
Qed.

Lemma length_flatten_occupations (s : list (list float64)) :
  length (flatten_occupations s) = sum_list (length <$> s).
Proof.
  unfold flatten_occupations. rewrite length_join. f_equal.
  apply list_eq. intros k. rewrite !list_lookup_fmap, list_lookup_imap.
  destruct (s !! k); simpl; [by rewrite length_map | done].
Qed.

Lemma elem_of_flatten_occupations (s : list (list float64)) (p : float64 * nat) :
  p ∈ flatten_occupations s <-> exists row, s !! snd p = Some row /\ fst p ∈ row.
Proof.
  unfold flatten_occupations. rewrite list_elem_of_join. split.
  - intros (l & Hp & Hl). apply elem_of_lookup_imap in Hl as (i & row & -> & Hrow).
    apply list_elem_of_fmap in Hp as (v & -> & Hv). by exists row.
  - intros (row & Hrow & Hv). exists (map (fun v => (v, snd p)) row). split.
    + apply list_elem_of_fmap. exists (fst p). by destruct p.
    + apply elem_of_lookup_imap. by exists (snd p), row.
Qed.

Lemma sum_list_indicator (x a n : nat) :
  sum_list (map (fun i => if Nat.eq_dec x i then 1 else 0) (seq a n)) =
  if decide (a <= x < a + n) then 1 else 0.
Proof.
  revert a. induction n as [|n IH]; intros a; simpl.
  - rewrite decide_False; [done | lia].
  - rewrite IH. destruct (Nat.eq_dec x a); repeat case_decide; lia.
Qed.

(** Counting the occurrences of every index below [f] in a list of
    indices below [f] counts the list. *)
Lemma sum_count_occ (l : list nat) (f : nat) :
  Forall (fun x => x < f) l ->
  sum_list (map (fun i => count_occ Nat.eq_dec l i) (seq 0 f)) = length l.
Proof.
  induction 1 as [|x l Hx Hl IH]; simpl.
  - induction (seq 0 f); simpl; [done | by rewrite IHl].
  - assert (E : sum_list (map (fun i => if Nat.eq_dec x i then 1 else 0) (seq 0 f)) = 1).
    { rewrite sum_list_indicator, decide_True; [done | lia]. }
    change (S (length l)) with (1 + length l). rewrite <- IH, <- E.
    clear. induction (seq 0 f) as [|i L IHL]; simpl; [done|].
    destruct (Nat.eq_dec x i); simpl; lia.
Qed.

Lemma count_occ_snd (l : list (float64 * nat)) (i : nat) :
  count_occ Nat.eq_dec (map snd l) i = length (filter (fun p => snd p = i) l).
Proof.
  induction l as [|[v k] l IH]; [done|].
  rewrite filter_cons. cbn [map snd count_occ].
  destruct (Nat.eq_dec k i) as [E|E].
  - rewrite decide_True by done. simpl. by rewrite IH.
  - by rewrite decide_False.
Qed.

Lemma occs_frag_lookup (s : list (list float64)) (n f i : nat) :
  i < f -> occs_frag s n f !! i = Some (assignment_count s n i).
Proof.
  intros Hi. unfold occs_frag, assignment_count, occs.
  rewrite list_lookup_fmap, lookup_seq_lt by done. simpl. f_equal.
  by rewrite firstn_map, count_occ_snd.
Qed.

(** C1. For a spin channel with declared electron count N, a non-empty
    list of fragments and one NaN-free occupation array of length N per
    fragment, the per-fragment assignment counts that
    [compute_oxidation_state] computes (for each fragment, the number of
    its entries among the first N of the ranked list) sum to N. *)
Theorem assignment_counts_sum (s : list (list float64)) (N : nat) :
  s <> [] ->
  Forall (fun row => length row = N) s ->
  nan_free s ->
  sum_list (occs_frag s N (length s)) = N /\
  sum_list (map (assignment_count s N) (seq 0 (length s))) = N.
Proof.
  intros Hne Hlen _.
  assert (Hperm : sorted_occupations s ≡ₚ flatten_occupations s)
    by apply py_sorted_reverse_Permutation.
  assert (Hsum : sum_list (occs_frag s N (length s)) = N).
  { unfold occs_frag. rewrite sum_count_occ.
    - rewrite length_take_le; [done|]. unfold occs.
      rewrite length_map, Hperm, length_flatten_occupations.
      rewrite (sum_list_fmap_same N) by done.
      destruct s; [done | simpl; lia].
    - apply Forall_take. unfold occs. apply Forall_fmap, Forall_forall.
      intros p Hp. rewrite Hperm in Hp.
      apply elem_of_flatten_occupations in Hp as (row & Hrow & _). simpl.
      by eapply lookup_lt_Some. }
  split; [exact Hsum|].
  rewrite <- Hsum at 2. f_equal. apply list_eq. intros k.
  rewrite list_lookup_fmap.
  destruct (decide (k < length s)) as [Hk|Hk].
  - rewrite lookup_seq_lt, occs_frag_lookup by done. done.
  - rewrite lookup_seq_ge by lia. symmetry. apply lookup_ge_None.
    unfold occs_frag. rewrite length_map, length_seq. lia.
Qed.

(** ** The order of the ranked list *)

Lemma SFcompare_rank (x y : float64) :
  is_nan x = false -> is_nan y = false ->
  exists c, SFcompare x y = Some c /\
    (c = Lt <-> rank_lt (rank x) (rank y)) /\
    (c = Eq <-> rank x = rank y) /\
    (c = Gt <-> rank_lt (rank y) (rank x)).
Proof.
  intros Hx Hy.
  destruct x as [sx|sx| |sx mx ex]; [| |discriminate|];
    (destruct y as [sy|sy| |sy my ey]; [| |discriminate|]);
    try destruct sx; try destruct sy; simpl;
    try (eexists; split; [reflexivity|]; repeat split; (discriminate || lia || congruence)).
  - exists (match (ex ?= ey)%Z with
            | Lt => Gt | Gt => Lt | Eq => CompOpp (Pos.compare_cont Eq mx my) end).
    split; [reflexivity|].
    destruct (Z.compare_spec ex ey) as [->|He|He].
    + change (Pos.compare_cont Eq mx my) with (Pos.compare mx my).
      destruct (Pos.compare_spec mx my) as [->|Hm|Hm]; simpl;
        repeat split; intros; try discriminate; try lia; try congruence;
        match goal with H : (_, _, _) = (_, _, _) |- _ => inversion H; lia end.
    + repeat split; intros; try discriminate; try lia;
        match goal with H : (_, _, _) = (_, _, _) |- _ => inversion H; lia end.
    + repeat split; intros; try discriminate; try lia;
        match goal with H : (_, _, _) = (_, _, _) |- _ => inversion H; lia end.
  - exists (match (ex ?= ey)%Z with
            | Lt => Lt | Gt => Gt | Eq => Pos.compare_cont Eq mx my end).
    split; [reflexivity|].
    destruct (Z.compare_spec ex ey) as [->|He|He].
    + change (Pos.compare_cont Eq mx my) with (Pos.compare mx my).
      destruct (Pos.compare_spec mx my) as [->|Hm|Hm]; simpl;
        repeat split; intros; try discriminate; try lia; try congruence;
        match goal with H : (_, _, _) = (_, _, _) |- _ => inversion H; lia end.
    + repeat split; intros; try discriminate; try lia;
        match goal with H : (_, _, _) = (_, _, _) |- _ => inversion H; lia end.
    + repeat split; intros; try discriminate; try lia;
        match goal with H : (_, _, _) = (_, _, _) |- _ => inversion H; lia end.
Qed.

(** Python's [<] on [(value, fragment)] tuples of NaN-free values is the
    lexicographic order of the value and then the fragment index. *)
Lemma tuple_lt_spec (p q : float64 * nat) :
  is_nan (fst p) = false -> is_nan (fst q) = false ->
  tuple_lt p q = true <->
  rank_lt (rank (fst p)) (rank (fst q)) \/ (rank (fst p) = rank (fst q) /\ snd p < snd q).
Proof.
  intros Hp Hq. unfold tuple_lt, SFeqb, SFltb.
  destruct (SFcompare_rank _ _ Hp Hq) as (c & -> & HLt & HEq & HGt).
  assert (Hirr : forall a, ~ rank_lt a a) by (intros [[a1 a2] a3]; simpl; lia).
  destruct c.
  - rewrite Nat.ltb_lt. pose proof (proj1 HEq eq_refl) as E. rewrite E.
    split; [tauto|]. intros [H|H]; [by apply Hirr in H | tauto].
  - split; [intros _; left; by apply HLt | done].
  - split; [done|]. pose proof (proj1 HGt eq_refl) as G.
    destruct (rank (fst p)) as [[a1 a2] a3], (rank (fst q)) as [[b1 b2] b3].
    simpl in *. intros [H|[H _]]; [lia | inversion H; lia].
Qed.

Lemma tuple_lt_asym (p q : float64 * nat) :
  is_nan (fst p) = false -> is_nan (fst q) = false ->
  tuple_lt p q = true -> tuple_lt q p = false.
Proof.
  intros Hp Hq H. apply not_true_is_false. intros H'.
  apply tuple_lt_spec in H, H'; try done.
  destruct (rank (fst p)) as [[a1 a2] a3], (rank (fst q)) as [[b1 b2] b3].
  simpl in *. destruct H as [H|[H ?]], H' as [H'|[H' ?]];
    try (inversion H); try (inversion H'); lia.
Qed.

Lemma tuple_lt_negtrans (p q r : float64 * nat) :
  is_nan (fst p) = false -> is_nan (fst q) = false -> is_nan (fst r) = false ->
  tuple_lt p q = false -> tuple_lt q r = false -> tuple_lt p r = false.
Proof.
  intros Hp Hq Hr H1 H2. apply not_true_is_false. intros H3.
  apply not_true_iff_false in H1, H2.
  rewrite tuple_lt_spec in H1, H2, H3 by done.
  destruct (rank (fst p)) as [[a1 a2] a3], (rank (fst q)) as [[b1 b2] b3],
           (rank (fst r)) as [[c1 c2] c3].
  simpl in *.
  assert (Hpq : (a1, a2, a3) = (b1, b2, b3) <-> (a1 = b1 /\ a2 = b2 /\ a3 = b3))
    by (split; [intros E; by inversion E | intros (-> & -> & ->); done]).
  assert (Hqr : (b1, b2, b3) = (c1, c2, c3) <-> (b1 = c1 /\ b2 = c2 /\ b3 = c3))
    by (split; [intros E; by inversion E | intros (-> & -> & ->); done]).
  assert (Hpr : (a1, a2, a3) = (c1, c2, c3) <-> (a1 = c1 /\ a2 = c2 /\ a3 = c3))
    by (split; [intros E; by inversion E | intros (-> & -> & ->); done]).
  rewrite Hpq in H1. rewrite Hqr in H2. rewrite Hpr in H3. lia.
Qed.

Lemma rev_reverse {A : Type} (l : list A) : rev l = reverse l.
Proof. unfold reverse. by rewrite <- rev_alt. Qed.

Section InsertionSort.
Context {A : Type} (lt : A -> A -> bool) (P : A -> Prop).
Hypothesis lt_asym : forall a b, P a -> P b -> lt a b = true -> lt b a = false.
Hypothesis lt_negtrans : forall a b c, P a -> P b -> P c ->
  lt a b = false -> lt b c = false -> lt a c = false.

Abbreviation ascending := (StronglySorted (fun a b => lt b a = false)).
Abbreviation unordered x y := (negb (lt x y) && negb (lt y x)).

(** Insertion into a list in which no element is less than an earlier
    one gives such a list. *)
Lemma insert_sorted_ascending (x : A) (l : list A) :
  P x -> Forall P l -> ascending l -> ascending (insert_sorted lt x l).
Proof.
  intros Hx HP Hl. induction Hl as [|y l Hl IH Hy]; simpl.
  - repeat constructor.
  - apply Forall_cons in HP as [HPy HPl].
    destruct (lt y x) eqn:E.
    + apply StronglySorted_cons. split; [|by apply IH].
      apply Forall_forall. intros z Hz.
      rewrite insert_sorted_Permutation in Hz. apply elem_of_cons in Hz as [->|Hz].
      * by apply lt_asym.
      * by apply (proj1 (Forall_forall _ _) Hy).
    + apply StronglySorted_cons. split; [|by constructor].
      apply Forall_cons. split; [done|].
      apply Forall_forall. intros z Hz.
      apply lt_negtrans with y; try done.
      * by apply (proj1 (Forall_forall _ _) HPl).
      * by apply (proj1 (Forall_forall _ _) Hy).
Qed.

Lemma py_sorted_ascending (l : list A) : Forall P l -> ascending (py_sorted lt l).
Proof.
  unfold py_sorted. induction 1 as [|x l Hx Hl IH]; simpl; [constructor|].
  apply insert_sorted_ascending; [done | | done].
  fold (py_sorted lt l). by rewrite py_sorted_Permutation.
Qed.

(** After [reverse=True], no element is less than a later one. *)
Lemma py_sorted_reverse_descending (l : list A) :
  Forall P l -> StronglySorted (fun a b => lt a b = false) (py_sorted_reverse lt l).
Proof.
  intros Hl. unfold py_sorted_reverse.
  assert (H : ascending (py_sorted lt (rev l))).
  { apply py_sorted_ascending. by rewrite <- Permutation_rev. }
  induction H as [|y k Hk IH Hy]; simpl; [constructor|].
  apply StronglySorted_app. split; [|split; [done | repeat constructor]].
  intros a b Ha Hb. apply list_elem_of_singleton in Hb as ->.
  apply list_elem_of_In, in_rev, list_elem_of_In in Ha.
  by apply (proj1 (Forall_forall _ _) Hy).
Qed.

(** Insertion does not move an element past one it is unordered with. *)
Lemma insert_sorted_stable (x a : A) (l : list A) :
  P x -> P a -> Forall P l ->
  filter (fun y => unordered x y = true) (insert_sorted lt a l) =
  filter (fun y => unordered x y = true) (a :: l).
Proof.
  intros Hx Ha Hl. induction Hl as [|y l Hy Hl IH]; simpl; [done|].
  destruct (lt y a) eqn:E; [|done].
  rewrite filter_cons, IH, !filter_cons.
  destruct (decide (unordered x y = true)) as [Uy|Uy]; [|done].
  destruct (decide (unordered x a = true)) as [Ua|Ua]; [|done].
  exfalso.
  apply andb_true_iff in Uy as [_ Uy]. apply andb_true_iff in Ua as [Ua _].
  apply negb_true_iff in Uy, Ua.
  rewrite (lt_negtrans y x a) in E; done.
Qed.

Lemma py_sorted_stable (x : A) (l : list A) :
  P x -> Forall P l ->
  filter (fun y => unordered x y = true) (py_sorted lt l) =
  filter (fun y => unordered x y = true) l.
Proof.
  intros Hx. unfold py_sorted. induction 1 as [|a l Ha Hl IH]; simpl; [done|].
  rewrite insert_sorted_stable; [|done|done|].
  - by rewrite !filter_cons, IH.
  - fold (py_sorted lt l). by rewrite py_sorted_Permutation.
Qed.

(** Elements that are unordered keep the order they had in the input,
    also with [reverse=True]. *)
Lemma py_sorted_reverse_stable (x : A) (l : list A) :
  P x -> Forall P l ->
  filter (fun y => unordered x y = true) (py_sorted_reverse lt l) =
  filter (fun y => unordered x y = true) l.
Proof.
  intros Hx Hl. unfold py_sorted_reverse.
  rewrite !rev_reverse, filter_reverse, py_sorted_stable.
  - by rewrite filter_reverse, reverse_involutive.
  - done.
  - rewrite <- rev_reverse. by rewrite <- Permutation_rev.
Qed.
End InsertionSort.

Lemma StronglySorted_before {A : Type} (R : A -> A -> Prop) (l : list A) (p q : A) :
  StronglySorted R l -> before l p q -> R p q.
Proof.
  intros Hl (i & j & Hij & Hi & Hj). revert i j Hij Hi Hj.
  induction Hl as [|x l Hl IH Hx]; intros i j Hij Hi Hj; [done|].
  destruct j as [|j]; [lia|]. simpl in Hj.
  destruct i as [|i].
  - inversion Hi; subst. apply (proj1 (Forall_forall _ _) Hx).
    by eapply list_elem_of_lookup_2.
  - simpl in Hi. apply (IH i j); [lia | done | done].
Qed.

Lemma filter_iff_Forall {A : Type} (P1 P2 : A -> Prop)
    `{!forall x, Decision (P1 x), !forall x, Decision (P2 x)} (l : list A) :
  Forall (fun y => P1 y <-> P2 y) l -> filter P1 l = filter P2 l.
Proof.
  induction 1 as [|y l Hy Hl IH]; [done|].
  rewrite !filter_cons, IH. destruct (decide (P1 y)), (decide (P2 y)); tauto.
Qed.

(** Tied entries are those Python finds unordered. *)
Lemma tied_unordered (p q : float64 * nat) :
  is_nan (fst p) = false -> is_nan (fst q) = false ->
  tied p q = true <-> negb (tuple_lt p q) && negb (tuple_lt q p) = true.
Proof.
  intros Hp Hq. unfold tied.
  rewrite !andb_true_iff, !negb_true_iff, Nat.eqb_eq, <- !not_true_iff_false.
  rewrite !tuple_lt_spec by done.
  assert (E : SFeqb (fst p) (fst q) = true <-> rank (fst p) = rank (fst q)).
  { unfold SFeqb. destruct (SFcompare_rank _ _ Hp Hq) as (c & -> & _ & HEq & _).
    rewrite <- HEq. destruct c; split; (done || discriminate). }
  rewrite E.
  destruct (rank (fst p)) as [[a1 a2] a3], (rank (fst q)) as [[b1 b2] b3]. simpl.
  assert (Hpq : (a1, a2, a3) = (b1, b2, b3) <-> (a1 = b1 /\ a2 = b2 /\ a3 = b3))
    by (split; [intros H; by inversion H | intros (-> & -> & ->); done]).
  assert (Hqp : (b1, b2, b3) = (a1, a2, a3) <-> (a1 = b1 /\ a2 = b2 /\ a3 = b3))
    by (split; [intros H; by inversion H | intros (-> & -> & ->); done]).
  rewrite Hpq, Hqp. lia.
Qed.

Lemma nan_free_flatten (s : list (list float64)) :
  nan_free s -> Forall (fun p => is_nan (fst p) = false) (flatten_occupations s).
Proof.
  intros Hs. apply Forall_forall. intros x Hx.
  apply elem_of_flatten_occupations in Hx as (row & Hrow & Hv).
  apply list_elem_of_lookup_2 in Hrow.
  unfold nan_free in Hs. rewrite Forall_forall in Hs. specialize (Hs row Hrow).
  rewrite Forall_forall in Hs. by apply Hs.
Qed.

(** C2 (as the code has it). On NaN-free occupations the ranked list of
    the method is a rearrangement of the flattened pairs in which an
    entry that comes before another never has a smaller occupation (the
    list is in descending order of value); of two entries with equal
    occupations and different fragments the one of the fragment with the
    HIGHER index comes first; and entries with equal occupations of the
    same fragment keep their enumeration order (lower orbital index
    first). *)
Theorem sorted_occupations_ranking (s : list (list float64)) :
  nan_free s ->
  sorted_occupations s ≡ₚ flatten_occupations s /\
  (forall p q, before (sorted_occupations s) p q ->
     SFltb (fst p) (fst q) = false /\
     (SFeqb (fst p) (fst q) = true -> snd q <= snd p)) /\
  (forall x, is_nan (fst x) = false ->
     filter (fun y => tied x y = true) (sorted_occupations s) =
     filter (fun y => tied x y = true) (flatten_occupations s)).
Proof.
  intros Hs.
  set (P := fun p : float64 * nat => is_nan (fst p) = false).
  assert (HP : Forall P (flatten_occupations s)) by by apply nan_free_flatten.
  assert (Hperm : sorted_occupations s ≡ₚ flatten_occupations s)
    by apply py_sorted_reverse_Permutation.
  split; [exact Hperm|]. split.
  - intros p q Hpq.
    assert (Hsorted := py_sorted_reverse_descending tuple_lt P
                         (fun a b => tuple_lt_asym a b)
                         (fun a b c => tuple_lt_negtrans a b c) _ HP).
    assert (Hlt : tuple_lt p q = false)
      by exact (StronglySorted_before _ _ _ _ Hsorted Hpq).
    unfold tuple_lt in Hlt.
    destruct (SFeqb (fst p) (fst q)) eqn:E.
    + split; [|intros _; by apply Nat.ltb_ge].
      unfold SFeqb in E. unfold SFltb. destruct (SFcompare (fst p) (fst q)) as [[]|]; done.
    + split; [done | discriminate].
  - intros x Hx.
    assert (HP' : Forall P (sorted_occupations s)) by by rewrite Hperm.
    rewrite (filter_iff_Forall _ (fun y => negb (tuple_lt x y) && negb (tuple_lt y x) = true)
               (sorted_occupations s)).
    + rewrite (filter_iff_Forall _ (fun y => negb (tuple_lt x y) && negb (tuple_lt y x) = true)
                 (flatten_occupations s)).
      * apply (py_sorted_reverse_stable tuple_lt P); try done.
        intros a b c. apply tuple_lt_negtrans.
      * eapply Forall_impl; [exact HP|]. intros y Hy. by apply tied_unordered.
    + eapply Forall_impl; [exact HP'|]. intros y Hy. by apply tied_unordered.
Qed.

(** ** The ranked list and the ranks of the slots *)

(** Sorting commutes with a map through which the comparison goes. *)
Lemma insert_sorted_fmap {A B : Type} (f : B -> A) (lt : A -> A -> bool) (x : B) (l : list B) :
  insert_sorted lt (f x) (map f l) = map f (insert_sorted (fun a b => lt (f a) (f b)) x l).
Proof.
  induction l as [|y l IH]; simpl; [done|].
  destruct (lt (f y) (f x)); simpl; [by rewrite IH | done].
Qed.

Lemma py_sorted_fmap {A B : Type} (f : B -> A) (lt : A -> A -> bool) (l : list B) :
  py_sorted lt (map f l) = map f (py_sorted (fun a b => lt (f a) (f b)) l).
Proof.
  unfold py_sorted. induction l as [|x l IH]; simpl; [done|].
  by rewrite IH, insert_sorted_fmap.
Qed.

Lemma py_sorted_reverse_fmap {A B : Type} (f : B -> A) (lt : A -> A -> bool) (l : list B) :
  py_sorted_reverse lt (map f l) = map f (py_sorted_reverse (fun a b => lt (f a) (f b)) l).
Proof.
  unfold py_sorted_reverse. by rewrite <- map_rev, py_sorted_fmap, map_rev.
Qed.

(** The flattened pairs are the slots with their occupations. *)
Lemma flatten_slots_from (pre s : list (list float64)) :
  mjoin (imap (fun i row => map (fun v => (v, length pre + i)) row) s) =
  map (fun p => (occupation (pre ++ s) p, p.1)) (slots_from (length pre) s).
Proof.
  revert pre. induction s as [|row s IH]; intros pre; [done|].
  rewrite imap_cons. simpl. rewrite map_app. f_equal.
  - rewrite Nat.add_0_r, map_map. apply list_eq. intros k.
    change (map ?f ?l) with (f <$> l). rewrite !list_lookup_fmap.
    destruct (decide (k < length row)) as [Hk|Hk].
    + rewrite lookup_seq_lt by done. simpl.
      destruct (lookup_lt_is_Some_2 row k Hk) as [v Hv]. rewrite Hv. simpl.
      unfold occupation. simpl.
      rewrite lookup_app_r by lia. rewrite Nat.sub_diag. simpl. by rewrite Hv.
    + rewrite lookup_seq_ge by lia. rewrite lookup_ge_None_2 by lia. done.
  - specialize (IH (pre ++ [row])).
    rewrite length_app in IH. simpl in IH. rewrite Nat.add_1_r in IH.
    rewrite <- app_assoc in IH. simpl in IH. rewrite <- IH.
    f_equal. apply imap_ext. intros i r _. simpl.
    apply map_ext. intros v. f_equal. lia.
Qed.

Lemma flatten_slots (s : list (list float64)) :
  flatten_occupations s = map (fun p => (occupation s p, p.1)) (slots s).
Proof. apply (flatten_slots_from [] s). Qed.

Lemma slots_nan_free (s : list (list float64)) :
  nan_free s -> Forall (fun p => is_nan (occupation s p) = false) (slots s).
Proof.
  intros Hs. apply nan_free_flatten in Hs. rewrite flatten_slots in Hs.
  change (map ?f ?l) with (f <$> l) in Hs. by apply Forall_fmap in Hs.
Qed.

(** The slots are enumerated fragment by fragment, position by position. *)
Lemma slots_from_ge (o : nat) (s : list (list float64)) :
  Forall (fun p => o <= p.1) (slots_from o s).
Proof.
  revert o. induction s as [|row s IH]; intros o; simpl; [constructor|].
  apply Forall_app. split.
  - apply Forall_forall. intros p Hp.
    apply list_elem_of_fmap in Hp as (k & -> & _). simpl. lia.
  - eapply Forall_impl; [apply IH|]. simpl. intros p Hp. lia.
Qed.

Lemma slots_from_enumerated (o : nat) (s : list (list float64)) :
  StronglySorted (fun p q => p.1 < q.1 \/ (p.1 = q.1 /\ p.2 < q.2)) (slots_from o s).
Proof.
  revert o. induction s as [|row s IH]; intros o; simpl; [constructor|].
  apply StronglySorted_app. split; [|split; [|apply IH]].
  - intros p q Hp Hq.
    apply list_elem_of_fmap in Hp as (k & -> & _).
    pose proof (proj1 (Forall_forall _ _) (slots_from_ge (S o) s) q Hq) as Hge.
    simpl in *. lia.
  - generalize 0 as a. induction (length row) as [|n IHn]; intros a; simpl; [constructor|].
    constructor; [apply IHn|].
    apply Forall_forall. intros q Hq.
    apply list_elem_of_fmap in Hq as (k & -> & Hk).
    apply elem_of_seq in Hk. simpl. lia.
Qed.

Lemma filter_all {A : Type} (P : A -> Prop) `{!forall x, Decision (P x)} (l : list A) :
  Forall P l -> filter P l = l.
Proof.
  induction 1 as [|x l Hx Hl IH]; [done|].
  by rewrite filter_cons_True, IH.
Qed.

Lemma filter_none {A : Type} (P : A -> Prop) `{!forall x, Decision (P x)} (l : list A) :
  Forall (fun x => ~ P x) l -> filter P l = [].
Proof.
  induction 1 as [|x l Hx Hl IH]; [done|].
  by rewrite filter_cons_False, IH.
Qed.

Lemma length_filter_fmap {A B : Type} (f : A -> B) (P : B -> Prop)
    `{!forall x, Decision (P x)} (l : list A) :
  length (filter P (map f l)) = length (filter (fun x => P (f x)) l).
Proof.
  induction l as [|x l IH]; [done|].
  simpl. rewrite !filter_cons. destruct (decide (P (f x))); simpl; by rewrite IH.
Qed.

(** The slots of one fragment. *)
Lemma filter_slots_from (o i : nat) (s : list (list float64)) :
  o <= i ->
  filter (fun p => p.1 = i) (slots_from o s) =
  map (fun k => (i, k)) (seq 0 (length (default [] (s !! (i - o))))).
Proof.
  revert o. induction s as [|row s IH]; intros o Ho; simpl; [done|].
  rewrite filter_app.
  destruct (decide (o = i)) as [->|Hne].
  - rewrite Nat.sub_diag. simpl.
    rewrite (filter_none _ (slots_from (S i) s)); last first.
    { eapply Forall_impl; [apply slots_from_ge|]. simpl. intros p Hp. lia. }
    rewrite app_nil_r. apply filter_all.
    apply Forall_forall. intros p Hp.
    by apply list_elem_of_fmap in Hp as (k & -> & _).
  - rewrite (filter_none _ (map _ _)); last first.
    { apply Forall_forall. intros p Hp.
      apply list_elem_of_fmap in Hp as (k & -> & _). simpl. lia. }
    simpl. rewrite IH by lia.
    replace (i - o) with (S (i - S o)) by lia. done.
Qed.

Lemma filter_slots (i : nat) (s : list (list float64)) :
  filter (fun p => p.1 = i) (slots s) =
  map (fun k => (i, k)) (seq 0 (length (default [] (s !! i)))).
Proof.
  unfold slots. rewrite filter_slots_from by lia. by rewrite Nat.sub_0_r.
Qed.

(** The ranking of NaN-free slots is the lexicographic order of the
    occupation (larger first), the fragment index (higher first) and the
    position (lower first). *)
Lemma triple_eq (a1 a2 a3 b1 b2 b3 : Z) :
  (a1, a2, a3) = (b1, b2, b3) <-> a1 = b1 /\ a2 = b2 /\ a3 = b3.
Proof. split; [intros E; by inversion E | by intros (-> & -> & ->)]. Qed.

Lemma outranks_spec (s : list (list float64)) (p q : nat * nat) :
  is_nan (occupation s p) = false -> is_nan (occupation s q) = false ->
  outranks s p q = true <->
  rank_lt (rank (occupation s q)) (rank (occupation s p)) \/
  (rank (occupation s p) = rank (occupation s q) /\
   (q.1 < p.1 \/ (p.1 = q.1 /\ p.2 < q.2))).
Proof.
  intros Hp Hq. unfold outranks, SFltb, SFeqb.
  destruct (SFcompare_rank _ _ Hq Hp) as (c & -> & HLt & HEq & HGt).
  destruct (SFcompare_rank _ _ Hp Hq) as (c' & -> & HLt' & HEq' & HGt').
  rewrite orb_true_iff, andb_true_iff, orb_true_iff, andb_true_iff.
  rewrite Nat.ltb_lt, Nat.ltb_lt, Nat.eqb_eq.
  destruct (rank (occupation s p)) as [[a1 a2] a3], (rank (occupation s q)) as [[b1 b2] b3].
  simpl in *. rewrite triple_eq in *.
  destruct c, c'; intuition (try discriminate; try lia).
Qed.

Lemma outranks_trans (s : list (list float64)) (p q r : nat * nat) :
  is_nan (occupation s p) = false -> is_nan (occupation s q) = false ->
  is_nan (occupation s r) = false ->
  outranks s p q = true -> outranks s q r = true -> outranks s p r = true.
Proof.
  intros Hp Hq Hr. rewrite !outranks_spec by done.
  destruct (rank (occupation s p)) as [[a1 a2] a3], (rank (occupation s q)) as [[b1 b2] b3],
           (rank (occupation s r)) as [[c1 c2] c3].
  simpl. rewrite !triple_eq. lia.
Qed.

Lemma outranks_asym (s : list (list float64)) (p q : nat * nat) :
  is_nan (occupation s p) = false -> is_nan (occupation s q) = false ->
  outranks s p q = true -> outranks s q p <> true.
Proof.
  intros Hp Hq. rewrite !outranks_spec by done.
  destruct (rank (occupation s p)) as [[a1 a2] a3], (rank (occupation s q)) as [[b1 b2] b3].
  simpl. rewrite !triple_eq. lia.
Qed.

Lemma outranks_irrefl (s : list (list float64)) (p : nat * nat) :
  is_nan (occupation s p) = false -> outranks s p p <> true.
Proof.
  intros Hp. rewrite outranks_spec by done.
  destruct (rank (occupation s p)) as [[a1 a2] a3]. simpl. lia.
Qed.

(** An entry that the sort leaves before a later slot of the enumeration
    outranks it; an entry that the sort puts after it is outranked. *)
Lemma outranks_of_tuple_lt (s : list (list float64)) (x y : nat * nat) :
  is_nan (occupation s x) = false -> is_nan (occupation s y) = false ->
  tuple_lt (occupation s y, y.1) (occupation s x, x.1) = true ->
  outranks s x y = true.
Proof.
  intros Hx Hy. rewrite tuple_lt_spec, outranks_spec by done. simpl.
  destruct (rank (occupation s x)) as [[a1 a2] a3], (rank (occupation s y)) as [[b1 b2] b3].
  simpl. rewrite !triple_eq. lia.
Qed.

Lemma outranks_of_not_tuple_lt (s : list (list float64)) (x y : nat * nat) :
  is_nan (occupation s x) = false -> is_nan (occupation s y) = false ->
  y.1 < x.1 \/ (y.1 = x.1 /\ y.2 < x.2) ->
  tuple_lt (occupation s y, y.1) (occupation s x, x.1) = false ->
  outranks s y x = true.
Proof.
  intros Hx Hy Henum Hlt. apply not_true_iff_false in Hlt.
  rewrite tuple_lt_spec in Hlt by done. rewrite outranks_spec by done. simpl in Hlt.
  destruct (rank (occupation s x)) as [[a1 a2] a3], (rank (occupation s y)) as [[b1 b2] b3].
  simpl in *. rewrite !triple_eq in *. lia.
Qed.

Section Ranked.
Variable s : list (list float64).

Abbreviation slot_lt :=
  (fun a b : nat * nat => tuple_lt (occupation s a, a.1) (occupation s b, b.1)).
Abbreviation nan_free_slot := (fun p : nat * nat => is_nan (occupation s p) = false).
Abbreviation enumerated_before :=
  (fun p q : nat * nat => p.1 < q.1 \/ (p.1 = q.1 /\ p.2 < q.2)).
Abbreviation lower_ranked := (fun a b : nat * nat => outranks s b a = true).

(** Insertion of a slot that comes later in the enumeration than the
    slots already sorted keeps the list in ascending rank. *)
Lemma insert_sorted_ranked (x : nat * nat) (l : list (nat * nat)) :
  nan_free_slot x -> Forall nan_free_slot l ->
  Forall (fun y => enumerated_before y x) l ->
  StronglySorted lower_ranked l ->
  StronglySorted lower_ranked (insert_sorted slot_lt x l).
Proof.
  intros Hx HP Henum Hl.
  induction Hl as [|y l Hl IH Hy]; simpl; [repeat constructor|].
  apply Forall_cons in HP as [HPy HPl]. apply Forall_cons in Henum as [Hey Hel].
  destruct (tuple_lt (occupation s y, y.1) (occupation s x, x.1)) eqn:E.
  - apply StronglySorted_cons. split; [|by apply IH].
    apply Forall_forall. intros z Hz.
    rewrite insert_sorted_Permutation in Hz. apply elem_of_cons in Hz as [->|Hz].
    + by apply outranks_of_tuple_lt.
    + by apply (proj1 (Forall_forall _ _) Hy).
  - assert (Hyx : outranks s y x = true) by by apply outranks_of_not_tuple_lt.
    apply StronglySorted_cons. split; [|by constructor].
    apply Forall_cons. split; [done|].
    apply Forall_forall. intros z Hz.
    apply outranks_trans with y; try done.
    + by apply (proj1 (Forall_forall _ _) HPl).
    + by apply (proj1 (Forall_forall _ _) Hy).
Qed.

Lemma py_sorted_rev_ranked (l : list (nat * nat)) :
  Forall nan_free_slot l -> StronglySorted enumerated_before l ->
  StronglySorted lower_ranked (py_sorted slot_lt (rev l)).
Proof.
  induction l as [|x l IH] using rev_ind; intros HP Hl; [constructor|].
  rewrite rev_unit. unfold py_sorted. simpl. fold (py_sorted slot_lt (rev l)).
  apply Forall_app in HP as [HPl HPx]. apply Forall_inv in HPx.
  apply StronglySorted_app in Hl as (Hcross & Hl & _).
  assert (Hperm : py_sorted slot_lt (rev l) ≡ₚ l)
    by (rewrite py_sorted_Permutation; symmetry; apply Permutation_rev).
  apply insert_sorted_ranked; [exact HPx | by rewrite Hperm | | by apply IH].
  rewrite Hperm. apply Forall_forall. intros y Hy.
  apply Hcross; [done | by apply list_elem_of_singleton].
Qed.

Lemma StronglySorted_rev {A : Type} (R : A -> A -> Prop) (l : list A) :
  StronglySorted R l -> StronglySorted (fun a b => R b a) (rev l).
Proof.
  induction 1 as [|x l Hl IH Hx]; simpl; [constructor|].
  apply StronglySorted_app. split; [|split; [done | repeat constructor]].
  intros a b Ha Hb. apply list_elem_of_singleton in Hb as ->.
  apply list_elem_of_In, in_rev, list_elem_of_In in Ha.
  by apply (proj1 (Forall_forall _ _) Hx).
Qed.

(** The slots in the order of the ranked list. *)
Abbreviation ranked_slots := (py_sorted_reverse slot_lt (slots s)).

Lemma sorted_occupations_slots :
  sorted_occupations s = map (fun p => (occupation s p, p.1)) ranked_slots.
Proof.
  unfold sorted_occupations. rewrite flatten_slots.
  apply (py_sorted_reverse_fmap (fun p => (occupation s p, p.1)) tuple_lt).
Qed.

Hypothesis Hs : nan_free s.

Lemma ranked_slots_sorted :
  StronglySorted (fun a b => outranks s a b = true) ranked_slots.
Proof.
  unfold py_sorted_reverse.
  apply (StronglySorted_rev lower_ranked).
  apply py_sorted_rev_ranked; [by apply slots_nan_free | apply slots_from_enumerated].
Qed.

Lemma ranked_slots_nan_free : Forall nan_free_slot ranked_slots.
Proof. rewrite py_sorted_reverse_Permutation. by apply slots_nan_free. Qed.

End Ranked.

(** In a list sorted by a strict order, the elements before an element
    are those the order puts before it. *)
Lemma sorted_index {A : Type} (Q : A -> A -> bool) (l : list A) :
  StronglySorted (fun a b => Q a b = true) l ->
  Forall (fun a => Q a a <> true) l ->
  (forall a b, a ∈ l -> b ∈ l -> Q a b = true -> Q b a <> true) ->
  forall j x, l !! j = Some x -> length (filter (fun q => Q q x = true) l) = j.
Proof.
  induction 1 as [|y l Hl IH Hy]; intros Hirr Hasym j x Hx; [done|].
  apply Forall_cons in Hirr as [Hirr_y Hirr_l].
  assert (IH' := IH Hirr_l (fun a b Ha Hb => Hasym a b (list_elem_of_further _ _ _ Ha)
                                              (list_elem_of_further _ _ _ Hb))).
  destruct j as [|j]; simpl in Hx.
  - inversion Hx; subst x. rewrite filter_cons_False by done.
    rewrite filter_none; [done|].
    apply Forall_forall. intros z Hz.
    apply Hasym; [apply list_elem_of_here | by apply list_elem_of_further |].
    by apply (proj1 (Forall_forall _ _) Hy).
  - rewrite filter_cons_True.
    + simpl. f_equal. by apply IH'.
    + apply (proj1 (Forall_forall _ _) Hy). by eapply list_elem_of_lookup_2.
Qed.

(** The first [n] elements of a list are those whose index is below [n]. *)
Lemma take_filter_index {A : Type} (r : A -> nat) (l : list A) (n : nat) :
  (forall j x, l !! j = Some x -> r x = j) ->
  take n l = filter (fun x => r x < n) l.
Proof.
  revert r n. induction l as [|y l IH]; intros r n Hr; [by destruct n|].
  pose proof (Hr 0 y eq_refl) as Hy.
  destruct n as [|n]; simpl.
  - symmetry. apply filter_none. apply Forall_forall. intros x Hx. lia.
  - rewrite filter_cons_True by lia. f_equal.
    rewrite (IH (fun x => pred (r x)) n).
    + apply filter_iff_Forall. apply Forall_forall. intros x Hx.
      apply list_elem_of_lookup_1 in Hx as [j Hj].
      pose proof (Hr (S j) x Hj). lia.
    + intros j x Hj. pose proof (Hr (S j) x Hj). lia.
Qed.

(** On NaN-free occupations the position of a slot in the ranked list is
    its rank. *)
Lemma ranked_slots_index (s : list (list float64)) (j : nat) (x : nat * nat) :
  nan_free s ->
  py_sorted_reverse
    (fun a b : nat * nat => tuple_lt (occupation s a, a.1) (occupation s b, b.1))
    (slots s) !! j = Some x ->
  rank_of s x = j.
Proof.
  intros Hs Hx. set (T := py_sorted_reverse _ _) in Hx.
  assert (Hperm : T ≡ₚ slots s) by apply py_sorted_reverse_Permutation.
  pose proof (ranked_slots_nan_free s Hs) as Hnan. fold T in Hnan.
  unfold rank_of. rewrite <- Hperm.
  apply (sorted_index (outranks s)); [| | |done].
  - by apply ranked_slots_sorted.
  - eapply Forall_impl; [exact Hnan|]. intros a Ha. by apply outranks_irrefl.
  - intros a b Ha Hb. apply outranks_asym.
    + by apply (proj1 (Forall_forall _ _) Hnan).
    + by apply (proj1 (Forall_forall _ _) Hnan).
Qed.

(** On NaN-free occupations, the count that the method takes from the
    sorted list is the count by rank. *)
Lemma assignment_count_rank (s : list (list float64)) (n i : nat) :
  nan_free s -> assignment_count s n i = assignment_count_by_rank s n i.
Proof.
  intros Hs. unfold assignment_count, assignment_count_by_rank.
  rewrite sorted_occupations_slots. set (T := py_sorted_reverse _ _).
  assert (Hperm : T ≡ₚ slots s) by apply py_sorted_reverse_Permutation.
  rewrite firstn_map. rewrite length_filter_fmap. simpl.
  rewrite (take_filter_index (rank_of s) T n)
    by (intros j x; by apply ranked_slots_index).
  rewrite list_filter_filter, Hperm.
  rewrite (filter_iff_Forall _ (fun a => rank_of s a < n /\ a.1 = i))
    by (apply Forall_forall; intros a _; tauto).
  rewrite <- list_filter_filter, filter_slots.
  apply length_filter_fmap.
Qed.

(** ** [compute_oxidation_state] *)

(** A successful call leaves the partition it used in [self._frags]. *)
Lemma compute_fragment_overlap_self (fragments : option (list fragment))
    (spin : option string) (w : World) (arr : ndarray3) (w' : World) :
  compute_fragment_overlap fragments spin w = (Ok arr, w') ->
  self w' = with_frags (self w) (Some (partition_used (molecule (self w)) fragments)).
Proof.
  destruct (declared_count (molecule (self w)) (spin_arg spin)) as [n|] eqn:E.
  - rewrite (compute_fragment_overlap_accepted _ _ _ _ E). intros H.
    set (w1 := update_frags _ w) in H.
    apply (foldM_preserves (fun w' => self w' = self w1) _ _) in H; [done| |done].
    intros b a w0 r0 w0' E0 <-. by eapply overlap_step_preserves.
  - rewrite (compute_fragment_overlap_rejected _ _ _ E). discriminate.
Qed.

Lemma compute_fragment_occupation_self
    (svd : ndarray3 -> result (list (list float64)))
    (fragments : option (list fragment)) (spin : option string)
    (w : World) (s : list (list float64)) (w' : World) :
  compute_fragment_occupation svd fragments spin w = (Ok s, w') ->
  self w' = with_frags (self w) (Some (partition_used (molecule (self w)) fragments)).
Proof.
  rewrite compute_fragment_occupation_bind.
  destruct (compute_fragment_overlap fragments spin w) as [[arr|e] w1] eqn:E; [|discriminate].
  apply compute_fragment_overlap_self in E.
  destruct (svd arr); intros H; inversion H; subst; done.
Qed.

Lemma mapM_Ok {A B : Type} (f : A -> M B) (g : A -> B) (l : list A) (w : World) :
  Forall (fun a => f a w = (Ok (g a), w)) l ->
  mapM f l w = (Ok (map g l), w).
Proof.
  induction 1 as [|a l Ha Hl IH]; [done|].
  simpl. rewrite (bind_Ok _ _ _ _ _ Ha). by rewrite (bind_Ok _ _ _ _ _ IH).
Qed.

Lemma getitem_int_valid (l : list Z) (k : Z) (w : World) :
  (- Z.of_nat (length l) <= k < Z.of_nat (length l))%Z ->
  getitem_int l k w = (Ok (nth (atom_of_index (length l) k) l 0%Z), w).
Proof.
  intros Hk. unfold getitem_int, getitem, atom_of_index.
  set (k' := (if (k <? 0)%Z then (k + Z.of_nat (length l))%Z else k)).
  assert (Hk' : (0 <= k' < Z.of_nat (length l))%Z).
  { unfold k'. destruct (Z.ltb_spec k 0); lia. }
  rewrite (proj2 (Z.ltb_ge k' 0)) by lia.
  destruct (lookup_lt_is_Some_2 l (Z.to_nat k') ltac:(lia)) as [z Hz].
  rewrite Hz. by rewrite (nth_lookup_Some _ _ _ _ Hz).
Qed.

(** [int64] arithmetic is arithmetic modulo 2^64. *)
Lemma int64_small (z : Z) : in_int64 z -> int64 z = z.
Proof.
  unfold in_int64, int64. intros Hz.
  rewrite Z.mod_small; [lia|].
  change (2 ^ 64)%Z with (2 ^ 63 + 2 ^ 63)%Z. lia.
Qed.

Lemma int64_add_l (a b : Z) : int64 (int64 a + b) = int64 (a + b).
Proof.
  unfold int64. f_equal.
  replace ((a + 2 ^ 63) mod 2 ^ 64 - 2 ^ 63 + b + 2 ^ 63)%Z
    with ((a + 2 ^ 63) mod 2 ^ 64 + b)%Z by lia.
  rewrite Zplus_mod_idemp_l. f_equal. lia.
Qed.

Lemma int64_sub_l (a b : Z) : int64 (int64 a - b) = int64 (a - b).
Proof. rewrite <- !Z.add_opp_r. apply int64_add_l. Qed.

Lemma foldl_add (l : list Z) (a : Z) :
  foldl (fun acc x => int64 (acc + x)%Z) (int64 a) l = int64 (a + foldr Z.add 0 l)%Z.
Proof.
  revert a. induction l as [|z l IH]; intros a; simpl.
  - f_equal. lia.
  - rewrite int64_add_l, IH. f_equal. lia.
Qed.

Lemma sum_int_foldr (l : list Z) : sum_int l = int64 (foldr Z.add 0%Z l).
Proof. unfold sum_int. change 0%Z with (int64 0) at 1. by rewrite foldl_add. Qed.

Lemma z_frag_valid (numbers : list Z) (frags : list fragment) (w : World) :
  Forall (valid_fragment numbers) frags ->
  z_frag numbers frags w =
  (Ok (map (fun frag => int64 (fragment_charge numbers frag)) frags), w).
Proof.
  intros Hv. unfold z_frag. apply mapM_Ok.
  eapply Forall_impl; [exact Hv|]. intros frag Hfrag. simpl.
  assert (E : mapM (getitem_int numbers) frag w =
              (Ok (map (fun k => nth (atom_of_index (length numbers) k) numbers 0%Z) frag), w)).
  { apply mapM_Ok. eapply Forall_impl; [exact Hfrag|].
    intros k Hk. by apply getitem_int_valid. }
  rewrite (bind_Ok _ _ _ _ _ E).
  unfold fragment_charge. by rewrite sum_int_foldr.
Qed.

Lemma array_sub3_lookup (z : list Z) (a b : list nat) (i : nat) (zi : Z) (ai bi : nat) :
  z !! i = Some zi -> a !! i = Some ai -> b !! i = Some bi ->
  array_sub3 z a b !! i = Some (int64 (int64 (zi - Z.of_nat ai) - Z.of_nat bi)).
Proof.
  intros Hz Ha Hb. unfold array_sub3.
  rewrite !lookup_zip_with, Hz. simpl.
  change (map Z.of_nat a) with (Z.of_nat <$> a). change (map Z.of_nat b) with (Z.of_nat <$> b).
  rewrite !list_lookup_fmap, Ha, Hb. done.
Qed.

Lemma length_array_sub3 (z : list Z) (a b : list nat) :
  length a = length z -> length b = length z -> length (array_sub3 z a b) = length z.
Proof.
  intros Ha Hb. unfold array_sub3. rewrite !length_zip_with, !length_map. lia.
Qed.

Lemma array_sub3_charge (charges : list Z) (a b : list nat) (i : nat) (c : Z) (ai bi : nat) :
  charges !! i = Some c -> a !! i = Some ai -> b !! i = Some bi ->
  array_sub3 (map int64 charges) a b !! i = Some (int64 (c - Z.of_nat ai - Z.of_nat bi)).
Proof.
  intros Hc Ha Hb.
  rewrite (array_sub3_lookup _ _ _ i (int64 c) ai bi); [| |done|done].
  - f_equal. rewrite int64_sub_l.
    replace (int64 c - Z.of_nat ai - Z.of_nat bi)%Z
      with (int64 c - (Z.of_nat ai + Z.of_nat bi))%Z by lia.
    rewrite int64_sub_l. f_equal. lia.
  - change (map int64 charges) with (int64 <$> charges). by rewrite list_lookup_fmap, Hc.
Qed.

(** What [compute_oxidation_state] returns once both occupation
    computations have returned: for each fragment the [int64] that the
    subtractions of lines 159 and 160 leave. *)
Lemma compute_oxidation_state_values
    (svd : ndarray3 -> result (list (list float64)))
    (w : World) (fragments : option (list fragment))
    (s_a s_b : list (list float64)) (w1 w2 : World) :
  let mol := molecule (self w) in
  let frags := partition_used mol fragments in
  compute_fragment_occupation svd fragments (Some "a"%string) w = (Ok s_a, w1) ->
  compute_fragment_occupation svd fragments (Some "b"%string) w1 = (Ok s_b, w2) ->
  Forall (valid_fragment (numbers mol)) frags ->
  exists ox,
    compute_oxidation_state svd fragments w = (Ok ox, w2) /\
    length ox = length frags /\
    forall i frag, frags !! i = Some frag ->
      ox !! i = Some (int64 (fragment_charge (numbers mol) frag
                             - Z.of_nat (assignment_count s_a (fst (nelectrons mol)) i)
                             - Z.of_nat (assignment_count s_b (snd (nelectrons mol)) i))).
Proof.
  intros mol frags Ha Hb Hvalid.
  pose proof (compute_fragment_occupation_preserves _ _ _ _ _ _ Ha) as (Hm1 & _).
  pose proof (compute_fragment_occupation_self _ _ _ _ _ _ Hb) as Hself.
  rewrite Hm1 in Hself. fold mol frags in Hself.
  set (na := fst (nelectrons mol)). set (nb := snd (nelectrons mol)).
  exists (array_sub3 (map int64 (map (fragment_charge (numbers mol)) frags))
            (occs_frag s_a na (length frags)) (occs_frag s_b nb (length frags))).
  split; [|split].
  - rewrite compute_oxidation_state_bind.
    rewrite (bind_Ok _ _ _ _ _ Ha), (bind_Ok _ _ _ _ _ Hb).
    unfold oxidation_of. fold mol na nb.
    assert (Hg : get_frags w2 = (Ok frags, w2)).
    { unfold get_frags. by rewrite Hself. }
    rewrite (bind_Ok _ _ _ _ _ Hg).
    rewrite (bind_Ok _ _ _ _ _ (z_frag_valid _ _ w2 Hvalid)).
    by rewrite map_map.
  - rewrite length_array_sub3; unfold occs_frag; by rewrite ?length_map, ?length_seq.
  - intros i frag Hi. apply array_sub3_charge.
    + change (map ?f ?l) with (f <$> l). by rewrite list_lookup_fmap, Hi.
    + apply occs_frag_lookup. by eapply lookup_lt_Some.
    + apply occs_frag_lookup. by eapply lookup_lt_Some.
Qed.

(** C5. When the occupations of both spins have been computed, hold no
    NaN, and the atom indices of the fragments exist,
    [compute_oxidation_state] returns one value per fragment, and the
    i-th value is the sum of the nuclear charges of the atoms of the i-th
    fragment minus its alpha assignment count minus its beta assignment
    count, the assignment count of a fragment being the number of its
    occupation numbers among the first N ranks of the spin. The value is
    an [int64]: it is that difference whenever the difference fits in 64
    bits, as it does for every molecule of real atoms, and the difference
    reduced modulo 2^64 otherwise. *)
Theorem oxidation_state_value
    (svd : ndarray3 -> result (list (list float64)))
    (w : World) (fragments : option (list fragment))
    (s_a s_b : list (list float64)) (w1 w2 : World) :
  let mol := molecule (self w) in
  let frags := partition_used mol fragments in
  compute_fragment_occupation svd fragments (Some "a"%string) w = (Ok s_a, w1) ->
  compute_fragment_occupation svd fragments (Some "b"%string) w1 = (Ok s_b, w2) ->
  nan_free s_a -> nan_free s_b ->
  Forall (valid_fragment (numbers mol)) frags ->
  exists ox,
    compute_oxidation_state svd fragments w = (Ok ox, w2) /\
    length ox = length frags /\
    forall i frag, frags !! i = Some frag ->
      let value :=
        (fragment_charge (numbers mol) frag
         - Z.of_nat (assignment_count_by_rank s_a (fst (nelectrons mol)) i)
         - Z.of_nat (assignment_count_by_rank s_b (snd (nelectrons mol)) i))%Z in
      ox !! i = Some (int64 value) /\
      (in_int64 value -> ox !! i = Some value).
Proof.
  intros mol frags Ha Hb Hnan_a Hnan_b Hvalid.
  destruct (compute_oxidation_state_values svd w fragments s_a s_b w1 w2 Ha Hb Hvalid)
    as (ox & Hrun & Hlen & Hval).
  exists ox. split; [exact Hrun|]. split; [exact Hlen|].
  intros i frag Hi value. specialize (Hval i frag Hi).
  fold mol in Hval. rewrite !assignment_count_rank in Hval by done.
  split; [exact Hval|]. intros Hfit. by rewrite Hval, int64_small.
Qed.

(** ** The example systems *)

(** C4, witness: two electrons, two orbitals, two atoms; three
    condensation calls and a symmetric stack. *)
Lemma compute_fragment_overlap_pairs_symmetric_witness :
  exists arr w',
    compute_fragment_overlap None (Some "a"%string) Examples.he2 = (Ok arr, w') /\
    map call_pair (calls w') = [(0, 0); (0, 1); (1, 1)] /\
    symmetric3 arr.
Proof.
  destruct (compute_fragment_overlap_pairs_symmetric Examples.he2 None "a" 2)
    as (arr & w' & Hrun & Hc & _ & _ & _ & _ & _ & Hsym).
  - reflexivity.
  - reflexivity.
  - intros fld. reflexivity.
  - exists arr, w'. split; [exact Hrun|]. split; [|exact Hsym].
    rewrite Hc. reflexivity.
Defined.

(** C6, witness: the tag ['c']. *)
Lemma compute_fragment_overlap_invalid_spin_witness :
  compute_fragment_overlap None (Some "c"%string) Examples.h2 =
  (Raise (NotImplementedError "Not clear what to do here!"), Examples.h2).
Proof.
  apply (compute_fragment_overlap_invalid_spin Examples.h2 None (Some "c"%string));
    discriminate.
Defined.

(** C1, witness: the occupations recorded for water, five electrons. *)
Lemma assignment_counts_sum_witness :
  sum_list (occs_frag [Examples.occupation_o; Examples.occupation_h; Examples.occupation_h] 5 3)
  = 5.
Proof.
  apply (assignment_counts_sum
           [Examples.occupation_o; Examples.occupation_h; Examples.occupation_h] 5).
  - discriminate.
  - repeat constructor.
  - repeat constructor.
Defined.

(** C5, witness: dihydrogen in its two atomic fragments. Both spins
    rank the occupation of the second atom first, so the second atom has
    the charge 1 - 1 - 1. *)
Lemma oxidation_state_value_witness :
  exists ox w',
    compute_oxidation_state Examples.svd_diagonal None Examples.h2 = (Ok ox, w') /\
    length ox = 2 /\ ox !! 1 = Some (-1)%Z.
Proof.
  pose (w1 := snd (compute_fragment_occupation Examples.svd_diagonal None
                     (Some "a"%string) Examples.h2)).
  pose (w2 := snd (compute_fragment_occupation Examples.svd_diagonal None
                     (Some "b"%string) w1)).
  destruct (oxidation_state_value Examples.svd_diagonal Examples.h2 None
              [[Examples.half]; [Examples.half]] [[Examples.half]; [Examples.half]] w1 w2)
    as (ox & Hrun & Hlen & Hval).
  - apply run_eta. vm_compute. reflexivity.
  - apply run_eta. vm_compute. reflexivity.
  - repeat constructor.
  - repeat constructor.
  - repeat (constructor; try (cbn; lia)).
  - exists ox, w2. split; [exact Hrun|]. split; [exact Hlen|].
    destruct (Hval 1 [1%Z] eq_refl) as [_ Hfit].
    rewrite Hfit; [vm_compute; reflexivity|].
    vm_compute. split; [discriminate | reflexivity].
Defined.

(** C3. On water with its three atomic fragments, where the tests expect
    the pairs [[-2, 0], [1, 1], [1, 2]], the method returns the three
    numbers -2, 1, 1: an array of plain oxidation values in fragment
    order, the fragment index being the position. *)
Theorem water_oxidation_states_are_plain_values :
  fst (compute_oxidation_state Examples.svd_water None Examples.water) =
    Ok [-2; 1; 1]%Z /\
  fst (compute_oxidation_state Examples.svd_water (Some [[0]; [1]; [2]]%Z) Examples.water) =
    Ok [-2; 1; 1]%Z.
Proof. split; vm_compute; reflexivity. Qed.

(** C2, witness: two fragments with the occupation 1/2. *)
Lemma sorted_occupations_ranking_witness :
  SFltb (fst (Examples.half, 1)) (fst (Examples.half, 0)) = false /\
  (SFeqb (fst (Examples.half, 1)) (fst (Examples.half, 0)) = true -> 0 <= 1).
Proof.
  destruct (sorted_occupations_ranking [[Examples.half]; [Examples.half]]) as (_ & H & _).
  - repeat constructor.
  - apply (H (Examples.half, 1) (Examples.half, 0)).
    exists 0, 1. split; [apply Nat.lt_0_1 | split; reflexivity].
Defined.

(** C2, counterexample. Two fragments with the same occupation 1/2 and
    one electron to assign: the ranked list of the method puts the pair
    of fragment 1 before the pair of fragment 0, where the enumeration
    order (and the ranking by [key=itemgetter(0)] of the disabled lines)
    puts fragment 0 first; the electron goes to fragment 1, and
    dihydrogen comes out as [1, -1]. *)
Lemma equal_occupations_rank_later_fragment_first :
  flatten_occupations [[Examples.half]; [Examples.half]] =
    [(Examples.half, 0); (Examples.half, 1)] /\
  sorted_occupations [[Examples.half]; [Examples.half]] =
    [(Examples.half, 1); (Examples.half, 0)] /\
  sorted_by_itemgetter (flatten_occupations [[Examples.half]; [Examples.half]]) =
    [(Examples.half, 0); (Examples.half, 1)] /\
  occs_frag [[Examples.half]; [Examples.half]] 1 2 = [0; 1] /\
  fst (compute_oxidation_state Examples.svd_diagonal None Examples.h2) = Ok [1; -1]%Z.
Proof. repeat split; vm_compute; reflexivity. Qed.

(** * Further properties of [compute_fragment_overlap] *)

Lemma run_pair {A : Type} (rw : result A * World) (r : result A) :
  fst rw = r -> rw = (r, snd rw).
Proof. destruct rw as [r0 w]. simpl. by intros ->. Qed.

Lemma foldM_value {A B : Type} (Q : B -> Prop) (f : B -> A -> M B) (l : list A) :
  (forall b a w b' w', f b a w = (Ok b', w') -> Q b -> Q b') ->
  forall b w b' w', foldM f b l w = (Ok b', w') -> Q b -> Q b'.
Proof.
  intros Hf. induction l as [|a l IH]; intros b w b' w' Hrun Hb; simpl in Hrun.
  - inversion Hrun; by subst.
  - unfold mbind, M_bind in Hrun.
    destruct (f b a w) as [[b1|e] w1] eqn:E; [|discriminate].
    eapply IH; [exact Hrun|]. eapply Hf; eauto.
Qed.

Lemma foldM_raise {A B : Type} (Q : exn -> Prop) (f : B -> A -> M B) (l : list A) :
  (forall b a w e w', f b a w = (Raise e, w') -> Q e) ->
  forall b w e w', foldM f b l w = (Raise e, w') -> Q e.
Proof.
  intros Hf. induction l as [|a l IH]; intros b w e w' Hrun; simpl in Hrun.
  - discriminate.
  - unfold mbind, M_bind in Hrun.
    destruct (f b a w) as [[b1|e1] w1] eqn:E.
    + eapply IH; exact Hrun.
    + inversion Hrun; subst. eapply Hf; eauto.
Qed.

Lemma has_shape3_zeros (f n m : nat) : has_shape3 (zeros f n m) f n m.
Proof.
  unfold has_shape3, zeros. split; [apply length_replicate|].
  apply Forall_replicate. split; [apply length_replicate|].
  apply Forall_replicate, length_replicate.
Qed.

Lemma has_shape3_setitem3 (arr : ndarray3) (f n m x i j : nat) (v : float64) :
  has_shape3 arr f n m -> has_shape3 (setitem3 arr x i j v) f n m.
Proof.
  unfold has_shape3, setitem3. intros [Hlen Hall].
  split; [by rewrite length_alter|].
  apply Forall_alter; [done|]. intros mat _ [Hn Hm].
  split; [by rewrite length_alter|].
  apply Forall_alter; [done|]. intros r _ Hr. by rewrite length_insert.
Qed.

Lemma overlap_step_shape (orbitals : ndarray2) (frags : list fragment) (f n m : nat)
    (arr : ndarray3) (ij : nat * nat) (w : World) (arr' : ndarray3) (w' : World) :
  overlap_step orbitals frags arr ij w = (Ok arr', w') ->
  has_shape3 arr f n m -> has_shape3 arr' f n m.
Proof.
  destruct ij as [i j]. unfold overlap_step, getrow. intros H.
  destruct (i <? fst (shape orbitals)); [|discriminate].
  destruct (j <? fst (shape orbitals)); [|discriminate].
  unfold mbind at 1 2, M_bind, mret, M_ret in H. simpl in H.
  unfold mbind at 1, M_bind, call_condense in H.
  revert H. apply (foldM_value (fun a => has_shape3 a f n m)).
  intros b a w0 b' w0' H Hb. unfold write_pair, getitem in H.
  destruct (_ !! a); [|discriminate]. inversion H; subst.
  by do 2 apply has_shape3_setitem3.
Qed.

Lemma compute_fragment_overlap_shape_of_count
    (w : World) (fragments : option (list fragment)) (spin : option string)
    (n : nat) (arr : ndarray3) (w' : World) :
  declared_count (molecule (self w)) (spin_arg spin) = Some n ->
  compute_fragment_overlap fragments spin w = (Ok arr, w') ->
  has_shape3 arr (length (partition_used (molecule (self w)) fragments)) n n.
Proof.
  intros E. rewrite (compute_fragment_overlap_accepted _ _ _ _ E). intros H.
  eapply (foldM_value
            (fun a => has_shape3 a (length (partition_used (molecule (self w)) fragments)) n n));
    [|exact H|apply has_shape3_zeros].
  intros b a w0 b' w0'. apply overlap_step_shape.
Qed.

(** X1. Whenever [compute_fragment_overlap] returns, the stack it returns
    has one matrix per fragment of the partition in use, and each matrix
    is square of the size of the declared electron count of the spin. *)
Theorem compute_fragment_overlap_shape
    (w : World) (fragments : option (list fragment)) (spin : option string)
    (arr : ndarray3) (w' : World) :
  compute_fragment_overlap fragments spin w = (Ok arr, w') ->
  exists N,
    declared_count (molecule (self w)) (spin_arg spin) = Some N /\
    has_shape3 arr (length (partition_used (molecule (self w)) fragments)) N N.
Proof.
  intros H.
  destruct (declared_count (molecule (self w)) (spin_arg spin)) as [n|] eqn:E.
  - exists n. split; [done|]. by eapply compute_fragment_overlap_shape_of_count.
  - rewrite (compute_fragment_overlap_rejected _ _ _ E) in H. discriminate.
Qed.

(** X1, witness. *)
Lemma compute_fragment_overlap_shape_witness :
  exists N,
    declared_count (molecule (self Examples.he2)) "a" = Some N /\
    has_shape3 [[[Examples.half; Examples.half]; [Examples.half; Examples.half]];
                [[Examples.half; Examples.half]; [Examples.half; Examples.half]]] 2 N N.
Proof.
  apply (compute_fragment_overlap_shape Examples.he2 None (Some "a"%string) _
           (snd (compute_fragment_overlap None (Some "a"%string) Examples.he2))).
  apply run_eta. vm_compute. reflexivity.
Defined.

(** X2. For a spin channel with no electron, [compute_fragment_overlap]
    returns one empty matrix per fragment and stores the partition; the
    loop body is never entered, so the condensation operator is not
    called and no orbital is read, whatever the provider returns. *)
Theorem compute_fragment_overlap_no_electron
    (w : World) (fragments : option (list fragment)) (spin : option string) :
  declared_count (molecule (self w)) (spin_arg spin) = Some 0 ->
  let frags := partition_used (molecule (self w)) fragments in
  compute_fragment_overlap fragments spin w =
  (Ok (replicate (length frags) []), update_frags (Some frags) w).
Proof.
  intros H frags. by rewrite (compute_fragment_overlap_accepted _ _ _ _ H).
Qed.

(** X2, witness. *)
Lemma compute_fragment_overlap_no_electron_witness :
  compute_fragment_overlap None (Some "a"%string) Examples.proton =
  (Ok [[]], update_frags (Some [[0%Z]]) Examples.proton).
Proof.
  apply (compute_fragment_overlap_no_electron Examples.proton None (Some "a"%string)).
  reflexivity.
Defined.

(** X3. With the empty partition [[]] and enough orbitals,
    [compute_fragment_overlap] returns the empty stack, but it still makes
    every one of the N(N+1)/2 condensation calls, each with the empty
    partition; what the condensation returns is never read. *)
Theorem compute_fragment_overlap_no_fragment (w : World) (spin : string) (N : nat) :
  let orbitals := orbitals_of (self w) spin in
  declared_count (molecule (self w)) spin = Some N ->
  N <= fst (shape orbitals) ->
  exists w',
    compute_fragment_overlap (Some []) (Some spin) w = (Ok [], w') /\
    calls w' = calls w ++ map (overlap_call orbitals []) (combinations_with_replacement_2 N) /\
    length (calls w') = length (calls w) + N * (N + 1) / 2.
Proof.
  intros orbitals HN Horb.
  destruct (overlap_loop_run orbitals [] N (update_frags (Some []) w))
    as (arr & w' & Hrun & _ & _ & Hc & _); [done | intros fld; simpl; lia |].
  rewrite (compute_fragment_overlap_accepted w (Some []) (Some spin) N HN).
  change (spin_arg (Some spin)) with spin. simpl partition_used. fold orbitals.
  assert (Harr : arr = []).
  { apply nil_length_inv.
    eapply (foldM_value (fun a => has_shape3 a 0 N N)); [|exact Hrun|apply (has_shape3_zeros 0)].
    intros b a w0 b' w0'. apply overlap_step_shape. }
  subst arr. exists w'. split; [exact Hrun|]. split; [exact Hc|].
  by rewrite Hc, length_app, length_map, length_combinations.
Qed.

(** X3, witness. *)
Lemma compute_fragment_overlap_no_fragment_witness :
  exists w',
    compute_fragment_overlap (Some []) (Some "a"%string) Examples.he2 = (Ok [], w') /\
    length (calls w') = 3.
Proof.
  destruct (compute_fragment_overlap_no_fragment Examples.he2 "a" 2)
    as (w' & Hrun & _ & Hlen); [reflexivity | cbn; lia |].
  exists w'. split; [exact Hrun | exact Hlen].
Defined.

Lemma overlap_step_effects (orbitals : ndarray2) (frags : list fragment)
    (arr : ndarray3) (ij : nat * nat) (w : World) (r : result ndarray3) (w' : World) :
  overlap_step orbitals frags arr ij w = (r, w') ->
  w' = w \/
  w' = {| self := self w;
          calls := calls w ++ [overlap_call orbitals frags ij];
          stdout := stdout w |}.
Proof.
  destruct ij as [i j]. unfold overlap_step, getrow. intros H.
  destruct (i <? fst (shape orbitals)); [|inversion H; by left].
  destruct (j <? fst (shape orbitals)); [|inversion H; by left].
  unfold mbind at 1 2, M_bind, mret, M_ret in H. simpl in H.
  unfold mbind at 1, M_bind, call_condense in H.
  apply write_pairs_world in H. by right.
Qed.

(** X4. However a call of [compute_fragment_overlap] ends, it leaves the
    molecule, the partitioning, the grid and the output as they were, and
    every call it made to the condensation operator was made with the
    partition in use and weight power 2, after the calls made before. For
    an accepted spin tag [self._frags] holds the partition in use
    afterwards, also when the call raised in the loop; for any other tag
    [self._frags] is untouched. *)
Theorem compute_fragment_overlap_effects
    (w : World) (fragments : option (list fragment)) (spin : option string)
    (r : result ndarray3) (w' : World) :
  compute_fragment_overlap fragments spin w = (r, w') ->
  let mol := molecule (self w) in
  let frags := partition_used mol fragments in
  molecule (self w') = mol /\ part (self w') = part (self w) /\
  grid (self w') = grid (self w) /\ stdout w' = stdout w /\
  _frags (self w') =
    match declared_count mol (spin_arg spin) with
    | Some _ => Some frags
    | None => _frags (self w)
    end /\
  exists new,
    calls w' = calls w ++ new /\
    Forall (fun c => call_frags c = frags /\ call_w_power c = 2%Z) new.
Proof.
  intros Hrun mol frags.
  destruct (declared_count mol (spin_arg spin)) as [n|] eqn:E.
  - rewrite (compute_fragment_overlap_accepted _ _ _ _ E) in Hrun. fold mol frags in Hrun.
    set (w1 := update_frags (Some frags) w) in Hrun.
    apply (foldM_preserves
             (fun w' => self w' = self w1 /\ stdout w' = stdout w1 /\
                        exists new, calls w' = calls w1 ++ new /\
                          Forall (fun c => call_frags c = frags /\ call_w_power c = 2%Z) new)
             _ _) in Hrun.
    + destruct Hrun as (-> & -> & Hnew). repeat split; done.
    + intros b a w0 r0 w0' E0 (Hs & Ho & new & Hc & Hall).
      apply overlap_step_effects in E0 as [->| ->]; [by eauto 6|].
      simpl. repeat split; [done..|].
      exists (new ++ [overlap_call (orbitals_of (self w) (spin_arg spin)) frags a]).
      split; [by rewrite Hc, app_assoc|].
      apply Forall_app. split; [done|]. by repeat constructor.
    + repeat split. exists []. by rewrite app_nil_r.
  - rewrite (compute_fragment_overlap_rejected _ _ _ E) in Hrun.
    inversion Hrun; subst. repeat split. exists []. by rewrite app_nil_r.
Qed.

(** X4, witness: two electrons declared, one orbital returned. The call
    raises, and the default partition has been stored. *)
Lemma compute_fragment_overlap_effects_witness :
  _frags (self (snd (compute_fragment_overlap None (Some "a"%string)
                       Examples.h2_one_orbital))) = Some [[0%Z]; [1%Z]].
Proof.
  destruct (compute_fragment_overlap_effects Examples.h2_one_orbital None (Some "a"%string)
              (Raise IndexError)
              (snd (compute_fragment_overlap None (Some "a"%string) Examples.h2_one_orbital)))
    as (_ & _ & _ & _ & H & _).
  - apply run_pair. vm_compute. reflexivity.
  - exact H.
Defined.

Lemma overlap_step_raise (orbitals : ndarray2) (frags : list fragment)
    (arr : ndarray3) (ij : nat * nat) (w : World) (e : exn) (w' : World) :
  overlap_step orbitals frags arr ij w = (Raise e, w') -> e = IndexError.
Proof.
  destruct ij as [i j]. unfold overlap_step, getrow. intros H.
  destruct (i <? fst (shape orbitals)); [|by inversion H].
  destruct (j <? fst (shape orbitals)); [|by inversion H].
  unfold mbind at 1 2, M_bind, mret, M_ret in H. simpl in H.
  unfold mbind at 1, M_bind, call_condense in H.
  revert H. apply (foldM_raise (fun e => e = IndexError)).
  intros b a w0 e0 w0' H. unfold write_pair, getitem in H.
  destruct (_ !! a); [discriminate | by inversion H].
Qed.

(** X5. [compute_fragment_overlap] raises only two kinds of exception:
    the error of the [else] branch, exactly for a spin tag that is not
    accepted, and an index error, which for an accepted tag means that
    the provider returned fewer orbitals than the declared electron count
    or that some condensation returned fewer scalars than there are
    fragments. *)
Theorem compute_fragment_overlap_exceptions
    (w : World) (fragments : option (list fragment)) (spin : option string)
    (e : exn) (w' : World) :
  compute_fragment_overlap fragments spin w = (Raise e, w') ->
  let mol := molecule (self w) in
  let frags := partition_used mol fragments in
  (declared_count mol (spin_arg spin) = None /\
   e = NotImplementedError "Not clear what to do here!" /\ w' = w) \/
  (exists N,
     declared_count mol (spin_arg spin) = Some N /\ e = IndexError /\
     ~ (N <= fst (shape (orbitals_of (self w) (spin_arg spin))) /\
        forall fld, length frags <= length (condense_to_fragments (part (self w)) fld frags 2%Z))).
Proof.
  intros Hrun mol frags.
  destruct (declared_count mol (spin_arg spin)) as [n|] eqn:E.
  - right. exists n. split; [done|].
    rewrite (compute_fragment_overlap_accepted _ _ _ _ E) in Hrun. fold mol frags in Hrun.
    split.
    + revert Hrun. apply (foldM_raise (fun e => e = IndexError)).
      intros b a w0 e0 w0'. apply overlap_step_raise.
    + intros [Horb Hcond].
      destruct (overlap_loop_run (orbitals_of (self w) (spin_arg spin)) frags n
                  (update_frags (Some frags) w) Horb Hcond) as (arr & w1 & Hok & _).
      rewrite Hok in Hrun. discriminate.
  - left. rewrite (compute_fragment_overlap_rejected _ _ _ E) in Hrun.
    inversion Hrun; by subst.
Qed.

(** X5, witness: a condensation that returns no scalar. *)
Lemma compute_fragment_overlap_exceptions_witness :
  fst (compute_fragment_overlap None (Some "a"%string) Examples.h2_empty_part) =
    Raise IndexError /\
  ~ (forall fld : Field,
       2 <= length (condense_to_fragments Examples.empty_part fld [[0%Z]; [1%Z]] 2%Z)).
Proof.
  destruct (compute_fragment_overlap_exceptions Examples.h2_empty_part None (Some "a"%string)
              IndexError
              (snd (compute_fragment_overlap None (Some "a"%string) Examples.h2_empty_part)))
    as [(H & _)|(N & HN & _ & Hnot)].
  - apply run_pair. vm_compute. reflexivity.
  - discriminate H.
  - split; [vm_compute; reflexivity|].
    intros Hall. apply Hnot. inversion HN; subst N. split; [cbn; lia | exact Hall].
Defined.

(** * Further properties of [compute_fragment_occupation] *)

(** X6. A call of [compute_fragment_occupation] that returns has printed
    exactly one record, labelled 'alpha occupations' whatever the spin
    (also for spin 'b'), holding the returned values; these are the
    answer of the decomposition on the stack that
    [compute_fragment_overlap] built, one square matrix per fragment. A
    call that raises has printed nothing. *)
Theorem compute_fragment_occupation_output
    (svd : ndarray3 -> result (list (list float64)))
    (w : World) (fragments : option (list fragment)) (spin : option string)
    (r : result (list (list float64))) (w' : World) :
  compute_fragment_occupation svd fragments spin w = (r, w') ->
  stdout w' = stdout w ++ printed r /\
  (forall s, r = Ok s ->
     exists arr w1 N,
       compute_fragment_overlap fragments spin w = (Ok arr, w1) /\
       svd arr = Ok s /\
       declared_count (molecule (self w)) (spin_arg spin) = Some N /\
       has_shape3 arr (length (partition_used (molecule (self w)) fragments)) N N /\
       self w' = self w1 /\ calls w' = calls w1).
Proof.
  rewrite compute_fragment_occupation_bind.
  destruct (compute_fragment_overlap fragments spin w) as [[arr|e] w1] eqn:E.
  - pose proof (compute_fragment_overlap_preserves _ _ _ _ _ E) as (_ & _ & _ & Hout).
    destruct (svd arr) as [s|e] eqn:Es; intros H; inversion H; subst; simpl.
    + split; [by rewrite Hout|]. intros s' Hs'. inversion Hs'; subst s'.
      destruct (declared_count (molecule (self w)) (spin_arg spin)) as [n|] eqn:En.
      * exists arr, w1, n. repeat split; try done.
        all: by apply (compute_fragment_overlap_shape_of_count _ _ _ _ _ _ En E).
      * rewrite (compute_fragment_overlap_rejected _ _ _ En) in E. discriminate.
    + split; [by rewrite app_nil_r|]. discriminate.
  - pose proof (compute_fragment_overlap_preserves _ _ _ _ _ E) as (_ & _ & _ & Hout).
    intros H; inversion H; subst. simpl. split; [by rewrite app_nil_r|]. discriminate.
Qed.

(** X6, witness: the beta channel of dihydrogen. *)
Lemma compute_fragment_occupation_output_witness :
  stdout (snd (compute_fragment_occupation Examples.svd_diagonal None (Some "b"%string)
                 Examples.h2)) =
  [("alpha occupations"%string, [[Examples.half]; [Examples.half]])].
Proof.
  destruct (compute_fragment_occupation_output Examples.svd_diagonal Examples.h2 None
              (Some "b"%string) (Ok [[Examples.half]; [Examples.half]])
              (snd (compute_fragment_occupation Examples.svd_diagonal None (Some "b"%string)
                      Examples.h2))) as [H _].
  - apply run_pair. vm_compute. reflexivity.
  - exact H.
Defined.

(** * Further properties of [compute_oxidation_state] *)

(** The method as the composition of its steps, when both occupation
    calls return. *)
Lemma compute_oxidation_state_after
    (svd : ndarray3 -> result (list (list float64)))
    (w : World) (fragments : option (list fragment))
    (s_a s_b : list (list float64)) (w1 w2 : World) :
  compute_fragment_occupation svd fragments (Some "a"%string) w = (Ok s_a, w1) ->
  compute_fragment_occupation svd fragments (Some "b"%string) w1 = (Ok s_b, w2) ->
  let mol := molecule (self w) in
  let frags := partition_used mol fragments in
  get_frags w2 = (Ok frags, w2) /\
  compute_oxidation_state svd fragments w =
  (z ← z_frag (numbers mol) frags;
   mret (array_sub3 z (occs_frag s_a (fst (nelectrons mol)) (length frags))
                      (occs_frag s_b (snd (nelectrons mol)) (length frags)))) w2.
Proof.
  intros Ha Hb mol frags.
  pose proof (compute_fragment_occupation_preserves _ _ _ _ _ _ Ha) as (Hm1 & _).
  pose proof (compute_fragment_occupation_self _ _ _ _ _ _ Hb) as Hself.
  rewrite Hm1 in Hself. fold mol frags in Hself.
  assert (Hg : get_frags w2 = (Ok frags, w2)) by (unfold get_frags; by rewrite Hself).
  split; [exact Hg|].
  rewrite compute_oxidation_state_bind.
  rewrite (bind_Ok _ _ _ _ _ Ha), (bind_Ok _ _ _ _ _ Hb).
  unfold oxidation_of. fold mol. by rewrite (bind_Ok _ _ _ _ _ Hg).
Qed.

Lemma sum_occs_frag (s : list (list float64)) (n f : nat) :
  length s <= f ->
  sum_list (occs_frag s n f) = n `min` sum_list (length <$> s).
Proof.
  intros Hf.
  assert (Hperm : sorted_occupations s ≡ₚ flatten_occupations s)
    by apply py_sorted_reverse_Permutation.
  unfold occs_frag. rewrite sum_count_occ.
  - rewrite length_take. unfold occs.
    by rewrite length_map, Hperm, length_flatten_occupations.
  - apply Forall_take. unfold occs. apply Forall_fmap, Forall_forall.
    intros p Hp. rewrite Hperm in Hp.
    apply elem_of_flatten_occupations in Hp as (row & Hrow & _). simpl.
    apply lookup_lt_Some in Hrow. lia.
Qed.

Lemma sum_sub3 (z : list Z) (a b : list nat) :
  length a = length z -> length b = length z ->
  foldr Z.add 0%Z (zip_with Z.sub (zip_with Z.sub z (map Z.of_nat a)) (map Z.of_nat b)) =
  (foldr Z.add 0 z - Z.of_nat (sum_list a) - Z.of_nat (sum_list b))%Z.
Proof.
  revert a b. induction z as [|x z IH]; intros [|y a] [|y' b] Ha Hb; try discriminate.
  - reflexivity.
  - simpl in Ha, Hb. simpl. rewrite IH by lia. lia.
Qed.

Lemma assignment_count_le_n (s : list (list float64)) (n i : nat) :
  assignment_count s n i <= n.
Proof.
  unfold assignment_count. etrans; [apply length_filter|]. rewrite length_take. lia.
Qed.

(** When the charge of every fragment fits, no subtraction of lines 159
    and 160 wraps around. *)
Lemma compute_oxidation_state_exact
    (svd : ndarray3 -> result (list (list float64)))
    (w : World) (fragments : option (list fragment))
    (s_a s_b : list (list float64)) (w1 w2 : World) :
  let mol := molecule (self w) in
  let frags := partition_used mol fragments in
  let na := fst (nelectrons mol) in
  let nb := snd (nelectrons mol) in
  compute_fragment_occupation svd fragments (Some "a"%string) w = (Ok s_a, w1) ->
  compute_fragment_occupation svd fragments (Some "b"%string) w1 = (Ok s_b, w2) ->
  Forall (valid_fragment (numbers mol)) frags ->
  Forall (charge_fits (numbers mol) na nb) frags ->
  compute_oxidation_state svd fragments w =
  (Ok (zip_with Z.sub
         (zip_with Z.sub (map (fragment_charge (numbers mol)) frags)
            (map Z.of_nat (occs_frag s_a na (length frags))))
         (map Z.of_nat (occs_frag s_b nb (length frags)))), w2).
Proof.
  intros mol frags na nb Ha Hb Hvalid Hfits.
  destruct (compute_oxidation_state_values svd w fragments s_a s_b w1 w2 Ha Hb Hvalid)
    as (ox & Hrun & Hlen & Hval).
  fold mol frags in Hrun, Hlen, Hval. rewrite Hrun. do 2 f_equal.
  apply list_eq. intros i.
  destruct (frags !! i) as [frag|] eqn:Hi.
  - rewrite (Hval i frag Hi). fold na nb.
    pose proof (lookup_lt_Some _ _ _ Hi) as Hlt.
    rewrite !lookup_zip_with.
    change (map ?f ?l) with (f <$> l). rewrite !list_lookup_fmap, Hi.
    rewrite !occs_frag_lookup by done. simpl. f_equal.
    apply int64_small.
    pose proof (proj1 (Forall_forall _ _) Hfits frag (list_elem_of_lookup_2 _ _ _ Hi)) as Hfit.
    pose proof (assignment_count_le_n s_a na i).
    pose proof (assignment_count_le_n s_b nb i).
    unfold charge_fits in Hfit. unfold in_int64. lia.
  - apply lookup_ge_None in Hi.
    rewrite (proj2 (lookup_ge_None ox i)) by lia. symmetry.
    apply lookup_ge_None. rewrite !length_zip_with, !length_map. lia.
Qed.

(** X7. Electron bookkeeping. When both decompositions return at most
    one occupation array per fragment and at least as many occupation
    numbers as the spin has electrons, and the nuclear charge of every
    fragment fits in an [int64] with all electrons taken away, the
    oxidation states returned sum to the nuclear charges of all fragments
    minus the numbers of alpha and beta electrons: every electron is
    assigned to exactly one fragment. *)
Theorem oxidation_states_sum
    (svd : ndarray3 -> result (list (list float64)))
    (w : World) (fragments : option (list fragment))
    (s_a s_b : list (list float64)) (w1 w2 : World) :
  let mol := molecule (self w) in
  let frags := partition_used mol fragments in
  compute_fragment_occupation svd fragments (Some "a"%string) w = (Ok s_a, w1) ->
  compute_fragment_occupation svd fragments (Some "b"%string) w1 = (Ok s_b, w2) ->
  Forall (valid_fragment (numbers mol)) frags ->
  Forall (charge_fits (numbers mol) (fst (nelectrons mol)) (snd (nelectrons mol))) frags ->
  length s_a <= length frags -> length s_b <= length frags ->
  fst (nelectrons mol) <= sum_list (length <$> s_a) ->
  snd (nelectrons mol) <= sum_list (length <$> s_b) ->
  exists ox,
    compute_oxidation_state svd fragments w = (Ok ox, w2) /\
    foldr Z.add 0%Z ox =
    (foldr Z.add 0 (map (fragment_charge (numbers mol)) frags)
     - Z.of_nat (fst (nelectrons mol)) - Z.of_nat (snd (nelectrons mol)))%Z.
Proof.
  intros mol frags Ha Hb Hvalid Hfits Hla Hlb Hna Hnb.
  eexists. split;
    [exact (compute_oxidation_state_exact svd w fragments s_a s_b w1 w2 Ha Hb Hvalid Hfits)|].
  fold mol frags. rewrite sum_sub3.
  - rewrite !sum_occs_frag by done. f_equal; [f_equal|]; f_equal; lia.
  - unfold occs_frag. by rewrite !length_map, length_seq.
  - unfold occs_frag. by rewrite !length_map, length_seq.
Qed.

(** X7, witness: dihydrogen; the states 1 and -1 sum to 2 - 1 - 1. *)
Lemma oxidation_states_sum_witness :
  exists ox,
    fst (compute_oxidation_state Examples.svd_diagonal None Examples.h2) = Ok ox /\
    foldr Z.add 0%Z ox = 0%Z.
Proof.
  pose (w1 := snd (compute_fragment_occupation Examples.svd_diagonal None
                     (Some "a"%string) Examples.h2)).
  pose (w2 := snd (compute_fragment_occupation Examples.svd_diagonal None
                     (Some "b"%string) w1)).
  destruct (oxidation_states_sum Examples.svd_diagonal Examples.h2 None
              [[Examples.half]; [Examples.half]] [[Examples.half]; [Examples.half]] w1 w2)
    as (ox & Hrun & Hsum).
  - apply run_eta. vm_compute. reflexivity.
  - apply run_eta. vm_compute. reflexivity.
  - repeat (constructor; try (cbn; lia)).
  - constructor; [vm_compute; split; [discriminate | reflexivity]|].
    constructor; [vm_compute; split; [discriminate | reflexivity]|]. constructor.
  - cbn. lia.
  - cbn. lia.
  - cbn. lia.
  - cbn. lia.
  - exists ox. split; [by rewrite Hrun | exact Hsum].
Defined.

Lemma getitem_int_invalid (l : list Z) (k : Z) (w : World) :
  out_of_range (length l) k -> getitem_int l k w = (Raise IndexError, w).
Proof.
  unfold out_of_range, getitem_int, getitem. intros Hk.
  destruct (Z.ltb_spec k 0) as [Hneg|Hpos].
  - destruct (Z.ltb_spec (k + Z.of_nat (length l)) 0) as [H|H]; [done | lia].
  - rewrite (proj2 (Z.ltb_ge k 0)) by lia.
    rewrite (proj2 (lookup_ge_None l (Z.to_nat k))) by lia. done.
Qed.

(** A comprehension whose items either evaluate without effect or raise
    [e] without effect raises [e] as soon as one of them does. *)
Lemma mapM_raise {A B : Type} (f : A -> M B) (e : exn) (l : list A) (w : World) :
  Forall (fun a => (exists b, f a w = (Ok b, w)) \/ f a w = (Raise e, w)) l ->
  Exists (fun a => f a w = (Raise e, w)) l ->
  mapM f l w = (Raise e, w).
Proof.
  induction 1 as [|a l Ha Hl IH]; intros Hex; [by inversion Hex|].
  simpl. destruct Ha as [[b Hb]|Hr].
  - rewrite (bind_Ok _ _ _ _ _ Hb).
    apply Exists_cons in Hex as [Hex|Hex]; [congruence|].
    by rewrite (bind_Raise _ _ _ _ _ (IH Hex)).
  - by rewrite (bind_Raise _ _ _ _ _ Hr).
Qed.

Lemma getitem_int_cases (l : list Z) (k : Z) (w : World) :
  (exists z, getitem_int l k w = (Ok z, w)) \/ getitem_int l k w = (Raise IndexError, w).
Proof.
  destruct (decide (- Z.of_nat (length l) <= k < Z.of_nat (length l))%Z) as [H|H].
  - left. eexists. by apply getitem_int_valid.
  - right. apply getitem_int_invalid. unfold out_of_range. lia.
Qed.

Lemma mapM_getitem_int_invalid (numbers : list Z) (frag : fragment) (w : World) :
  Exists (out_of_range (length numbers)) frag ->
  mapM (getitem_int numbers) frag w = (Raise IndexError, w).
Proof.
  intros Hex. apply mapM_raise.
  - apply Forall_forall. intros k _. apply getitem_int_cases.
  - eapply Exists_impl; [exact Hex|]. intros k Hk. by apply getitem_int_invalid.
Qed.

Lemma fragment_sum_cases (numbers : list Z) (frag : fragment) (w : World) :
  (exists z, (zs ← mapM (getitem_int numbers) frag; mret (sum_int zs) : M Z) w = (Ok z, w)) \/
  (zs ← mapM (getitem_int numbers) frag; mret (sum_int zs) : M Z) w = (Raise IndexError, w).
Proof.
  destruct (decide (Forall (fun k => (- Z.of_nat (length numbers) <= k
                                      < Z.of_nat (length numbers))%Z) frag)) as [H|H].
  - left. eexists.
    assert (E : mapM (getitem_int numbers) frag w =
                (Ok (map (fun k => nth (atom_of_index (length numbers) k) numbers 0%Z) frag), w)).
    { apply mapM_Ok. eapply Forall_impl; [exact H|].
      intros k Hk. by apply getitem_int_valid. }
    rewrite (bind_Ok _ _ _ _ _ E). reflexivity.
  - right. apply not_Forall_Exists in H; [|intros k; apply _].
    assert (E : mapM (getitem_int numbers) frag w = (Raise IndexError, w)).
    { apply mapM_getitem_int_invalid. eapply Exists_impl; [exact H|].
      intros k Hk. unfold out_of_range. simpl in Hk. lia. }
    by rewrite (bind_Raise _ _ _ _ _ E).
Qed.

Lemma z_frag_invalid (numbers : list Z) (frags : list fragment) (w : World) :
  Exists (Exists (out_of_range (length numbers))) frags ->
  z_frag numbers frags w = (Raise IndexError, w).
Proof.
  intros Hex. unfold z_frag. apply mapM_raise.
  - apply Forall_forall. intros frag _. apply fragment_sum_cases.
  - eapply Exists_impl; [exact Hex|]. intros frag Hfrag. simpl.
    by rewrite (bind_Raise _ _ _ _ _ (mapM_getitem_int_invalid _ _ w Hfrag)).
Qed.

(** X8. Atom indices are checked only by the indexing of
    [self.molecule.numbers], at the end: when some fragment holds an
    index that the molecule does not have (at least the number of atoms,
    or below minus that number), [compute_oxidation_state] raises an
    index error, and it does so after both occupation computations have
    been carried out in full. *)
Theorem compute_oxidation_state_bad_atom_index
    (svd : ndarray3 -> result (list (list float64)))
    (w : World) (fragments : option (list fragment))
    (s_a s_b : list (list float64)) (w1 w2 : World) :
  let mol := molecule (self w) in
  let frags := partition_used mol fragments in
  compute_fragment_occupation svd fragments (Some "a"%string) w = (Ok s_a, w1) ->
  compute_fragment_occupation svd fragments (Some "b"%string) w1 = (Ok s_b, w2) ->
  Exists (Exists (out_of_range (length (numbers mol)))) frags ->
  compute_oxidation_state svd fragments w = (Raise IndexError, w2).
Proof.
  intros mol frags Ha Hb Hbad.
  destruct (compute_oxidation_state_after svd w fragments s_a s_b w1 w2 Ha Hb) as [_ ->].
  fold mol frags. by rewrite (bind_Raise _ _ _ _ _ (z_frag_invalid _ _ w2 Hbad)).
Qed.

(** X8, witness: dihydrogen with the fragment [[0, 2]]. *)
Lemma compute_oxidation_state_bad_atom_index_witness :
  exists w',
    compute_oxidation_state Examples.svd_diagonal (Some [[0; 2]%Z]) Examples.h2 =
      (Raise IndexError, w') /\
    length (calls w') = 2 /\ length (stdout w') = 2.
Proof.
  pose (w1 := snd (compute_fragment_occupation Examples.svd_diagonal (Some [[0; 2]%Z])
                     (Some "a"%string) Examples.h2)).
  pose (w2 := snd (compute_fragment_occupation Examples.svd_diagonal (Some [[0; 2]%Z])
                     (Some "b"%string) w1)).
  exists w2. split; [|split; vm_compute; reflexivity].
  apply (compute_oxidation_state_bad_atom_index Examples.svd_diagonal Examples.h2
           (Some [[0; 2]%Z]) [[Examples.half]] [[Examples.half]] w1 w2).
  - apply run_eta. vm_compute. reflexivity.
  - apply run_eta. vm_compute. reflexivity.
  - constructor. apply Exists_cons_tl. constructor. unfold out_of_range. cbn. lia.
Defined.

Lemma length_filter_flatten_from (s : list (list float64)) (k i : nat) :
  length (filter (fun p : float64 * nat => snd p = i)
            (mjoin (imap (fun j row => map (fun v => (v, k + j)) row) s))) =
  if decide (k <= i) then length (default [] (s !! (i - k))) else 0.
Proof.
  revert k. induction s as [|row s IH]; intros k.
  - simpl. by case_decide.
  - rewrite imap_cons. simpl mjoin. rewrite filter_app, length_app.
    rewrite (imap_ext _ (fun j row => map (fun v => (v, S k + j)) row))
      by (intros j x _; simpl; apply map_ext; intros v; f_equal; lia).
    rewrite IH. clear IH.
    assert (E : length (filter (fun p : float64 * nat => snd p = i)
                          (map (fun v => (v, k + 0)) row)) =
                if decide (k = i) then length row else 0).
    { induction row as [|v row IHr]; simpl; [by case_decide|].
      rewrite filter_cons. simpl. rewrite Nat.add_0_r in *.
      destruct (decide (k = i)); simpl; [by rewrite IHr | done]. }
    rewrite E.
    destruct (decide (k = i)) as [->|Hne].
    + rewrite (decide_False (P := S i <= i)) by lia.
      rewrite (decide_True (P := i <= i)) by lia. rewrite Nat.sub_diag. simpl. lia.
    + destruct (decide (k <= i)).
      * rewrite (decide_True (P := S k <= i)) by lia.
        replace (i - k) with (S (i - S k)) by lia. done.
      * rewrite (decide_False (P := S k <= i)) by lia. done.
Qed.

Lemma assignment_count_le (s : list (list float64)) (n i : nat) :
  assignment_count s n i <= n /\
  assignment_count s n i <= length (default [] (s !! i)).
Proof.
  unfold assignment_count. split.
  - etrans; [apply length_filter|]. rewrite length_take. lia.
  - assert (Hperm : sorted_occupations s ≡ₚ flatten_occupations s)
      by apply py_sorted_reverse_Permutation.
    rewrite <- (take_drop n (sorted_occupations s)) in Hperm.
    assert (E : length (filter (fun p : float64 * nat => snd p = i) (flatten_occupations s)) =
                length (default [] (s !! i))).
    { pose proof (length_filter_flatten_from s 0 i) as E0.
      rewrite decide_True, Nat.sub_0_r in E0 by lia. exact E0. }
    rewrite <- E, <- Hperm, filter_app, length_app. lia.
Qed.

(** X9. When the nuclear charge of a fragment fits in an [int64] with
    all electrons taken away, the oxidation state returned for it never
    exceeds the sum of the nuclear charges of its atoms, is never below
    that sum minus the numbers of alpha and beta electrons, and is never
    below that sum minus the numbers of alpha and beta occupation numbers
    the decompositions returned for this fragment: a fragment is assigned
    at most as many electrons as it has occupation numbers. *)
Theorem oxidation_state_bounds
    (svd : ndarray3 -> result (list (list float64)))
    (w : World) (fragments : option (list fragment))
    (s_a s_b : list (list float64)) (w1 w2 : World) (ox : list Z) :
  let mol := molecule (self w) in
  let frags := partition_used mol fragments in
  compute_fragment_occupation svd fragments (Some "a"%string) w = (Ok s_a, w1) ->
  compute_fragment_occupation svd fragments (Some "b"%string) w1 = (Ok s_b, w2) ->
  compute_oxidation_state svd fragments w = (Ok ox, w2) ->
  forall i frag v, frags !! i = Some frag -> ox !! i = Some v ->
    charge_fits (numbers mol) (fst (nelectrons mol)) (snd (nelectrons mol)) frag ->
    let z := fragment_charge (numbers mol) frag in
    (v <= z)%Z /\
    (z - Z.of_nat (fst (nelectrons mol)) - Z.of_nat (snd (nelectrons mol)) <= v)%Z /\
    (z - Z.of_nat (length (default [] (s_a !! i)))
       - Z.of_nat (length (default [] (s_b !! i))) <= v)%Z.
Proof.
  intros mol frags Ha Hb Hrun i frag v Hfrag Hv Hfit z.
  destruct (decide (Forall (valid_fragment (numbers mol)) frags)) as [Hvalid|Hbad].
  - destruct (compute_oxidation_state_values svd w fragments s_a s_b w1 w2 Ha Hb Hvalid)
      as (ox' & Hrun' & _ & Hval).
    rewrite Hrun in Hrun'. inversion Hrun'; subst ox'.
    rewrite (Hval i frag Hfrag) in Hv. fold mol z in Hv.
    pose proof (assignment_count_le s_a (fst (nelectrons mol)) i) as [? ?].
    pose proof (assignment_count_le s_b (snd (nelectrons mol)) i) as [? ?].
    unfold charge_fits in Hfit. fold z in Hfit.
    rewrite int64_small in Hv by (unfold in_int64; lia).
    injection Hv as <-. lia.
  - exfalso.
    destruct (compute_oxidation_state_after svd w fragments s_a s_b w1 w2 Ha Hb)
      as [_ Hsteps].
    fold mol frags in Hsteps. rewrite Hrun in Hsteps.
    apply not_Forall_Exists in Hbad; [|intros x; apply _].
    assert (Hex : Exists (Exists (out_of_range (length (numbers mol)))) frags).
    { eapply Exists_impl; [exact Hbad|]. intros fr Hfr.
      apply not_Forall_Exists in Hfr; [|intros x; apply _].
      eapply Exists_impl; [exact Hfr|]. intros k Hk. unfold out_of_range. simpl in Hk. lia. }
    rewrite (bind_Raise _ _ _ _ _ (z_frag_invalid _ _ w2 Hex)) in Hsteps. discriminate.
Qed.

(** X9, witness: dihydrogen; fragment 1 gets -1, between 1 - 1 - 1 and 1. *)
Lemma oxidation_state_bounds_witness :
  (-1 <= 1)%Z /\ (1 - 1 - 1 <= -1)%Z.
Proof.
  pose (w1 := snd (compute_fragment_occupation Examples.svd_diagonal None
                     (Some "a"%string) Examples.h2)).
  pose (w2 := snd (compute_fragment_occupation Examples.svd_diagonal None
                     (Some "b"%string) w1)).
  destruct (oxidation_state_bounds Examples.svd_diagonal Examples.h2 None
              [[Examples.half]; [Examples.half]] [[Examples.half]; [Examples.half]] w1 w2
              [1; -1]%Z) with (i := 1) (frag := [1%Z]) (v := (-1)%Z) as (H1 & H2 & _).
  - apply run_eta. vm_compute. reflexivity.
  - apply run_eta. vm_compute. reflexivity.
  - apply run_eta. vm_compute. reflexivity.
  - reflexivity.
  - reflexivity.
  - vm_compute. split; [discriminate | reflexivity].
  - split; [exact H1 | exact H2].
Defined.




Lemma compute_fragment_overlap_raise_accepted
    (w : World) (fragments : option (list fragment)) (spin : option string)
    (n : nat) (e : exn) (w' : World) :
  declared_count (molecule (self w)) (spin_arg spin) = Some n ->
  compute_fragment_overlap fragments spin w = (Raise e, w') -> e = IndexError.
Proof.
  intros E. rewrite (compute_fragment_overlap_accepted _ _ _ _ E).
  apply (foldM_raise (fun e => e = IndexError)).
  intros b a w0 e0 w0'. apply overlap_step_raise.
Qed.

Lemma compute_fragment_occupation_raise
    (svd : ndarray3 -> result (list (list float64)))
    (w : World) (fragments : option (list fragment)) (spin : option string)
    (n : nat) (e : exn) (w' : World) :
  declared_count (molecule (self w)) (spin_arg spin) = Some n ->
  compute_fragment_occupation svd fragments spin w = (Raise e, w') ->
  e = IndexError \/ exists arr, svd arr = Raise e.
Proof.
  intros E. rewrite compute_fragment_occupation_bind.
  destruct (compute_fragment_overlap fragments spin w) as [[arr|e0] w1] eqn:Ec.
  - destruct (svd arr) as [s|e1] eqn:Es; [discriminate|].
    intros H. inversion H; subst. right. by exists arr.
  - intros H. inversion H; subst. left.
    by eapply compute_fragment_overlap_raise_accepted.
Qed.

(** X11. [compute_oxidation_state] never raises the error of the unusable
    default spin, nor a type error for a partition that was never stored:
    an exception it raises is an index error (too few orbitals, too few
    condensed scalars, or an atom index the molecule does not have) or is
    the one the decomposition raised. *)
Theorem compute_oxidation_state_exceptions
    (svd : ndarray3 -> result (list (list float64)))
    (w : World) (fragments : option (list fragment)) (e : exn) (w' : World) :
  compute_oxidation_state svd fragments w = (Raise e, w') ->
  e = IndexError \/ exists arr, svd arr = Raise e.
Proof.
  intros Hrun.
  destruct (compute_fragment_occupation svd fragments (Some "a"%string) w)
    as [[s_a|e_a] w1] eqn:Ha.
  - destruct (compute_fragment_occupation svd fragments (Some "b"%string) w1)
      as [[s_b|e_b] w2] eqn:Hb.
    + destruct (compute_oxidation_state_after svd w fragments s_a s_b w1 w2 Ha Hb) as [_ Hsteps].
      rewrite Hrun in Hsteps. left.
      set (mol := molecule (self w)) in *. set (frags := partition_used mol fragments) in *.
      destruct (decide (Forall (valid_fragment (numbers mol)) frags)) as [Hvalid|Hbad].
      * rewrite (bind_Ok _ _ _ _ _ (z_frag_valid _ _ w2 Hvalid)) in Hsteps. discriminate.
      * apply not_Forall_Exists in Hbad; [|intros x; apply _].
        assert (Hex : Exists (Exists (out_of_range (length (numbers mol)))) frags).
        { eapply Exists_impl; [exact Hbad|]. intros fr Hfr.
          apply not_Forall_Exists in Hfr; [|intros x; apply _].
          eapply Exists_impl; [exact Hfr|]. intros k Hk.
          unfold out_of_range. simpl in Hk. lia. }
        rewrite (bind_Raise _ _ _ _ _ (z_frag_invalid _ _ w2 Hex)) in Hsteps.
        by inversion Hsteps.
    + rewrite compute_oxidation_state_bind in Hrun.
      rewrite (bind_Ok _ _ _ _ _ Ha), (bind_Raise _ _ _ _ _ Hb) in Hrun.
      inversion Hrun; subst.
      eapply (compute_fragment_occupation_raise svd w1 fragments (Some "b"%string)); [|exact Hb].
      reflexivity.
  - rewrite compute_oxidation_state_bind in Hrun.
    rewrite (bind_Raise _ _ _ _ _ Ha) in Hrun. inversion Hrun; subst.
    eapply (compute_fragment_occupation_raise svd w fragments (Some "a"%string)); [|exact Ha].
    reflexivity.
Qed.

(** X11, witness: two electrons declared, one orbital returned. *)
Lemma compute_oxidation_state_exceptions_witness :
  IndexError = IndexError \/ exists arr, Examples.svd_diagonal arr = Raise IndexError.
Proof.
  apply (compute_oxidation_state_exceptions Examples.svd_diagonal Examples.h2_one_orbital None
           IndexError
           (snd (compute_oxidation_state Examples.svd_diagonal None Examples.h2_one_orbital))).
  apply run_pair. vm_compute. reflexivity.
Defined.

(** * Repeated calls *)










(** * Conservation of charge from call to result *)






(** * The constructors of [densbased.py] *)

Lemma ndim_1 (a : numpy.ndarray) :
  numpy.ndim a = 1 <-> exists n, numpy.shape a = [n].
Proof.
  unfold numpy.ndim. split.
  - destruct (numpy.shape a) as [|n [|m l]]; try discriminate. by exists n.
  - by intros [n ->].
Qed.

Lemma size_1 (a : numpy.ndarray) (n : nat) : numpy.shape a = [n] -> numpy.size a = n.
Proof. unfold numpy.size. intros ->. simpl. lia. Qed.

(** The four checks of the chain of constructors, in the order in which
    they are made. *)
Lemma DensGradLapKedTool_init_checks (dens grad lap ked : numpy.ndarray) :
  densbased.DensGradLapKedTool_init dens grad lap ked =
  if decide (numpy.ndim dens <> 1)
  then numpy.Raises (numpy.ValueError
         (numpy.Literal "Argument dens should be a 1-dimensional array."))
  else if decide (numpy.shape grad <> [numpy.size dens; 3])
  then numpy.Raises (numpy.ValueError
         (numpy.Format "Argument grad should be of {0} shape."
            [numpy.Tuple [numpy.shape_object dens; numpy.Int 3]]))
  else if decide (numpy.shape lap <> numpy.shape dens)
  then numpy.Raises (numpy.ValueError
         (numpy.Format "Argument lap should be of {0} shape." [numpy.shape_object dens]))
  else if decide (numpy.shape lap <> numpy.shape ked)
  then numpy.Raises (numpy.ValueError
         (numpy.Format "Argument ked should be of {0} shape." [numpy.shape_object dens]))
  else numpy.Returns
         {| densbased.DensGradLapKedTool_super :=
              {| densbased.DensGradLapTool_super :=
                   {| densbased.DensGradTool_super := {| densbased._dens := dens |};
                      densbased._grad := grad |};
                 densbased._lap := lap |};
            densbased._ked := ked |}.
Proof.
  unfold densbased.DensGradLapKedTool_init, densbased.DensGradLapTool_init,
    densbased.DensGradTool_init, densbased.DensTool_init.
  repeat case_decide; reflexivity.
Qed.

(** X14. An object of [DensGradLapKedTool] is built exactly when the four
    arrays fit one number n of grid points: [dens], [lap] and [ked] of
    shape (n,) and [grad] of shape (n, 3). Every object built has these
    shapes, and its properties [density], [gradient], [laplacian] and
    [ked_positive_definite] are the arrays that were passed. *)
Theorem DensGradLapKedTool_init_returns (dens grad lap ked : numpy.ndarray) :
  ((exists self, densbased.DensGradLapKedTool_init dens grad lap ked = numpy.Returns self) <->
   (exists n, numpy.shape dens = [n] /\ numpy.shape grad = [n; 3] /\
              numpy.shape lap = [n] /\ numpy.shape ked = [n])) /\
  (forall self,
     densbased.DensGradLapKedTool_init dens grad lap ked = numpy.Returns self ->
     densbased.density self = dens /\ densbased.gradient self = grad /\
     densbased.laplacian self = lap /\ densbased.ked_positive_definite self = ked /\
     numpy.shape (densbased.gradient self) = [numpy.size (densbased.density self); 3] /\
     numpy.shape (densbased.laplacian self) = numpy.shape (densbased.density self) /\
     numpy.shape (densbased.ked_positive_definite self) =
       numpy.shape (densbased.density self)).
Proof.
  rewrite DensGradLapKedTool_init_checks. split; [split|].
  - intros [self H]. repeat case_decide; try discriminate.
    assert (Hd : numpy.ndim dens = 1) by lia.
    apply ndim_1 in Hd as [n Hd]. exists n.
    assert (Hg : numpy.shape grad = [numpy.size dens; 3])
      by (destruct (decide (numpy.shape grad = [numpy.size dens; 3])); [done | tauto]).
    assert (Hl : numpy.shape lap = numpy.shape dens)
      by (destruct (decide (numpy.shape lap = numpy.shape dens)); [done | tauto]).
    assert (Hk : numpy.shape lap = numpy.shape ked)
      by (destruct (decide (numpy.shape lap = numpy.shape ked)); [done | tauto]).
    rewrite (size_1 _ _ Hd) in Hg. rewrite <- Hk, Hl. done.
  - intros (n & Hd & Hg & Hl & Hk).
    assert (Hn : numpy.ndim dens = 1) by (apply ndim_1; by exists n).
    rewrite decide_False by lia.
    rewrite decide_False by (rewrite (size_1 _ _ Hd), Hg; tauto).
    rewrite decide_False by (rewrite Hl, Hd; tauto).
    rewrite decide_False by (rewrite Hl, Hk; tauto).
    by eexists.
  - intros self H. repeat case_decide; try discriminate.
    inversion H; subst self. simpl.
    assert (Hg : numpy.shape grad = [numpy.size dens; 3])
      by (destruct (decide (numpy.shape grad = [numpy.size dens; 3])); [done | tauto]).
    assert (Hl : numpy.shape lap = numpy.shape dens)
      by (destruct (decide (numpy.shape lap = numpy.shape dens)); [done | tauto]).
    assert (Hk : numpy.shape lap = numpy.shape ked)
      by (destruct (decide (numpy.shape lap = numpy.shape ked)); [done | tauto]).
    unfold densbased.density, densbased.gradient, densbased.laplacian,
      densbased.ked_positive_definite. simpl.
    repeat split; try done. by rewrite <- Hk.
Qed.

(** X14, witness: two grid points. *)
Lemma DensGradLapKedTool_init_returns_witness :
  exists self,
    densbased.DensGradLapKedTool_init
      (Examples.vector [Examples.one; Examples.half]) Examples.gradient_2
      (Examples.vector [Examples.half; Examples.half])
      (Examples.vector [Examples.half; Examples.one]) = numpy.Returns self /\
    densbased.density self = Examples.vector [Examples.one; Examples.half] /\
    numpy.shape (densbased.gradient self) = [2; 3].
Proof.
  destruct (DensGradLapKedTool_init_returns
              (Examples.vector [Examples.one; Examples.half]) Examples.gradient_2
              (Examples.vector [Examples.half; Examples.half])
              (Examples.vector [Examples.half; Examples.one])) as [[_ Hbuilt] Hobject].
  destruct Hbuilt as [self Hself]; [exists 2; repeat split; reflexivity|].
  exists self. split; [exact Hself|].
  destruct (Hobject self Hself) as (Hd & Hg & _ & _ & Hgs & _).
  split; [exact Hd|]. rewrite Hgs, Hd. reflexivity.
Defined.

(** X15. The constructor of [DensGradLapKedTool] raises only [ValueError],
    for the first argument, in the order [dens], [grad], [lap], [ked],
    that does not fit: [dens] when it is not one-dimensional, whatever the
    other arguments are; otherwise, with n the length of [dens], [grad]
    when its shape is not (n, 3), then [lap] and then [ked] when their
    shape is not (n,). The message names that argument and is formatted
    with the shape of [dens]. *)
Theorem DensGradLapKedTool_init_raises (dens grad lap ked : numpy.ndarray)
    (e : numpy.exception) :
  densbased.DensGradLapKedTool_init dens grad lap ked = numpy.Raises e <->
  (numpy.ndim dens <> 1 /\
   e = numpy.ValueError (numpy.Literal "Argument dens should be a 1-dimensional array.")) \/
  (exists n, numpy.shape dens = [n] /\
     ((numpy.shape grad <> [n; 3] /\
       e = numpy.ValueError
             (numpy.Format "Argument grad should be of {0} shape."
                [numpy.Tuple [numpy.Tuple [numpy.Int n]; numpy.Int 3]])) \/
      (numpy.shape grad = [n; 3] /\ numpy.shape lap <> [n] /\
       e = numpy.ValueError
             (numpy.Format "Argument lap should be of {0} shape."
                [numpy.Tuple [numpy.Int n]])) \/
      (numpy.shape grad = [n; 3] /\ numpy.shape lap = [n] /\ numpy.shape ked <> [n] /\
       e = numpy.ValueError
             (numpy.Format "Argument ked should be of {0} shape."
                [numpy.Tuple [numpy.Int n]])))).
Proof.
  rewrite DensGradLapKedTool_init_checks. split.
  - intros H. destruct (decide (numpy.ndim dens <> 1)) as [Hd|Hd].
    + left. split; [done|]. by inversion H.
    + right. assert (Hd' : numpy.ndim dens = 1) by lia.
      apply ndim_1 in Hd' as [n Hn]. exists n. split; [done|].
      unfold numpy.shape_object in H. rewrite (size_1 _ _ Hn), Hn in H. simpl in H.
      destruct (decide (numpy.shape grad <> [n; 3])) as [Hg|Hg].
      { left. split; [done|]. by inversion H. }
      right. assert (Hg' : numpy.shape grad = [n; 3])
        by (destruct (decide (numpy.shape grad = [n; 3])); [done | tauto]).
      destruct (decide (numpy.shape lap <> [n])) as [Hl|Hl].
      { left. split; [done|]. split; [done|]. by inversion H. }
      right. assert (Hl' : numpy.shape lap = [n])
        by (destruct (decide (numpy.shape lap = [n])); [done | tauto]).
      destruct (decide (numpy.shape lap <> numpy.shape ked)) as [Hk|Hk]; [|discriminate].
      split; [done|]. split; [done|]. split; [congruence|]. by inversion H.
  - intros [[Hd ->]|(n & Hn & H)].
    + by rewrite decide_True.
    + assert (Hd : numpy.ndim dens = 1) by (apply ndim_1; by exists n).
      rewrite decide_False by lia.
      unfold numpy.shape_object. rewrite (size_1 _ _ Hn), Hn. simpl.
      destruct H as [[Hg ->]|[(Hg & Hl & ->)|(Hg & Hl & Hk & ->)]].
      * by rewrite decide_True.
      * rewrite decide_False by tauto. by rewrite decide_True.
      * rewrite decide_False by tauto. rewrite decide_False by tauto.
        rewrite decide_True by congruence. done.
Qed.

(** X15, witness: a density given as a (2, 3) array is refused, whatever
    the other arguments are. *)
Lemma DensGradLapKedTool_init_raises_witness :
  densbased.DensGradLapKedTool_init Examples.gradient_2 Examples.gradient_2
    Examples.gradient_2 Examples.gradient_2 =
  numpy.Raises (numpy.ValueError
    (numpy.Literal "Argument dens should be a 1-dimensional array.")).
Proof.
  apply (proj2 (DensGradLapKedTool_init_raises Examples.gradient_2 Examples.gradient_2
                  Examples.gradient_2 Examples.gradient_2 _)).
  left. split; [cbn; lia | reflexivity].
Defined.

(** * [DensGradLapKedTool.ked_general] *)

Lemma vanishing_term (x : float64) :
  SFdiv 53 1024 (f64_mul x (SFsub 53 1024 densbased.f64_1 densbased.f64_1)) densbased.f64_4 =
  match x with
  | S754_zero s => S754_zero s
  | S754_finite s _ _ => S754_zero s
  | _ => S754_nan
  end.
Proof.
  change (SFsub 53 1024 densbased.f64_1 densbased.f64_1) with (S754_zero false).
  destruct x as [[]|[]| |[] m e]; reflexivity.
Qed.

(** X20. [ked_general] at a = 1, where the formula reduces to the
    positive definite kinetic energy density. On an object that the
    constructor built, the result has the shape of the density. At a
    point where the Laplacian is finite the result is the stored kinetic
    energy density, except that a stored -0.0 may come back as 0.0; at a
    point where the Laplacian is infinite or NaN the result is NaN,
    although the coefficient of the Laplacian vanishes. *)
Theorem ked_general_one (dens grad lap ked : numpy.ndarray)
    (self : densbased.DensGradLapKedTool) :
  densbased.DensGradLapKedTool_init dens grad lap ked = numpy.Returns self ->
  let result := densbased.ked_general self densbased.f64_1 in
  numpy.shape result = numpy.shape dens /\
  forall j,
    if is_finite (numpy.item lap j)
    then numpy.item result j = numpy.item ked j \/
         (numpy.item ked j = S754_zero true /\ numpy.item result j = S754_zero false)
    else numpy.item result j = S754_nan.
Proof.
  rewrite DensGradLapKedTool_init_checks. intros H.
  repeat case_decide; try discriminate. inversion H; subst self. clear H.
  split; [simpl; congruence|].
  intros j.
  unfold densbased.ked_general, densbased.laplacian, densbased.ked_positive_definite.
  cbn [numpy.add numpy.divide_float numpy.multiply_float numpy.elementwise numpy.item
       densbased._ked densbased._lap densbased.DensGradLapKedTool_super].
  rewrite vanishing_term.
  destruct (numpy.item lap j) as [sl|sl| |sl ml el]; simpl.
  - destruct (numpy.item ked j) as [[]|[]| |]; destruct sl; simpl; auto.
  - by destruct (numpy.item ked j).
  - by destruct (numpy.item ked j).
  - destruct (numpy.item ked j) as [[]|[]| |]; destruct sl; simpl; auto.
Qed.

(** X20, witness: two grid points with density, Laplacian and kinetic
    energy density 1/2 and a vanishing gradient. *)
Lemma ked_general_one_witness :
  exists self,
    densbased.DensGradLapKedTool_init
      (Examples.vector [Examples.half; Examples.half]) Examples.gradient_2
      (Examples.vector [Examples.half; Examples.half])
      (Examples.vector [Examples.half; Examples.half]) = numpy.Returns self /\
    numpy.item (densbased.ked_general self densbased.f64_1) [1] = Examples.half.
Proof.
  eexists. split; [reflexivity|].
  match goal with
  | |- numpy.item (densbased.ked_general ?self _) _ = _ =>
      destruct (ked_general_one (Examples.vector [Examples.half; Examples.half])
                  Examples.gradient_2
                  (Examples.vector [Examples.half; Examples.half])
                  (Examples.vector [Examples.half; Examples.half]) self eq_refl)
        as [_ Hitems]
  end.
  specialize (Hitems [1]). simpl in Hitems.
  destruct Hitems as [Hsame|[Hzero _]]; [exact Hsame | discriminate Hzero].
Defined.

(** * [NCI.__init__] *)

(** The assignment [tmp[np.triu_indices(3)] = values] writes the six
    items of [values] into the upper triangle, row by row, and leaves
    every other item of [tmp] as it is. *)
Lemma setitem_triu_indices (tmp values : numpy.ndarray) :
  let tmp' := numpy.setitem_indices tmp (numpy.triu_indices 3) values in
  numpy.item tmp' [0; 0] = numpy.item values [0] /\
  numpy.item tmp' [0; 1] = numpy.item values [1] /\
  numpy.item tmp' [0; 2] = numpy.item values [2] /\
  numpy.item tmp' [1; 1] = numpy.item values [3] /\
  numpy.item tmp' [1; 2] = numpy.item values [4] /\
  numpy.item tmp' [2; 2] = numpy.item values [5] /\
  numpy.item tmp' [1; 0] = numpy.item tmp [1; 0] /\
  numpy.item tmp' [2; 0] = numpy.item tmp [2; 0] /\
  numpy.item tmp' [2; 1] = numpy.item tmp [2; 1].
Proof.
  unfold numpy.setitem_indices. simpl.
  repeat split; repeat case_decide; congruence.
Qed.

Lemma shape_setsub (a : numpy.ndarray) (i : nat) (v : numpy.ndarray) :
  numpy.shape (numpy.setsub a i v) = numpy.shape a.
Proof. reflexivity. Qed.

Lemma matrix_at_setsub (a : numpy.ndarray) (k i : nat) (v : numpy.ndarray) :
  nci.matrix_at (numpy.setsub a k v) i =
  if decide (i = k)
  then (fun r => (fun c => numpy.item v [r; c]) <$> seq 0 3) <$> seq 0 3
  else nci.matrix_at a i.
Proof.
  unfold nci.matrix_at. simpl. by destruct (decide (i = k)).
Qed.

(** The state of the loop of [NCI.__init__] after [k] rounds. *)
Lemma hestri_loop (hessian : numpy.ndarray) (n k : nat) :
  let state := foldl (nci.hestri_step hessian)
                     (numpy.zeros [3; 3], numpy.zeros [n; 3; 3]) (seq 0 k) in
  numpy.item state.1 [1; 0] = f64_zero /\
  numpy.item state.1 [2; 0] = f64_zero /\
  numpy.item state.1 [2; 1] = f64_zero /\
  numpy.shape state.2 = [n; 3; 3] /\
  forall i, i < k -> nci.matrix_at state.2 i = nci.triu_matrix hessian i.
Proof.
  induction k as [|k IH]; [simpl; repeat split; intros; lia|].
  rewrite seq_S, foldl_app. cbn [foldl Nat.add].
  set (state := foldl _ _ (seq 0 k)) in *. cbv zeta in IH |- *.
  destruct IH as (H10 & H20 & H21 & Hshape & Hdone).
  pose proof (setitem_triu_indices state.1 (numpy.getsub hessian k))
    as (E00 & E01 & E02 & E11 & E12 & E22 & E10 & E20 & E21).
  unfold nci.hestri_step. cbn [fst snd].
  set (tmp := numpy.setitem_indices _ _ _) in *.
  split; [by rewrite E10|]. split; [by rewrite E20|]. split; [by rewrite E21|].
  split; [by rewrite shape_setsub|].
  intros i Hi. rewrite matrix_at_setsub.
  destruct (decide (i = k)) as [->|Hne]; [|apply Hdone; lia].
  unfold nci.triu_matrix. cbn [fmap list_fmap seq].
  rewrite E00, E01, E02, E11, E12, E22, E10, E20, E21, H10, H20, H21. reflexivity.
Qed.

(** X16. The conversion of the Hessian in [NCI.__init__]: the array
    handed to [np.linalg.eigvalsh] has the shape (n, 3, 3), and its
    matrix for grid point i is the upper triangular matrix
    [[h0, h1, h2], [0, h3, h4], [0, 0, h5]] of the six items of row i of
    [hessian]. The buffer [tmp], which is reused from point to point,
    carries nothing over from one point to the next. *)
Theorem hestri_upper_triangle (hessian : numpy.ndarray) (n i : nat) :
  i < n ->
  numpy.shape (nci.hestri hessian n) = [n; 3; 3] /\
  nci.matrix_at (nci.hestri hessian n) i = nci.triu_matrix hessian i.
Proof.
  intros Hi. unfold nci.hestri.
  destruct (hestri_loop hessian n n) as (_ & _ & _ & Hshape & Hdone).
  split; [exact Hshape | by apply Hdone].
Qed.

(** X16, witness: two grid points, the Hessian of point i holding
    10 i + k at position k. *)
Lemma hestri_upper_triangle_witness :
  nci.matrix_at (nci.hestri Examples.hessian_2 2) 1 =
  nci.triu_matrix Examples.hessian_2 1.
Proof. apply (hestri_upper_triangle Examples.hessian_2 2 1). lia. Defined.

(** X17. What [NCI.__init__] does. It checks the shape of [density]
    first, then that of [rdgradient], then that of [hessian], against the
    number n of points of the cube; the error for [rdgradient] is
    formatted with the shape of [density], not with its own. An object is
    built only from [density] and [rdgradient] of shape (n,), and it holds
    the arguments as they are. Without a Hessian it has neither signed
    density nor eigenvalues; with one of shape (n, 6) it has both, the
    signed density being, point by point, the density times the sign of
    the second eigenvalue, unless the eigenvalue routine raises. *)
Theorem NCI_init_outcome
    (eigvalsh : numpy.ndarray -> numpy.outcome (list nat -> float64))
    (sign : float64 -> float64)
    (density rdgradient : numpy.ndarray) (cube : nci.CubeGen)
    (hessian : option numpy.ndarray) :
  let n := nci.npoints cube in
  match nci.NCI_init eigvalsh sign density rdgradient cube hessian with
  | numpy.Returns self =>
      numpy.shape density = [n] /\ numpy.shape rdgradient = [n] /\
      nci._density self = density /\ nci._rdgrad self = rdgradient /\
      nci._cube self = cube /\
      match hessian with
      | None => nci._signed_density self = None /\ nci._eigvalues self = None
      | Some hessian =>
          numpy.shape hessian = [n; 6] /\
          exists items sdens,
            eigvalsh (nci.hestri hessian n) = numpy.Returns items /\
            nci._eigvalues self = Some {| numpy.shape := [n; 3]; numpy.item := items |} /\
            nci._signed_density self = Some sdens /\
            numpy.shape sdens = [n] /\
            forall i, numpy.item sdens [i] =
                      f64_mul (sign (items [i; 1])) (numpy.item density [i])
      end
  | numpy.Raises e =>
      (numpy.shape density <> [n] /\
       e = numpy.ValueError
             (numpy.Format
                "Shape of density argument {0} does not match expected ({1},) shape."
                [numpy.shape_object density; numpy.Int n])) \/
      (numpy.shape density = [n] /\ numpy.shape rdgradient <> [n] /\
       e = numpy.ValueError
             (numpy.Format
                "Shape of rdgradient argument {0} does not match expected ({1},) shape."
                [numpy.Tuple [numpy.Int n]; numpy.Int n])) \/
      (exists hess, hessian = Some hess /\
         numpy.shape density = [n] /\ numpy.shape rdgradient = [n] /\
         ((numpy.shape hess <> [n; 6] /\
           e = numpy.ValueError
                 (numpy.Format
                    "Shape of hessian argument {0} does not match expected ({1}, 6) shape."
                    [numpy.shape_object hess; numpy.Int n])) \/
          (numpy.shape hess = [n; 6] /\
           eigvalsh (nci.hestri hess n) = numpy.Raises e)))
  end.
Proof.
  intros n. unfold nci.NCI_init. fold n.
  destruct (decide (numpy.shape density <> [n])) as [Hd|Hd]; [by left|].
  assert (Hd' : numpy.shape density = [n])
    by (destruct (decide (numpy.shape density = [n])); [done | tauto]).
  destruct (decide (numpy.shape rdgradient <> [n])) as [Hr|Hr].
  { right. left. unfold numpy.shape_object. rewrite Hd'. done. }
  assert (Hr' : numpy.shape rdgradient = [n])
    by (destruct (decide (numpy.shape rdgradient = [n])); [done | tauto]).
  destruct hessian as [hess|]; [|done].
  destruct (decide (numpy.shape hess <> [n; 6])) as [Hh|Hh].
  { right. right. exists hess. split; [done|]. split; [done|]. split; [done|]. by left. }
  assert (Hh' : numpy.shape hess = [n; 6])
    by (destruct (decide (numpy.shape hess = [n; 6])); [done | tauto]).
  destruct (eigvalsh (nci.hestri hess n)) as [items|e] eqn:E.
  - split; [done|]. split; [done|]. split; [done|]. split; [done|]. split; [done|].
    split; [done|]. eexists items, _. split; [done|]. split; [done|]. split; [done|].
    split; [|done]. simpl. done.
  - right. right. exists hess. split; [done|]. split; [done|]. split; [done|]. by right.
Qed.

(** * [NCI.from_molecule], [NCI.from_file] and [NCI.dump_files] *)

Lemma NCI_init_with_hessian
    (eigvalsh : numpy.ndarray -> numpy.outcome (list nat -> float64))
    (sign : float64 -> float64)
    (density rdgradient hessian : numpy.ndarray) (cube : nci.CubeGen) (self : nci.NCI) :
  nci.NCI_init eigvalsh sign density rdgradient cube (Some hessian) = numpy.Returns self ->
  is_Some (nci._signed_density self) /\ is_Some (nci._eigvalues self) /\
  nci._density self = density /\ nci._rdgrad self = rdgradient /\ nci._cube self = cube.
Proof.
  unfold nci.NCI_init. repeat case_decide; try discriminate.
  destruct (eigvalsh _); [|discriminate].
  intros Hrun. inversion Hrun; subst. simpl. repeat split; by eexists.
Qed.

(** X18. [NCI.from_file] builds an object only from a single file name
    given as a string whose molecule could be made. The object then
    always has a signed density and eigenvalues, because [from_molecule]
    passes a Hessian; it holds the cube that was given or, when none was
    given, the cube made from the molecule with spacing 0.1 and threshold
    2.0; and its density and reduced density gradient are those of the
    molecule on the points of that cube. A list of names never gives an
    object: a non-empty list raises 'Multiple files are not supported'
    whatever it holds, and the empty list makes the method return [None]
    without an error. The argument [package_name] has no influence. *)
Theorem from_file_outcome
    (eigvalsh : numpy.ndarray -> numpy.outcome (list nat -> float64))
    (sign : float64 -> float64)
    (make_molecule : string -> numpy.outcome nci.Molecule)
    (CubeGen_from_molecule :
       list Z -> list float64 -> ndarray2 -> float64 -> float64 -> nci.CubeGen)
    (reduced_density_gradient :
       numpy.ndarray -> numpy.ndarray -> numpy.outcome numpy.ndarray)
    (filename : nci.filename_arg) (cube : option nci.cube_arg)
    (package_name other_name : option string) :
  let from_file :=
    nci.from_file eigvalsh sign make_molecule CubeGen_from_molecule
      reduced_density_gradient in
  from_file filename cube other_name = from_file filename cube package_name /\
  match from_file filename cube package_name with
  | numpy.Returns (Some self) =>
      exists name molecule rdgrad,
        filename = nci.Str name /\
        make_molecule name = numpy.Returns molecule /\
        nci._cube self =
          match cube with
          | Some (nci.Cube given) => given
          | _ => CubeGen_from_molecule (nci.numbers molecule) (nci.pseudo_numbers molecule)
                   (nci.coordinates molecule) nci.f64_0_1 nci.f64_2
          end /\
        cube <> Some nci.Other /\
        nci._density self = nci.compute_density molecule (nci.points (nci._cube self)) /\
        reduced_density_gradient (nci._density self)
          (nci.compute_gradient molecule (nci.points (nci._cube self))) =
          numpy.Returns rdgrad /\
        nci._rdgrad self = rdgrad /\
        is_Some (nci._signed_density self) /\ is_Some (nci._eigvalues self)
  | numpy.Returns None => filename = nci.List []
  | numpy.Raises e =>
      match filename with
      | nci.List l =>
          l <> [] /\
          e = numpy.ValueError (numpy.Literal "Multiple files are not supported")
      | nci.Str _ => True
      end
  end.
Proof.
  intros from_file. split; [by destruct filename|].
  unfold from_file, nci.from_file.
  destruct filename as [name|[|x l]]; [|done|done].
  destruct (make_molecule name) as [molecule|e] eqn:Em; [|done].
  unfold nci.from_molecule.
  destruct cube as [[given|]|]; [| done |].
  - destruct (reduced_density_gradient _ _) as [rdgrad|e] eqn:Er; [|done].
    destruct (nci.NCI_init _ _ _ _ _ _) as [self|e] eqn:Ei; [|done].
    apply NCI_init_with_hessian in Ei as (Hs & He & Hd & Hr & Hc).
    exists name, molecule, rdgrad. rewrite Hc, Hd. by repeat split.
  - destruct (reduced_density_gradient _ _) as [rdgrad|e] eqn:Er; [|done].
    destruct (nci.NCI_init _ _ _ _ _ _) as [self|e] eqn:Ei; [|done].
    apply NCI_init_with_hessian in Ei as (Hs & He & Hd & Hr & Hc).
    exists name, molecule, rdgrad. rewrite Hc, Hd. by repeat split.
Qed.

Lemma above_infinity (x : float64) : nci.above (S754_infinity false) x = false.
Proof. by destruct x as [| [] | |]. Qed.

Lemma above_nan (denscut x : float64) : is_nan x = true -> nci.above denscut x = false.
Proof. destruct x; try discriminate. intros _. by destruct denscut. Qed.

(** X19. [NCI.dump_files] on an object whose density and reduced density
    gradient have one shape, as [__init__] ensures. It writes the density
    cube to [filename + '-dens.cube'], then the reduced density gradient
    cube to [filename + '-grad.cube'], then the script. The gradient cube
    has the shape of the density, and each of its values is either the
    stored reduced density gradient or 100.0; a point whose density is
    NaN is never cut; and with [denscut] infinite, as the docstring
    advises, no point is cut at all. *)
Theorem dump_files_cut (self : nci.NCI) (filename : string)
    (isosurf denscut : option float64) :
  numpy.shape (nci._density self) = numpy.shape (nci._rdgrad self) ->
  exists dens cutrdg script,
    nci.dump_files self filename isosurf denscut =
      [nci.dump_cube (nci._cube self) (filename ++ "-dens.cube")%string dens;
       nci.dump_cube (nci._cube self) (filename ++ "-grad.cube")%string cutrdg;
       script] /\
    numpy.shape cutrdg = numpy.shape (nci._density self) /\
    (forall j, numpy.item cutrdg j <> numpy.item (nci._rdgrad self) j ->
       numpy.item cutrdg j = nci.f64_100 /\
       is_nan (numpy.item (nci._density self) j) = false) /\
    (denscut = Some (S754_infinity false) ->
     forall j, numpy.item cutrdg j = numpy.item (nci._rdgrad self) j).
Proof.
  intros Hshape. unfold nci.dump_files. eexists _, _, _. split; [reflexivity|].
  simpl. split; [done|]. split.
  - intros j Hj.
    destruct (is_nan (numpy.item (nci._density self) j)) eqn:En.
    + rewrite above_nan in Hj by done. done.
    + destruct (nci.above _ _); done.
  - intros -> j. simpl. by rewrite above_infinity.
Qed.

(** X19, witness: two grid points, no cut. *)
Lemma dump_files_cut_witness :
  exists dens cutrdg script,
    nci.dump_files Examples.toy_nci "h2o" None (Some (S754_infinity false)) =
      [nci.dump_cube (Examples.toy_cube 2) "h2o-dens.cube" dens;
       nci.dump_cube (Examples.toy_cube 2) "h2o-grad.cube" cutrdg;
       script] /\
    forall j, numpy.item cutrdg j = numpy.item (Examples.vector [Examples.half; Examples.half]) j.
Proof.
  destruct (dump_files_cut Examples.toy_nci "h2o" None (Some (S754_infinity false)))
    as (dens & cutrdg & script & Hrun & _ & _ & Hinf); [reflexivity|].
  exists dens, cutrdg, script. split; [exact Hrun | by apply Hinf].
Defined.
